(** * Web-Skyling: the template and configuration store of [server.js]

    A shallow embedding of the persistence endpoints of [src/server.js]
    ([/api/defaults], [/api/config], [/api/templates]) together with the
    two PostgreSQL relations they act on, and the properties of the store
    stated in the specification.

    Modelling decisions, all taken from the source:

    - The two relations are lists of rows in heap order.  Uniqueness of
      [key] and [name] is NOT built into the representation: it is the
      effect of the [PRIMARY KEY] / [UNIQUE] constraints, which the
      statements below check the way the schema declares them, and it is
      proved as an invariant.
    - [TEXT] values are [string]s, sequences of characters with codes 0 to
      255; a JavaScript value that may be missing from the request body
      ([undefined], which node-postgres sends as SQL [NULL]) is an
      [option].
    - The [JSONB] payload sent by the client ([app.js]: an object with the
      three fields [structure], [output], [limitations]) is a record; the
      server never looks inside it.
    - The store (encoding UTF8) refuses what it cannot hold, and the model
      computes that: a parameter with the character of code 0, in a text or
      in a string of the payload, is refused when the statement is bound,
      and [nextval] fails once the sequence of [id SERIAL] has handed out
      2147483647.
    - [CURRENT_TIMESTAMP] is an input of each request ([now]).
    - The store may fail for reasons that the model does not compute
      (connection lost, resource exhaustion, a key or name whose index
      entry does not fit its page): every round trip to the store consumes
      one entry of a fault oracle, and a faulty round trip throws without
      touching the tables.  A key or name of at most 1346 characters always
      fits ([fits_index]), so for those the empty oracle is what happens
      while the store is available.
    - Requests are executed one at a time; [client.release()] and the
      logging calls have no effect on the relations and are left out.

    [server.js] holds two revisions of the server one after the other; the
    handlers embedded here are the same in both. *)

From stdpp Require Import gmap strings list sorting.
From Stdlib Require Import ZArith Lia.

(** ** Rows and relations *)

(** The payload of a template, as [app.js] builds it. *)
Record template_data := TemplateData {
  structure : string;
  output : string;
  limitations : string
}.

(** [web_skyling_config (key TEXT PRIMARY KEY, value TEXT)];
    [value] is nullable. *)
Record config_row := ConfigRow {
  row_key : string;
  row_value : option string
}.

(** [web_skyling_templates (id SERIAL PRIMARY KEY, name TEXT UNIQUE NOT NULL,
    data JSONB NOT NULL, created_at TIMESTAMP DEFAULT CURRENT_TIMESTAMP)]. *)
Record template_row := TemplateRow {
  row_id : Z;
  row_name : string;
  row_data : template_data;
  row_created_at : Z
}.

(** The database: both relations and the sequence behind [id SERIAL]
    (its last value; a fresh sequence hands out 1 first). *)
Record database := Database {
  web_skyling_config : list config_row;
  web_skyling_templates : list template_row;
  web_skyling_templates_id_seq : Z
}.

Definition empty_database : database := Database [] [] 0.

#[global] Instance template_data_eq_dec : EqDecision template_data.
Proof. solve_decision. Defined.
#[global] Instance config_row_eq_dec : EqDecision config_row.
Proof. solve_decision. Defined.
#[global] Instance template_row_eq_dec : EqDecision template_row.
Proof. solve_decision. Defined.
#[global] Instance database_eq_dec : EqDecision database.
Proof. solve_decision. Defined.

(** ** What a handler can catch *)

Inductive exn :=
  | ConnectionError            (* the round trip itself failed *)
  | UniqueViolation            (* 23505: PRIMARY KEY / UNIQUE *)
  | NotNullViolation           (* 23502: NOT NULL *)
  | CharacterNotInRepertoire   (* 22021: a text with the character of code 0 *)
  | UntranslatableCharacter    (* 22P05: \u0000 in a string of a JSONB value *)
  | SequenceLimitExceeded      (* 2200H: nextval at the end of the sequence *)
  | ReadError.                 (* thrown by fs.readFileSync *)

Inductive result (A : Type) :=
  | Ok (a : A)
  | Throw (e : exn).
Arguments Ok {A} a.
Arguments Throw {A} e.

(** ** The parameters of a statement

    node-postgres sends the values of [$1], [$2], ... apart from the text
    of the statement, an object as its JSON text.  The store converts them
    to the types of their places when it binds the statement, in their
    order and before it executes anything.  PostgreSQL has no character
    with code 0: a text that holds one is refused, and so is a JSON
    document that holds one in a string (it arrives as the escape
    [\u0000], which [JSONB] does not take). *)

Fixpoint text_ok (s : string) : bool :=
  match s with
  | EmptyString => true
  | String a rest => negb (Ascii.eqb a Ascii.zero) && text_ok rest
  end.

Definition data_ok (x : template_data) : bool :=
  text_ok (structure x) && text_ok (output x) && text_ok (limitations x).

(** A value that may be missing: [NULL] is always taken. *)
Definition value_ok (v : option string) : bool := default true (text_ok <$> v).

Inductive parameter :=
  | TEXT (s : option string)
  | JSONB (x : option template_data).

Definition convert (p : parameter) : option exn :=
  match p with
  | TEXT (Some s) => if text_ok s then None else Some CharacterNotInRepertoire
  | JSONB (Some x) => if data_ok x then None else Some UntranslatableCharacter
  | TEXT None | JSONB None => None
  end.

Fixpoint bind_parameters (ps : list parameter) : option exn :=
  match ps with
  | [] => None
  | p :: rest =>
      match convert p with
      | Some e => Some e
      | None => bind_parameters rest
      end
  end.

(** A statement with parameters: bound, then executed. *)
Definition prepared {A} (ps : list parameter)
    (execute : database → result A * database) : database → result A * database :=
  λ d, match bind_parameters ps with
       | Some e => (Throw e, d)
       | None => execute d
       end.
Arguments prepared : simpl never.

(** The entry of a key or name in the index that keeps it unique must fit
    in a third of a page.  One of at most 2692 bytes always fits, and a
    text of at most 1346 characters has no more bytes than that; whether a
    longer one fits depends on how well it compresses, which is left to
    the fault oracle below. *)
Definition fits_index (s : string) : bool := bool_decide (String.length s ≤ 1346).

(** A key or name that the store takes and that fits its index. *)
Definition key_ok (s : string) : bool := text_ok s && fits_index s.

(** ** SQL statements

    Each statement is a function from the database to its outcome and the
    database it leaves. *)

Definition has_key (k : string) (rows : list config_row) : bool :=
  bool_decide (k ∈ row_key <$> rows).

Definition has_name (n : string) (rows : list template_row) : bool :=
  bool_decide (n ∈ row_name <$> rows).

(** [SELECT COUNT( * ) FROM web_skyling_config] *)
Definition count_config (d : database) : result nat * database :=
  (Ok (length (web_skyling_config d)), d).

(** [SELECT COUNT( * ) FROM web_skyling_templates] *)
Definition count_templates (d : database) : result nat * database :=
  (Ok (length (web_skyling_templates d)), d).

(** [SELECT key, value FROM web_skyling_config] *)
Definition select_config (d : database) : result (list config_row) * database :=
  (Ok (web_skyling_config d), d).

(** [INSERT INTO web_skyling_config (key, value) VALUES ($1, $2)] *)
Definition insert_config (k : string) (v : option string)
    : database → result unit * database :=
  prepared [TEXT (Some k); TEXT v] (λ d,
    if has_key k (web_skyling_config d) then (Throw UniqueViolation, d)
    else (Ok (), Database (web_skyling_config d ++ [ConfigRow k v])
                          (web_skyling_templates d)
                          (web_skyling_templates_id_seq d))).

Definition set_value (k : string) (v : option string) (r : config_row) : config_row :=
  if decide (row_key r = k) then ConfigRow (row_key r) v else r.

(** [INSERT INTO web_skyling_config (key, value) VALUES ($1, $2)
     ON CONFLICT (key) DO UPDATE SET value = $2] *)
Definition upsert_config (k : string) (v : option string)
    : database → result unit * database :=
  prepared [TEXT (Some k); TEXT v] (λ d,
    if has_key k (web_skyling_config d)
    then (Ok (), Database (set_value k v <$> web_skyling_config d)
                          (web_skyling_templates d)
                          (web_skyling_templates_id_seq d))
    else (Ok (), Database (web_skyling_config d ++ [ConfigRow k v])
                          (web_skyling_templates d)
                          (web_skyling_templates_id_seq d))).

(** The largest value of the sequence of an [id SERIAL] column. *)
Definition MAXVALUE : Z := 2147483647.

(** [nextval] of the sequence behind [id SERIAL].  The default of [id] is
    evaluated for every row proposed for insertion, before constraints and
    conflicts are looked at, and a sequence is never rolled back.  At its
    largest value the sequence raises an error. *)
Definition nextval (d : database) : result Z * database :=
  if bool_decide (web_skyling_templates_id_seq d < MAXVALUE)%Z then
    let i := (web_skyling_templates_id_seq d + 1)%Z in
    (Ok i, Database (web_skyling_config d) (web_skyling_templates d) i)
  else (Throw SequenceLimitExceeded, d).

Definition with_templates (d : database) (rows : list template_row) : database :=
  Database (web_skyling_config d) rows (web_skyling_templates_id_seq d).

Definition set_data (n : string) (x : template_data) (r : template_row) : template_row :=
  if decide (row_name r = n)
  then TemplateRow (row_id r) (row_name r) x (row_created_at r) else r.

(** [INSERT INTO web_skyling_templates (name, data) VALUES ($1, $2)
     ON CONFLICT (name) DO UPDATE SET data = $2] *)
Definition upsert_template (n : string) (x : option template_data) (now : Z)
    : database → result unit * database :=
  prepared [TEXT (Some n); JSONB x] (λ d,
    match nextval d with
    | (Throw e, d1) => (Throw e, d1)
    | (Ok i, d1) =>
        match x with
        | None => (Throw NotNullViolation, d1)
        | Some x =>
            if has_name n (web_skyling_templates d1)
            then (Ok (), with_templates d1 (set_data n x <$> web_skyling_templates d1))
            else (Ok (), with_templates d1
                           (web_skyling_templates d1 ++ [TemplateRow i n x now]))
        end
    end).

(** [INSERT INTO web_skyling_templates (name, data) VALUES ($1, $2)
     ON CONFLICT (name) DO NOTHING]; here [$1] comes from a file and may be
    missing. *)
Definition insert_template_do_nothing (n : option string) (x : option template_data)
    (now : Z) : database → result unit * database :=
  prepared [TEXT n; JSONB x] (λ d,
    match nextval d with
    | (Throw e, d1) => (Throw e, d1)
    | (Ok i, d1) =>
        match n, x with
        | Some n, Some x =>
            if has_name n (web_skyling_templates d1) then (Ok (), d1)
            else (Ok (), with_templates d1
                           (web_skyling_templates d1 ++ [TemplateRow i n x now]))
        | _, _ => (Throw NotNullViolation, d1)
        end
    end).

(** [SELECT * FROM web_skyling_templates WHERE name = $1] *)
Definition select_template (n : string)
    : database → result (list template_row) * database :=
  prepared [TEXT (Some n)] (λ d,
    (Ok (filter (λ r, row_name r = n) (web_skyling_templates d)), d)).

Definition rename_row (finalName : string) (x : template_data) (oldName : string)
    (r : template_row) : template_row :=
  if decide (row_name r = oldName)
  then TemplateRow (row_id r) finalName x (row_created_at r) else r.

(** [UPDATE web_skyling_templates SET name = $1, data = $2 WHERE name = $3].
    A statement that matches no row checks nothing; otherwise [data] must
    not be NULL and the new names must keep [name] unique. *)
Definition update_template (finalName : string) (x : option template_data)
    (oldName : string) : database → result unit * database :=
  prepared [TEXT (Some finalName); JSONB x; TEXT (Some oldName)] (λ d,
    if has_name oldName (web_skyling_templates d) then
      match x with
      | None => (Throw NotNullViolation, d)
      | Some x =>
          let rows := rename_row finalName x oldName <$> web_skyling_templates d in
          if bool_decide (NoDup (row_name <$> rows))
          then (Ok (), with_templates d rows)
          else (Throw UniqueViolation, d)
      end
    else (Ok (), d)).

(** [DELETE FROM web_skyling_templates WHERE name = $1] *)
Definition delete_template (n : string)
    : database → result unit * database :=
  prepared [TEXT (Some n)] (λ d,
    (Ok (), with_templates d (filter (λ r, row_name r ≠ n) (web_skyling_templates d)))).

(** [ORDER BY created_at DESC]: rows with the larger timestamp first.  SQL
    leaves the order of rows with equal timestamps open; this model keeps
    them in heap order.  No statement about the order below depends on
    that choice except where it says so. *)
Fixpoint insert_desc (r : template_row) (rows : list template_row) : list template_row :=
  match rows with
  | [] => [r]
  | x :: rest =>
      if bool_decide (row_created_at x ≤ row_created_at r)%Z
      then r :: x :: rest
      else x :: insert_desc r rest
  end.

Definition order_by_created_at_desc (rows : list template_row) : list template_row :=
  foldr insert_desc [] rows.

(** [SELECT * FROM web_skyling_templates ORDER BY created_at DESC] *)
Definition select_templates (d : database) : result (list template_row) * database :=
  (Ok (order_by_created_at_desc (web_skyling_templates d)), d).

(** ** The connection: state, faults and exceptions

    A handler runs against a [world]: the database, the snapshot taken by
    an open transaction (if any), and the fault oracle.  Each round trip
    to the store takes the next entry of the oracle; [true] means that
    this round trip fails; an exhausted oracle means no further fault. *)

Record world := World {
  db : database;
  txn : option database;
  faults : list bool
}.

(** Computations of a handler: state passing with exceptions, the way
    [await] and [try]/[catch] behave in the source. *)
Definition js (A : Type) : Type := world → result A * world.

#[global] Instance js_ret : MRet js := λ A a w, (Ok a, w).

#[global] Instance js_bind : MBind js := λ A B k m w,
  match m w with
  | (Ok a, w') => k a w'
  | (Throw e, w') => (Throw e, w')
  end.

(** [try { body } catch (e) { handler }] *)
Definition try_catch {A} (body : js A) (handler : exn → js A) : js A :=
  λ w, match body w with
       | (Ok a, w') => (Ok a, w')
       | (Throw e, w') => handler e w'
       end.

Definition throw {A} (e : exn) : js A := λ w, (Throw e, w).

Definition next_fault (w : world) : bool * list bool :=
  match faults w with
  | [] => (false, [])
  | b :: rest => (b, rest)
  end.

(** [pool.query(...)] / [client.query(...)] with a data statement. *)
Definition query {A} (stmt : database → result A * database) : js A :=
  λ w, let '(faulty, rest) := next_fault w in
       if faulty then (Throw ConnectionError, World (db w) (txn w) rest)
       else let '(r, d) := stmt (db w) in (r, World d (txn w) rest).

(** [pool.connect()] *)
Definition connect : js unit :=
  λ w, let '(faulty, rest) := next_fault w in
       if faulty then (Throw ConnectionError, World (db w) (txn w) rest)
       else (Ok (), World (db w) (txn w) rest).

(** Undoing a transaction restores both relations; the sequence keeps its
    value. *)
Definition restore (snapshot : option database) (d : database) : database :=
  match snapshot with
  | Some s => Database (web_skyling_config s) (web_skyling_templates s)
                       (web_skyling_templates_id_seq d)
  | None => d
  end.

(** [client.query('BEGIN')] *)
Definition BEGIN : js unit :=
  λ w, let '(faulty, rest) := next_fault w in
       if faulty then (Throw ConnectionError, World (db w) (txn w) rest)
       else (Ok (), World (db w) (Some (db w)) rest).

(** [client.query('COMMIT')] *)
Definition COMMIT : js unit :=
  λ w, let '(faulty, rest) := next_fault w in
       if faulty then (Throw ConnectionError, World (db w) (txn w) rest)
       else (Ok (), World (db w) None rest).

(** [client.query('ROLLBACK')] *)
Definition ROLLBACK : js unit :=
  λ w, let '(faulty, rest) := next_fault w in
       if faulty then (Throw ConnectionError, World (db w) (txn w) rest)
       else (Ok (), World (restore (txn w) (db w)) None rest).

(** ** Responses *)

(** The object built by [const config = {}; config[row.key] = row.value]:
    its own properties, and whether its prototype is still
    [Object.prototype].  While it is, the name [__proto__] is the inherited
    accessor: assigning a string to it does nothing and assigning [null]
    detaches the prototype; neither creates a property. *)
Record js_object := JsObject {
  own : gmap string (option string);
  inherits : bool
}.

Definition empty_object : js_object := JsObject ∅ true.

Definition js_assign (o : js_object) (k : string) (v : option string) : js_object :=
  if inherits o && bool_decide (k = "__proto__") then
    match v with
    | None => JsObject (own o) false
    | Some _ => o
    end
  else JsObject (<[k := v]> (own o)) (inherits o).

(** [result.rows.forEach(row => { config[row.key] = row.value; })] *)
Definition rows_to_object (rows : list config_row) : js_object :=
  foldl (λ o r, js_assign o (row_key r) (row_value r)) empty_object rows.

Inductive json :=
  | JConfig (config : gmap string (option string))       (* res.json(config) *)
  | JConfigSet (key : string) (value : option string)    (* { success, key, value } *)
  | JRows (rows : list template_row)                     (* res.json(result.rows) *)
  | JTemplates (templates : list template_row)           (* { success, templates } *)
  | JError (error : string).                             (* { error } *)

Record response := Response {
  status : Z;
  body : json
}.

(** The falsy strings of a request body: missing and empty. *)
Definition truthy (v : option string) : option string :=
  match v with
  | Some s => if decide (s = "") then None else Some s
  | None => None
  end.

(** ** The handlers *)

(** [app.get('/api/defaults', ...)] *)
Definition get_api_defaults : js response :=
  try_catch
    (rows ← query select_config ;
     let config := rows_to_object rows in
     mret (Response 200 (JConfig (own config))))
    (λ e, mret (Response 500 (JError "Database error fetching defaults"))).

(** [app.put('/api/config', ...)] *)
Definition put_api_config (key value : option string) : js response :=
  match truthy key with
  | None => mret (Response 400 (JError "Key is required"))
  | Some k =>
      try_catch
        (query (upsert_config k value) ;;
         mret (Response 200 (JConfigSet k value)))
        (λ e, mret (Response 500 (JError "Database error updating config")))
  end.

(** [app.get('/api/templates', ...)] *)
Definition get_api_templates : js response :=
  try_catch
    (rows ← query select_templates ;
     mret (Response 200 (JRows rows)))
    (λ e, mret (Response 500 (JError "Database error"))).

(** [app.post('/api/templates', ...)] *)
Definition post_api_templates (name : option string) (data : option template_data)
    (now : Z) : js response :=
  match truthy name with
  | None => mret (Response 400 (JError "Name is required"))
  | Some n =>
      try_catch
        (query (upsert_template n data now) ;;
         all ← query select_templates ;
         mret (Response 200 (JTemplates all)))
        (λ e, mret (Response 500 (JError "Database error")))
  end.

(** [app.put('/api/templates/:oldName', ...)].  [update] is the rest of the
    transaction after the collision check, which is reached from each way
    out of that [if]. *)
Definition put_api_templates (oldName : string) (newName : option string)
    (data : option template_data) : js response :=
  try_catch
    (connect ;;
     try_catch
       (BEGIN ;;
        check ← query (select_template oldName) ;
        if bool_decide (length check = 0) then
          ROLLBACK ;;
          mret (Response 404 (JError "Template not found"))
        else
          let update : js response :=
            let finalName := default oldName (truthy newName) in
            query (update_template finalName data oldName) ;;
            COMMIT ;;
            all ← query select_templates ;
            mret (Response 200 (JTemplates all)) in
          match truthy newName with
          | Some n =>
              if bool_decide (n ≠ oldName) then
                collision ← query (select_template n) ;
                if bool_decide (0 < length collision) then
                  ROLLBACK ;;
                  mret (Response 400 (JError "Ya existe una plantilla con ese nombre."))
                else update
              else update
          | None => update
          end)
       (λ e, ROLLBACK ;; throw e))
    (λ e, mret (Response 500 (JError "Database error"))).

(** [app.delete('/api/templates/:name', ...)] *)
Definition delete_api_templates (name : string) : js response :=
  try_catch
    (query (delete_template name) ;;
     all ← query select_templates ;
     mret (Response 200 (JTemplates all)))
    (λ e, mret (Response 500 (JError "Database error"))).

(** ** Start-up: [initDB] *)

(** An entry of the directory [rags]: a file that can be read, or something
    that exists but makes [fs.readFileSync] throw. *)
Inductive fs_node :=
  | RegularFile (content : string)
  | NotReadable.

(** [readFile(path.join(baseDir, name))] *)
Definition readFile (rags : gmap string fs_node) (name : string) : string :=
  match rags !! name with
  | Some (RegularFile content) => content
  | Some NotReadable => ""
  | None => ""
  end.

(** [const seedData = { 'structure': ..., 'output': ..., 'limitations': ...,
    'systemPrompt': ..., 'knowledge': ... }], from the contents of the seed
    files. *)
Definition seedData (estructura output_txt limitaciones systemprompt knowledge : string)
    : list (string * string) :=
  [("structure", estructura); ("output", output_txt); ("limitations", limitaciones);
   ("systemPrompt", systemprompt); ("knowledge", knowledge)].

(** The knowledge text: the [.txt] if it exists (reading it is not guarded),
    else the text of the [.pdf] if it exists and parses, else nothing.
    [None] is the exception of the unguarded read; [pdf] is [pdf-parse]. *)
Definition knowledge_text (rags : gmap string fs_node)
    (pdf : string → option string) : option string :=
  match rags !! "conocimiento_unico_sections.txt" with
  | Some (RegularFile content) => Some content
  | Some NotReadable => None
  | None =>
      match rags !! "conocimiento_unico_sections.pdf" with
      | Some (RegularFile dataBuffer) => Some (default "" (pdf dataBuffer))
      | Some NotReadable => Some ""
      | None => Some ""
      end
  end.

(** [seedData] as [initDB] fills it from the directory. *)
Definition load_seedData (rags : gmap string fs_node)
    (pdf : string → option string) : option (list (string * string)) :=
  knowledge ← knowledge_text rags pdf;
  Some (seedData (readFile rags "estructura.txt") (readFile rags "output.txt")
          (readFile rags "limitaciones.txt") (readFile rags "systemprompt.txt")
          knowledge).

(** The seed files can be read, and the store takes what they hold. *)
Definition seed_ok (rags : gmap string fs_node) (pdf : string → option string) : bool :=
  match load_seedData rags pdf with
  | Some seed => forallb (λ e, text_ok e.2) seed
  | None => false
  end.

(** [for (const [key, value] of Object.entries(seedData)) { if (value) INSERT }] *)
Fixpoint seed_config (entries : list (string * string)) : js unit :=
  match entries with
  | [] => mret ()
  | (key, value) :: rest =>
      (if decide (value = "") then mret ()
       else query (insert_config key (Some value))) ;;
      seed_config rest
  end.

(** The body of [if (parseInt(configCount.rows[0].count) === 0) { ... }]:
    the seed files are read, then their contents are stored. *)
Definition seed_from_files (rags : gmap string fs_node)
    (pdf : string → option string) : js unit :=
  match load_seedData rags pdf with
  | Some seed => seed_config seed
  | None => throw ReadError
  end.

(** [for (const t of jsonTemplates) { INSERT ... ON CONFLICT (name) DO NOTHING }];
    [now i] is [CURRENT_TIMESTAMP] at the [i]-th insertion. *)
Fixpoint migrate_templates (jsonTemplates : list (option string * option template_data))
    (now : nat → Z) (i : nat) : js unit :=
  match jsonTemplates with
  | [] => mret ()
  | (t_name, t_data) :: rest =>
      query (insert_template_do_nothing t_name t_data (now i)) ;;
      migrate_templates rest now (S i)
  end.

(** [initDB].  [rags] is the directory of the seed files and [pdf] the
    parser of the knowledge document; [jsonTemplates] is the array parsed
    from [templates.json], or [None] when the file is missing, does not
    parse or holds no array.  Both [CREATE TABLE IF NOT EXISTS] leave an
    existing relation alone. *)
Definition initDB (rags : gmap string fs_node) (pdf : string → option string)
    (jsonTemplates : option (list (option string * option template_data)))
    (now : nat → Z) : js unit :=
  try_catch
    (query (λ d, (Ok (), d)) ;;
     query (λ d, (Ok (), d)) ;;
     configCount ← query count_config ;
     (if bool_decide (configCount = 0) then seed_from_files rags pdf else mret ()) ;;
     templateCount ← query count_templates ;
     if bool_decide (templateCount = 0) then
       match jsonTemplates with
       | Some ts => try_catch (migrate_templates ts now 0) (λ e, mret ())
       | None => mret ()
       end
     else mret ())
    (λ e, mret ()).

(** ** Running a request *)

Inductive request :=
  | GET_defaults
  | PUT_config (key value : option string)
  | GET_templates
  | POST_templates (name : option string) (data : option template_data)
  | PUT_templates (oldName : string) (newName : option string)
                  (data : option template_data)
  | DELETE_templates (name : string).

Definition handle (r : request) (now : Z) : js response :=
  match r with
  | GET_defaults => get_api_defaults
  | PUT_config key value => put_api_config key value
  | GET_templates => get_api_templates
  | POST_templates name data => post_api_templates name data now
  | PUT_templates oldName newName data => put_api_templates oldName newName data
  | DELETE_templates name => delete_api_templates name
  end.

(** One request (or one start-up) from beginning to end, on database [d]
    with the fault oracle [fs].  A transaction still open when the handler
    is done is aborted by the store. *)
Definition run {A} (m : js A) (fs : list bool) (d : database) : result A * database :=
  let '(r, w) := m (World d None fs) in (r, restore (txn w) (db w)).

(** The operations of the store, by the names the specification gives them.
    [fs] is the fault oracle of the call; [[]] is a call during which the
    store stays available. *)
Definition GetConfig (fs : list bool) (d : database) :=
  run (handle GET_defaults 0) fs d.
Definition SetConfig (key value : option string) (fs : list bool) (d : database) :=
  run (handle (PUT_config key value) 0) fs d.
Definition List (fs : list bool) (d : database) :=
  run (handle GET_templates 0) fs d.
Definition Upsert (name : option string) (data : option template_data) (now : Z)
    (fs : list bool) (d : database) :=
  run (handle (POST_templates name data) now) fs d.
Definition Rename (oldName : string) (newName : option string)
    (data : option template_data) (fs : list bool) (d : database) :=
  run (handle (PUT_templates oldName newName data) 0) fs d.
Definition Delete (name : string) (fs : list bool) (d : database) :=
  run (handle (DELETE_templates name) 0) fs d.

(** The states the store can be in: a fresh database, and whatever
    start-ups and requests make of a reachable one. *)
Inductive reachable : database → Prop :=
  | reachable_fresh : reachable empty_database
  | reachable_init d rags pdf jsonTemplates now fs :
      reachable d →
      reachable (run (initDB rags pdf jsonTemplates now) fs d).2
  | reachable_request d r now fs :
      reachable d →
      reachable (run (handle r now) fs d).2.

(** ** The invariants of the store *)

(** At most one config entry per key, at most one template per name. *)
Definition unique_entries (d : database) : Prop :=
  NoDup (row_key <$> web_skyling_config d) ∧
  NoDup (row_name <$> web_skyling_templates d).

(** Every id in use was handed out by the sequence, and to one row only. *)
Definition ids_issued (d : database) : Prop :=
  NoDup (row_id <$> web_skyling_templates d) ∧
  Forall (λ r, row_id r ≤ web_skyling_templates_id_seq d)%Z (web_skyling_templates d).

Definition consistent (d : database) : Prop := unique_entries d ∧ ids_issued d.

(** The database holds only what the store takes: no text with the
    character of code 0, and a sequence within its bounds. *)
Definition storable (d : database) : Prop :=
  Forall (λ r, text_ok (row_key r) ∧ value_ok (row_value r)) (web_skyling_config d) ∧
  Forall (λ r, text_ok (row_name r) ∧ data_ok (row_data r)) (web_skyling_templates d) ∧
  (0 ≤ web_skyling_templates_id_seq d ≤ MAXVALUE)%Z.

(** The error signals of the boundary, as the handlers send them. *)
Definition ValidationError_name : response := Response 400 (JError "Name is required").
Definition ValidationError_key : response := Response 400 (JError "Key is required").
Definition NotFound : response := Response 404 (JError "Template not found").
Definition NameCollision : response :=
  Response 400 (JError "Ya existe una plantilla con ese nombre.").
Definition StoreUnavailable (r : response) : Prop :=
  status r = 500%Z ∧ ∃ msg, body r = JError msg.

(** ** The session gate and the login (second revision of [server.js]) *)

(** [process.env.USER_USERNAME], [process.env.USER_PASSWORD] *)
Record auth_env := AuthEnv {
  USER_USERNAME : option string;
  USER_PASSWORD : option string
}.

(** What the server sends back once the gate and the login are in play:
    one of the JSON responses above, [{ success: true }], a file, or a
    redirect; [NoReply] stands for a handler that never answers. *)
Inductive reply :=
  | Json (r : response)
  | Success
  | SendFile (file : string)
  | Redirect (location : string)
  | NoReply.

Definition publicRoutes : list string :=
  ["/api/login"; "/login.html"; "/style.css"; "/favicon.ico"].

(** The decision of the intercepting middleware on [req.path] and
    [req.session.user]. *)
Inductive gate :=
  | Next               (* next() *)
  | LoginPage          (* res.sendFile(.../public/login.html) *)
  | Unauthorized       (* res.status(401).json({ error: "Unauthorized" }) *)
  | RedirectToRoot.    (* res.redirect('/') *)

(** [app.use((req, res, next) => { ... })], the one after [publicRoutes]. *)
Definition intercept (path : string) (user : option string) : gate :=
  if bool_decide (path ∈ publicRoutes) then Next
  else if bool_decide (is_Some user) then Next
  else if bool_decide (path = "/" ∨ path = "/index.html") then LoginPage
  else if String.prefix "/api/" path then Unauthorized
  else RedirectToRoot.

(** [app.post('/api/login', ...)]: the reply and [req.session.user] after
    the call.  [username] and [password] are the fields of the body when
    they are strings; anything else is [None] and equals ([===]) no
    configured credential. *)
Definition post_api_login (env : auth_env) (username password : option string)
    (user : option string) : reply * option string :=
  match truthy (USER_USERNAME env), truthy (USER_PASSWORD env) with
  | Some validUser, Some validPass =>
      if bool_decide (username = Some validUser) && bool_decide (password = Some validPass)
      then (Success, username)
      else (Json (Response 401 (JError "Invalid credentials")), user)
  | _, _ => (Json (Response 500 (JError "Server Auth Config Error")), user)
  end.

(** [app.post('/api/logout', ...)]; [err] is what [req.session.destroy]
    hands to its callback.  A session that could not be destroyed is still
    in the session store. *)
Definition post_api_logout (err : bool) (user : option string) : reply * option string :=
  if err then (Json (Response 500 (JError "Logout failed")), user)
  else (Success, None).

(** The routes behind the gate. *)
Inductive route :=
  | Login (username password : option string)
  | Logout (err : bool)
  | Store (r : request).

(** One request to the second revision: the gate, then the route that the
    framework matched.  The state is [req.session.user] and the database. *)
Definition app (env : auth_env) (path : string) (rt : route) (now : Z) (fs : list bool)
    (st : option string * database) : reply * (option string * database) :=
  match intercept path st.1 with
  | Next =>
      match rt with
      | Login username password =>
          let '(rep, user) := post_api_login env username password st.1 in
          (rep, (user, st.2))
      | Logout err =>
          let '(rep, user) := post_api_logout err st.1 in
          (rep, (user, st.2))
      | Store r =>
          let '(res, d) := run (handle r now) fs st.2 in
          (match res with Ok resp => Json resp | Throw _ => NoReply end, (st.1, d))
      end
  | LoginPage => (SendFile "login.html", st)
  | Unauthorized => (Json (Response 401 (JError "Unauthorized")), st)
  | RedirectToRoot => (Redirect "/", st)
  end.

(** ** [POST /api/generate] *)

(** Characters are UTF-16 code units below 256; these are the white space
    and line terminators among them, as [String.prototype.trim] knows
    them. *)
Definition js_space (a : Ascii.ascii) : bool :=
  bool_decide (Ascii.nat_of_ascii a ∈ [9; 10; 11; 12; 13; 32; 160]).

Fixpoint trim_start (s : string) : string :=
  match s with
  | String a rest => if js_space a then trim_start rest else s
  | EmptyString => EmptyString
  end.

(** [s.trim()] *)
Definition trim (s : string) : string :=
  String.rev (trim_start (String.rev (trim_start s))).

(** [s.substring(start, end)]: both ends are clamped to the string and
    swapped if out of order; a missing [end] is the length. *)
Definition substring (s : string) (start : Z) (stop : option Z) : string :=
  let chars := String.list_ascii_of_string s in
  let len := Z.of_nat (length chars) in
  let clamp := λ z, Z.to_nat (Z.max 0 (Z.min z len)) in
  let a := clamp start in
  let b := clamp (default len stop) in
  String.string_of_list_ascii (take (Nat.max a b - Nat.min a b) (drop (Nat.min a b) chars)).

(** [keyToUse.substring(0, 10) + "..." + keyToUse.substring(keyToUse.length - 4)],
    the form in which the key is logged. *)
Definition visible (keyToUse : string) : string :=
  substring keyToUse 0 (Some 10%Z) +:+ "..." +:+
  substring keyToUse (Z.of_nat (String.length keyToUse) - 4) None.

(** What the model API does with the request: [create] throws, or it hands
    back a stream, which yields chunks and may break. *)
Inductive stream_event :=
  | Delta (content : option string)    (* chunk.choices[0]?.delta?.content *)
  | Broken (message : string).         (* the iteration throws *)

Inductive upstream :=
  | CreateFails (message : string)
  | Streams (events : list stream_event).

(** The reply of [/api/generate]: a JSON error, or the text written to the
    response before it was ended. *)
Inductive generated :=
  | GenError (status : Z) (error : string)
  | GenText (written : list string).

(** [for await (const chunk of stream) { ... } res.end()] with the [catch]
    of the handler; [written] is what [res.write] has sent so far, and the
    headers are sent once it is not empty. *)
Fixpoint pump (events : list stream_event) (written : list string) : generated :=
  match events with
  | [] => GenText written
  | Delta content :: rest =>
      match truthy content with
      | Some text => pump rest (written ++ [text])
      | None => pump rest written
      end
  | Broken message :: _ =>
      match written with
      | [] => GenError 500 message
      | _ :: _ => GenText written
      end
  end.

(** [apiKey || process.env.ANTHROPIC_OPENROUTER_API_KEY] *)
Definition keyToUse (apiKey envKey : option string) : option string :=
  match truthy apiKey with
  | Some k => Some k
  | None => truthy envKey
  end.

Record generation := Generation {
  logged_key : option string;     (* console.log(`Using API Key: ${visible}`) *)
  client_key : option string;     (* new OpenAI({ apiKey: keyToUse }) *)
  generated_reply : generated
}.

(** [app.post('/api/generate', ...)]; [apiKey] is the field of the body
    when it is a string, [envKey] is
    [process.env.ANTHROPIC_OPENROUTER_API_KEY], and [api] is the behaviour
    of the model API for the request made with the key. *)
Definition post_api_generate (apiKey envKey : option string)
    (api : string → upstream) : generation :=
  match keyToUse apiKey envKey with
  | None => Generation None None (GenError 400 "Missing API Key")
  | Some key =>
      let key := trim key in
      Generation (Some (visible key)) (Some key)
        match api key with
        | CreateFails message => GenError 500 message
        | Streams events => pump events []
        end
  end.

(** What the browser receives as the body of a text reply. *)
Definition body_text (written : list string) : string := String.concat "" written.

(** ** The client: [fetchDefaults] of [app.js] *)

(** The five values that [fetchDefaults] writes. *)
Record defaults := Defaults {
  structureInput : string;
  outputInput : string;
  limitationsInput : string;
  systemPrompt : string;
  knowledgeBase : string
}.

(** [data.<field> || ""] on the parsed body of the response. *)
Definition field_or_empty (data : json) (field : string) : string :=
  match data with
  | JConfig config => default "" (truthy (config !! field ≫= id))
  | _ => ""
  end.

(** [fetchDefaults]: the response is used whatever its status. *)
Definition fetchDefaults (res : response) : defaults :=
  let data := body res in
  Defaults (field_or_empty data "structure") (field_or_empty data "output")
           (field_or_empty data "limitations") (field_or_empty data "systemPrompt")
           (field_or_empty data "knowledge").

(** ** Properties used in the proofs *)

(** A statement keeps the property [P] of the database and never moves the
    sequence backwards. *)
Definition stmt_ok (P : database → Prop) {A}
    (stmt : database → result A * database) : Prop :=
  ∀ d, P d →
    P (stmt d).2 ∧
    (web_skyling_templates_id_seq d ≤ web_skyling_templates_id_seq (stmt d).2)%Z.

(** [P] holds of the database and of the snapshot of an open transaction. *)
Definition world_ok (P : database → Prop) (w : world) : Prop :=
  P (db w) ∧
  match txn w with
  | Some s => P s ∧
      (web_skyling_templates_id_seq s ≤ web_skyling_templates_id_seq (db w))%Z
  | None => True
  end.

Definition preserves (P : database → Prop) {A} (m : js A) : Prop :=
  ∀ w, world_ok P w → world_ok P (m w).2.

(** [a] may come before [b] in a list ordered by [created_at DESC]. *)
Definition newer_first (a b : template_row) : Prop :=
  (row_created_at b ≤ row_created_at a)%Z.

Definition descending (rows : list template_row) : Prop :=
  StronglySorted newer_first rows.

(** Of the oracle entries that [m] takes, a faulty one makes [m] throw. *)
Definition throws_on_fault {A} (m : js A) : Prop :=
  ∀ w, ∃ used,
    faults w = used ++ faults (m w).2 ∧
    (true ∈ used → ∃ e, (m w).1 = Throw e).

(** Of the oracle entries that [m] takes, a faulty one makes [m] answer
    with a response that satisfies [Q]. *)
Definition answers_on_fault (Q : response → Prop) (m : js response) : Prop :=
  ∀ w, ∃ used,
    faults w = used ++ faults (m w).2 ∧
    (true ∈ used → ∃ resp, (m w).1 = Ok resp ∧ Q resp).

(** A text that the store refuses, for the examples: [a], the character
    of code 0, [b]. *)
Definition a_NUL_b : string := "a" +:+ String Ascii.zero "b".

(** A database with two templates, for the examples. *)
Definition two_templates : database :=
  Database []
    [TemplateRow 1 "A" (TemplateData "s" "o" "l") 10;
     TemplateRow 2 "B" (TemplateData "" "" "") 20] 2.

(** * Proofs *)

(** ** Elementary facts about the statements *)

Lemma has_key_true k rows : has_key k rows = true ↔ k ∈ row_key <$> rows.
Proof. unfold has_key. apply bool_decide_eq_true. Qed.

Lemma has_key_false k rows : has_key k rows = false ↔ k ∉ row_key <$> rows.
Proof. unfold has_key. apply bool_decide_eq_false. Qed.

Lemma has_name_true n rows : has_name n rows = true ↔ n ∈ row_name <$> rows.
Proof. unfold has_name. apply bool_decide_eq_true. Qed.

Lemma has_name_false n rows : has_name n rows = false ↔ n ∉ row_name <$> rows.
Proof. unfold has_name. apply bool_decide_eq_false. Qed.

Lemma set_value_key k v r : row_key (set_value k v r) = row_key r.
Proof. unfold set_value. by case_decide. Qed.

Lemma set_data_name n x r : row_name (set_data n x r) = row_name r.
Proof. unfold set_data. by case_decide. Qed.

Lemma set_data_id n x r : row_id (set_data n x r) = row_id r.
Proof. unfold set_data. by case_decide. Qed.

Lemma set_data_created_at n x r : row_created_at (set_data n x r) = row_created_at r.
Proof. unfold set_data. by case_decide. Qed.

Lemma rename_row_id f x o r : row_id (rename_row f x o r) = row_id r.
Proof. unfold rename_row. by case_decide. Qed.

Lemma rename_row_created_at f x o r :
  row_created_at (rename_row f x o r) = row_created_at r.
Proof. unfold rename_row. by case_decide. Qed.

Lemma keys_set_value k v (rows : list config_row) :
  row_key <$> (set_value k v <$> rows) = row_key <$> rows.
Proof. rewrite <- list_fmap_compose. apply list_fmap_ext. intros ? r _. apply set_value_key. Qed.

Lemma names_set_data n x (rows : list template_row) :
  row_name <$> (set_data n x <$> rows) = row_name <$> rows.
Proof. rewrite <- list_fmap_compose. apply list_fmap_ext. intros ? r _. apply set_data_name. Qed.

Lemma ids_set_data n x (rows : list template_row) :
  row_id <$> (set_data n x <$> rows) = row_id <$> rows.
Proof. rewrite <- list_fmap_compose. apply list_fmap_ext. intros ? r _. apply set_data_id. Qed.

Lemma ids_rename_row f x o (rows : list template_row) :
  row_id <$> (rename_row f x o <$> rows) = row_id <$> rows.
Proof. rewrite <- list_fmap_compose. apply list_fmap_ext. intros ? r _. apply rename_row_id. Qed.

(** The rows selected by name are none exactly when the name is not in use. *)
Lemma select_none n (rows : list template_row) :
  length (filter (λ r, row_name r = n) rows) = 0 ↔ n ∉ row_name <$> rows.
Proof.
  rewrite length_zero_iff_nil. induction rows as [|r rows IH]; simpl.
  - split; [intros _; apply not_elem_of_nil | done].
  - rewrite filter_cons, not_elem_of_cons. case_decide as Hr.
    + split; [done | intros [Hne _]; by destruct Hne].
    + rewrite IH. split; [intros ?; split; [congruence | done] | tauto].
Qed.

(** With unique names, selecting by name yields the row that carries it. *)
Lemma select_unique n r (rows : list template_row) :
  NoDup (row_name <$> rows) → r ∈ rows → row_name r = n →
  filter (λ r, row_name r = n) rows = [r].
Proof.
  induction rows as [|r0 rows IH]; simpl; intros Hnd Hin Hn.
  - by apply elem_of_nil in Hin.
  - apply NoDup_cons in Hnd as [Hfresh Hnd]. rewrite filter_cons.
    apply elem_of_cons in Hin as [->|Hin].
    + rewrite decide_True by done. f_equal.
      apply length_zero_iff_nil, select_none. by rewrite <- Hn.
    + rewrite decide_False; [by apply IH |].
      intros Heq. apply Hfresh. rewrite Heq, <- Hn. by apply list_elem_of_fmap_2.
Qed.

(** ** Binding and the sequence *)

Lemma bind_parameters_None ps :
  Forall (λ p, convert p = None) ps → bind_parameters ps = None.
Proof. induction 1 as [|p ps Hp _ IH]; simpl; [done | by rewrite Hp]. Qed.

Lemma convert_text s : text_ok s → convert (TEXT (Some s)) = None.
Proof. intros Hs%Is_true_true. simpl. by rewrite Hs. Qed.

Lemma convert_data x : data_ok x → convert (JSONB (Some x)) = None.
Proof. intros Hx%Is_true_true. simpl. by rewrite Hx. Qed.

Lemma key_ok_text s : key_ok s → text_ok s.
Proof. unfold key_ok. by intros [? _]%andb_True. Qed.

Lemma convert_key s : key_ok s → convert (TEXT (Some s)) = None.
Proof. intros Hs%key_ok_text. by apply convert_text. Qed.

Lemma convert_value v : value_ok v → convert (TEXT v) = None.
Proof. destruct v as [s|]; [apply convert_text | done]. Qed.

Lemma prepared_accepted {A} ps (execute : database → result A * database) d :
  bind_parameters ps = None → prepared ps execute d = execute d.
Proof. intros Hps. unfold prepared. by rewrite Hps. Qed.


(** The parameters at hand are accepted. *)
Ltac accepted :=
  apply bind_parameters_None;
  repeat first
    [ apply Forall_nil_2
    | apply Forall_cons_2;
        [ first [ by apply convert_text | by apply convert_key
                | by apply convert_data | by apply convert_value | done ] | ] ].

Lemma nextval_available d :
  (web_skyling_templates_id_seq d < MAXVALUE)%Z →
  nextval d =
    (Ok (web_skyling_templates_id_seq d + 1)%Z,
     Database (web_skyling_config d) (web_skyling_templates d)
              (web_skyling_templates_id_seq d + 1)).
Proof. intros Hseq. unfold nextval. by rewrite bool_decide_eq_true_2. Qed.

(** A refused statement leaves the database alone. *)
Lemma prepared_ok (P : database → Prop) {A} ps
    (execute : database → result A * database) :
  stmt_ok P execute → stmt_ok P (prepared ps execute).
Proof.
  intros Hex d Hd. unfold prepared.
  destruct (bind_parameters ps); [simpl; split; [done | lia] | by apply Hex].
Qed.

(** ** Invariants are preserved: the general argument

    [P] is a property of the database that survives the undoing of a
    transaction and every statement that changes a relation.  Then it
    survives every handler, under every fault oracle. *)

Section preservation.
Variable P : database → Prop.

Hypothesis P_restore : ∀ s d,
  P s → P d →
  (web_skyling_templates_id_seq s ≤ web_skyling_templates_id_seq d)%Z →
  P (restore (Some s) d).

Hypothesis insert_config_ok : ∀ k v, stmt_ok P (insert_config k v).
Hypothesis upsert_config_ok : ∀ k v, stmt_ok P (upsert_config k v).
Hypothesis upsert_template_ok : ∀ n x now, stmt_ok P (upsert_template n x now).
Hypothesis insert_template_do_nothing_ok :
  ∀ n x now, stmt_ok P (insert_template_do_nothing n x now).
Hypothesis update_template_ok : ∀ f x o, stmt_ok P (update_template f x o).
Hypothesis delete_template_ok : ∀ n, stmt_ok P (delete_template n).

Lemma read_only_ok {A} (f : database → A) : stmt_ok P (λ d, (Ok (f d), d)).
Proof. intros d HP. simpl. split; [done | lia]. Qed.

Lemma preserves_mret {A} (a : A) : preserves P (mret a).
Proof. by intros w Hw. Qed.

Lemma preserves_throw {A} e : preserves P (@throw A e).
Proof. by intros w Hw. Qed.

Lemma preserves_bind {A B} (m : js A) (k : A → js B) :
  preserves P m → (∀ a, preserves P (k a)) → preserves P (m ≫= k).
Proof.
  intros Hm Hk w Hw. specialize (Hm w Hw).
  unfold mbind, js_bind. destruct (m w) as [[a|e] w']; simpl in *.
  - by apply Hk.
  - done.
Qed.

Lemma preserves_try_catch {A} (m : js A) (h : exn → js A) :
  preserves P m → (∀ e, preserves P (h e)) → preserves P (try_catch m h).
Proof.
  intros Hm Hh w Hw. specialize (Hm w Hw).
  unfold try_catch. destruct (m w) as [[a|e] w']; simpl in *.
  - done.
  - by apply Hh.
Qed.

Lemma preserves_query {A} (stmt : database → result A * database) :
  stmt_ok P stmt → preserves P (query stmt).
Proof.
  intros Hs [d t fs] [Hd Ht]. unfold query. simpl in *.
  destruct (next_fault _) as [[] rest]; simpl.
  - by split.
  - destruct (Hs d Hd) as [HP Hle].
    destruct (stmt d) as [r d']; simpl in *. split; [done |].
    destruct t as [s|]; [|done]. destruct Ht. split; [done | simpl; lia].
Qed.

Lemma preserves_connect : preserves P connect.
Proof.
  intros [d t fs] Hw. unfold connect.
  by destruct (next_fault _) as [[] rest].
Qed.

Lemma preserves_BEGIN : preserves P BEGIN.
Proof.
  intros [d t fs] [Hd Ht]. unfold BEGIN. simpl in *.
  destruct (next_fault _) as [[] rest]; simpl; [by split |].
  repeat split; [done.. | simpl; lia].
Qed.

Lemma preserves_COMMIT : preserves P COMMIT.
Proof.
  intros [d t fs] [Hd Ht]. unfold COMMIT. simpl in *.
  by destruct (next_fault _) as [[] rest].
Qed.

Lemma preserves_ROLLBACK : preserves P ROLLBACK.
Proof.
  intros [d t fs] [Hd Ht]. unfold ROLLBACK. simpl in *.
  destruct (next_fault _) as [[] rest]; simpl; [by split |].
  split; [|done]. destruct t as [s|]; [|done].
  destruct Ht. by apply P_restore.
Qed.

Lemma preserves_if {A} (b : bool) (m1 m2 : js A) :
  preserves P m1 → preserves P m2 → preserves P (if b then m1 else m2).
Proof. by destruct b. Qed.

Ltac preserve :=
  repeat first
    [ apply preserves_mret | apply preserves_throw
    | apply preserves_connect | apply preserves_BEGIN
    | apply preserves_COMMIT | apply preserves_ROLLBACK
    | apply preserves_query; first
        [ apply insert_config_ok | apply upsert_config_ok
        | apply upsert_template_ok | apply insert_template_do_nothing_ok
        | apply update_template_ok | apply delete_template_ok
        | apply @read_only_ok
        | apply prepared_ok, @read_only_ok ]
    | apply preserves_try_catch; [|intros ?]
    | apply preserves_bind; [|intros ?]
    | apply preserves_if
    | case_match ].

Lemma preserves_handle r now : preserves P (handle r now).
Proof.
  destruct r; simpl;
    unfold get_api_defaults, put_api_config, get_api_templates,
      post_api_templates, put_api_templates, delete_api_templates;
    preserve.
Qed.

Lemma preserves_seed_config entries : preserves P (seed_config entries).
Proof. induction entries as [|[k v] rest IH]; simpl; preserve. apply IH. Qed.

Lemma preserves_seed_from_files rags pdf : preserves P (seed_from_files rags pdf).
Proof.
  unfold seed_from_files.
  destruct (load_seedData rags pdf); [apply preserves_seed_config | apply preserves_throw].
Qed.

Lemma preserves_migrate_templates ts now i : preserves P (migrate_templates ts now i).
Proof.
  revert i. induction ts as [|[n x] rest IH]; intros i; simpl; preserve. apply IH.
Qed.

Lemma preserves_initDB rags pdf ts now : preserves P (initDB rags pdf ts now).
Proof.
  unfold initDB. preserve;
    first [apply preserves_seed_from_files | apply preserves_migrate_templates].
Qed.

Lemma run_preserves {A} (m : js A) fs d : preserves P m → P d → P (run m fs d).2.
Proof.
  intros Hm Hd. unfold run.
  destruct (Hm (World d None fs)) as [Hdb Ht]; [by split |].
  destruct (m _) as [r [d' t fs']]; simpl in *.
  destruct t as [s|]; [|done]. destruct Ht. by apply P_restore.
Qed.

Lemma reachable_preserves d : P empty_database → reachable d → P d.
Proof.
  intros H0. induction 1 as [|d rags pdf ts now fs _ IH|d r now fs _ IH].
  - done.
  - apply run_preserves; [apply preserves_initDB | done].
  - apply run_preserves; [apply preserves_handle | done].
Qed.
End preservation.

(** ** Uniqueness of keys and names *)

Lemma unique_entries_restore s d :
  unique_entries s → unique_entries d →
  (web_skyling_templates_id_seq s ≤ web_skyling_templates_id_seq d)%Z →
  unique_entries (restore (Some s) d).
Proof. by intros Hs _ _. Qed.

Lemma insert_config_unique k v : stmt_ok unique_entries (insert_config k v).
Proof.
  apply prepared_ok. intros d [Hk Hn]. cbn beta.
  destruct (has_key k _) eqn:Hhas; simpl; (split; [|lia]); [by split |].
  split; [|done]. simpl. rewrite fmap_app. simpl.
  apply NoDup_app. split_and!; [done | | apply NoDup_singleton].
  intros k' Hin ->%list_elem_of_singleton. by apply has_key_false in Hhas.
Qed.

Lemma upsert_config_keys_unique k v d :
  NoDup (row_key <$> web_skyling_config d) →
  NoDup (row_key <$> web_skyling_config (upsert_config k v d).2).
Proof.
  intros Hk. unfold upsert_config, prepared.
  destruct (bind_parameters _); [done|].
  destruct (has_key k _) eqn:Hhas; simpl.
  - by rewrite keys_set_value.
  - rewrite fmap_app. simpl.
    apply NoDup_app. split_and!; [done | | apply NoDup_singleton].
    intros k' Hin ->%list_elem_of_singleton. by apply has_key_false in Hhas.
Qed.

Lemma upsert_config_unique k v : stmt_ok unique_entries (upsert_config k v).
Proof.
  intros d [Hk Hn]. split.
  - split; [by apply upsert_config_keys_unique|].
    unfold upsert_config, prepared. destruct (bind_parameters _); [done|].
    by destruct (has_key k _).
  - unfold upsert_config, prepared. destruct (bind_parameters _); [simpl; lia|].
    destruct (has_key k _); simpl; lia.
Qed.

Lemma names_snoc_unique n (rows : list template_row) r :
  NoDup (row_name <$> rows) → n ∉ row_name <$> rows → row_name r = n →
  NoDup (row_name <$> rows ++ [r]).
Proof.
  intros Hnd Hfresh Hr. rewrite fmap_app. simpl.
  apply NoDup_app. split_and!; [done | | apply NoDup_singleton].
  intros n' Hin ->%list_elem_of_singleton. by rewrite Hr in Hin.
Qed.

Lemma upsert_template_unique n x now : stmt_ok unique_entries (upsert_template n x now).
Proof.
  apply prepared_ok. intros d [Hk Hn]. unfold nextval, with_templates.
  case_bool_decide; [|simpl; split; [by split | lia]]. simpl.
  destruct x as [x|]; [|simpl; split; [by split | lia]].
  destruct (has_name n _) eqn:Hhas; simpl; (split; [|lia]); (split; [done|]); simpl.
  - by rewrite names_set_data.
  - apply names_snoc_unique with n; [done | by apply has_name_false | done].
Qed.

Lemma insert_template_do_nothing_unique n x now :
  stmt_ok unique_entries (insert_template_do_nothing n x now).
Proof.
  apply prepared_ok. intros d [Hk Hn]. unfold nextval, with_templates.
  case_bool_decide; [|simpl; split; [by split | lia]]. simpl.
  destruct n as [n|], x as [x|]; try (simpl; split; [by split | lia]).
  destruct (has_name n _) eqn:Hhas; simpl; (split; [|lia]); (split; [done|]); simpl.
  - done.
  - apply names_snoc_unique with n; [done | by apply has_name_false | done].
Qed.

Lemma update_template_unique f x o : stmt_ok unique_entries (update_template f x o).
Proof.
  apply prepared_ok. intros d [Hk Hn]. unfold with_templates.
  destruct (has_name o _); [|simpl; split; [by split | lia]].
  destruct x as [x|]; [|simpl; split; [by split | lia]].
  case_bool_decide as Hnd; simpl; (split; [|lia]); by split.
Qed.

Lemma delete_template_unique n : stmt_ok unique_entries (delete_template n).
Proof.
  apply prepared_ok. intros d [Hk Hn]. unfold with_templates. simpl.
  split; [|lia]. split; [done|]. simpl.
  eapply sublist_NoDup; [exact Hn|]. apply fmap_sublist, sublist_filter.
Qed.

(** Every request and every start-up keeps keys and names unique, whatever
    the arguments and whichever round trips fail. *)
Lemma handle_unique_entries r now fs d :
  unique_entries d → unique_entries (run (handle r now) fs d).2.
Proof.
  intros Hd. apply run_preserves; [apply unique_entries_restore | | done].
  apply preserves_handle;
    auto using unique_entries_restore, insert_config_unique, upsert_config_unique,
      upsert_template_unique, insert_template_do_nothing_unique,
      update_template_unique, delete_template_unique.
Qed.

Lemma empty_unique_entries : unique_entries empty_database.
Proof. split; apply NoDup_nil_2. Qed.

Lemma reachable_unique_entries d : reachable d → unique_entries d.
Proof.
  apply reachable_preserves;
    auto using unique_entries_restore, insert_config_unique, upsert_config_unique,
      upsert_template_unique, insert_template_do_nothing_unique,
      update_template_unique, delete_template_unique, empty_unique_entries.
Qed.

(** ** Ids come from the sequence *)

Lemma ids_issued_restore s d :
  ids_issued s → ids_issued d →
  (web_skyling_templates_id_seq s ≤ web_skyling_templates_id_seq d)%Z →
  ids_issued (restore (Some s) d).
Proof.
  intros [Hnd Hle] _ Hseq. split; [done|]. simpl.
  eapply Forall_impl; [exact Hle|]. simpl. intros r ?. lia.
Qed.

Lemma ids_issued_seq d rows i :
  NoDup (row_id <$> rows) →
  Forall (λ r, row_id r ≤ web_skyling_templates_id_seq d)%Z rows →
  (web_skyling_templates_id_seq d ≤ i)%Z →
  ids_issued (Database (web_skyling_config d) rows i).
Proof.
  intros Hnd Hle Hi. split; [done|]. simpl.
  eapply Forall_impl; [exact Hle|]. simpl. intros r ?. lia.
Qed.

Lemma ids_snoc_issued d n x now :
  ids_issued d →
  ids_issued (Database (web_skyling_config d)
    (web_skyling_templates d ++
       [TemplateRow (web_skyling_templates_id_seq d + 1) n x now])
    (web_skyling_templates_id_seq d + 1)).
Proof.
  intros [Hnd Hle]. split; simpl.
  - rewrite fmap_app. simpl. apply NoDup_app. split_and!; [done | | apply NoDup_singleton].
    intros i Hin ->%list_elem_of_singleton.
    apply list_elem_of_fmap in Hin as (r & Hi & Hr).
    rewrite Forall_forall in Hle. specialize (Hle r Hr). simpl in Hle. lia.
  - apply Forall_app. split.
    + eapply Forall_impl; [exact Hle|]. simpl. intros r ?. lia.
    + apply Forall_singleton. simpl. lia.
Qed.

Lemma insert_config_ids k v : stmt_ok ids_issued (insert_config k v).
Proof.
  apply prepared_ok. intros d Hd. cbn beta.
  destruct (has_key k _); simpl; (split; [|lia]); [done|]. by destruct Hd.
Qed.

Lemma upsert_config_ids k v : stmt_ok ids_issued (upsert_config k v).
Proof.
  apply prepared_ok. intros d Hd. cbn beta.
  destruct (has_key k _); simpl; (split; [|lia]); by destruct Hd.
Qed.

Lemma upsert_template_ids n x now : stmt_ok ids_issued (upsert_template n x now).
Proof.
  apply prepared_ok. intros d Hd. unfold nextval, with_templates.
  case_bool_decide; [|simpl; split; [done | lia]]. simpl.
  destruct x as [x|]; simpl.
  - destruct (has_name n _) eqn:Hhas; simpl; (split; [|lia]).
    + destruct Hd as [Hnd Hle]. split; simpl.
      * by rewrite ids_set_data.
      * apply Forall_fmap. eapply Forall_impl; [exact Hle|].
        simpl. intros r ?. rewrite set_data_id. lia.
    + by apply ids_snoc_issued.
  - split; [|lia]. destruct Hd. apply ids_issued_seq; [done.. | lia].
Qed.

Lemma insert_template_do_nothing_ids n x now :
  stmt_ok ids_issued (insert_template_do_nothing n x now).
Proof.
  apply prepared_ok. intros d Hd. unfold nextval, with_templates.
  case_bool_decide; [|simpl; split; [done | lia]]. simpl.
  assert (ids_issued (Database (web_skyling_config d) (web_skyling_templates d)
            (web_skyling_templates_id_seq d + 1))) as Hbump.
  { destruct Hd. apply ids_issued_seq; [done.. | lia]. }
  destruct n as [n|], x as [x|]; simpl; try (split; [done | lia]).
  destruct (has_name n _) eqn:Hhas; simpl; (split; [|lia]); [done|].
  by apply ids_snoc_issued.
Qed.

Lemma update_template_ids f x o : stmt_ok ids_issued (update_template f x o).
Proof.
  apply prepared_ok. intros d Hd. unfold with_templates.
  destruct (has_name o _); [|simpl; split; [done | lia]].
  destruct x as [x|]; [|simpl; split; [done | lia]].
  case_bool_decide as Hnd; simpl; (split; [|lia]); [|done].
  destruct Hd as [Hid Hle]. split; simpl.
  - by rewrite ids_rename_row.
  - apply Forall_fmap. eapply Forall_impl; [exact Hle|].
    simpl. intros r ?. by rewrite rename_row_id.
Qed.

Lemma delete_template_ids n : stmt_ok ids_issued (delete_template n).
Proof.
  apply prepared_ok. intros d [Hnd Hle]. unfold with_templates. simpl.
  split; [|lia]. split; simpl.
  - eapply sublist_NoDup; [exact Hnd|]. apply fmap_sublist, sublist_filter.
  - apply Forall_forall. intros r [_ Hr]%list_elem_of_filter.
    rewrite Forall_forall in Hle. by apply Hle.
Qed.

Lemma handle_ids_issued r now fs d :
  ids_issued d → ids_issued (run (handle r now) fs d).2.
Proof.
  intros Hd. apply run_preserves; [apply ids_issued_restore | | done].
  apply preserves_handle;
    auto using ids_issued_restore, insert_config_ids, upsert_config_ids,
      upsert_template_ids, insert_template_do_nothing_ids,
      update_template_ids, delete_template_ids.
Qed.

Lemma empty_ids_issued : ids_issued empty_database.
Proof. split; [apply NoDup_nil_2 | apply Forall_nil_2]. Qed.

Lemma reachable_ids_issued d : reachable d → ids_issued d.
Proof.
  apply reachable_preserves;
    auto using ids_issued_restore, insert_config_ids, upsert_config_ids,
      upsert_template_ids, insert_template_do_nothing_ids,
      update_template_ids, delete_template_ids, empty_ids_issued.
Qed.

Lemma reachable_consistent d : reachable d → consistent d.
Proof. split; [by apply reachable_unique_entries | by apply reachable_ids_issued]. Qed.

(** ** What each operation does while the store is available *)

Lemma truthy_Some s : s ≠ "" → truthy (Some s) = Some s.
Proof. intros Hs. unfold truthy. by rewrite decide_False. Qed.

Lemma truthy_None_iff v : truthy v = None ↔ v = None ∨ v = Some "".
Proof.
  destruct v as [s|]; simpl.
  - case_decide as Hs; [subst; split; [by right | done] |].
    split; [done | intros [|]; congruence].
  - split; [by left | done].
Qed.

Lemma truthy_nonempty v s : truthy v = Some s → v = Some s ∧ s ≠ "".
Proof. destruct v as [s'|]; simpl; [|done]. case_decide; naive_solver. Qed.

Lemma restore_same d : restore (Some d) d = d.
Proof. by destruct d. Qed.

(** The statements whose parameters are accepted. *)

Lemma upsert_config_accepted k v d :
  text_ok k → value_ok v →
  upsert_config k v d =
    (Ok (),
     Database (if has_key k (web_skyling_config d)
               then set_value k v <$> web_skyling_config d
               else web_skyling_config d ++ [ConfigRow k v])
              (web_skyling_templates d) (web_skyling_templates_id_seq d)).
Proof.
  intros Hk Hv. unfold upsert_config. rewrite prepared_accepted by accepted.
  by destruct (has_key k _).
Qed.

Lemma insert_config_accepted k v d :
  text_ok k → value_ok v → k ∉ row_key <$> web_skyling_config d →
  insert_config k v d =
    (Ok (), Database (web_skyling_config d ++ [ConfigRow k v])
                     (web_skyling_templates d) (web_skyling_templates_id_seq d)).
Proof.
  intros Hk Hv Hfresh%has_key_false. unfold insert_config.
  rewrite prepared_accepted by accepted. by rewrite Hfresh.
Qed.

Lemma upsert_template_accepted n x now d :
  text_ok n → data_ok x → (web_skyling_templates_id_seq d < MAXVALUE)%Z →
  upsert_template n (Some x) now d =
    (Ok (),
     Database (web_skyling_config d)
       (if has_name n (web_skyling_templates d)
        then set_data n x <$> web_skyling_templates d
        else web_skyling_templates d ++
               [TemplateRow (web_skyling_templates_id_seq d + 1) n x now])
       (web_skyling_templates_id_seq d + 1)).
Proof.
  intros Hn Hx Hseq. unfold upsert_template. rewrite prepared_accepted by accepted.
  rewrite nextval_available by done. unfold with_templates. simpl.
  by destruct (has_name n _).
Qed.

Lemma insert_template_do_nothing_accepted n x now d :
  text_ok n → data_ok x → (web_skyling_templates_id_seq d < MAXVALUE)%Z →
  insert_template_do_nothing (Some n) (Some x) now d =
    (Ok (),
     Database (web_skyling_config d)
       (if has_name n (web_skyling_templates d)
        then web_skyling_templates d
        else web_skyling_templates d ++
               [TemplateRow (web_skyling_templates_id_seq d + 1) n x now])
       (web_skyling_templates_id_seq d + 1)).
Proof.
  intros Hn Hx Hseq. unfold insert_template_do_nothing.
  rewrite prepared_accepted by accepted.
  rewrite nextval_available by done. unfold with_templates. simpl.
  by destruct (has_name n _).
Qed.

Lemma select_template_accepted n d :
  text_ok n →
  select_template n d = (Ok (filter (λ r, row_name r = n) (web_skyling_templates d)), d).
Proof. intros Hn. unfold select_template. by rewrite prepared_accepted by accepted. Qed.

Lemma delete_template_accepted n d :
  text_ok n →
  delete_template n d =
    (Ok (), with_templates d (filter (λ r, row_name r ≠ n) (web_skyling_templates d))).
Proof. intros Hn. unfold delete_template. by rewrite prepared_accepted by accepted. Qed.

Lemma update_template_accepted finalName x oldName d :
  text_ok finalName → data_ok x → text_ok oldName →
  oldName ∈ row_name <$> web_skyling_templates d →
  NoDup (row_name <$> (rename_row finalName x oldName <$> web_skyling_templates d)) →
  update_template finalName (Some x) oldName d =
    (Ok (), with_templates d (rename_row finalName x oldName <$> web_skyling_templates d)).
Proof.
  intros Hf Hx Ho Hold%has_name_true Hnd. unfold update_template.
  rewrite prepared_accepted by accepted. rewrite Hold.
  by rewrite bool_decide_eq_true_2.
Qed.


Lemma GetConfig_available d :
  GetConfig [] d =
    (Ok (Response 200 (JConfig (own (rows_to_object (web_skyling_config d))))), d).
Proof. reflexivity. Qed.

Lemma SetConfig_available k v d :
  k ≠ "" → text_ok k → value_ok v →
  SetConfig (Some k) v [] d =
    (Ok (Response 200 (JConfigSet k v)), (upsert_config k v d).2).
Proof.
  intros Hk Hkok Hv. unfold SetConfig, run, handle, put_api_config.
  rewrite truthy_Some by done.
  unfold try_catch, mbind, js_bind, query. simpl.
  by rewrite upsert_config_accepted.
Qed.

Lemma List_available d :
  List [] d =
    (Ok (Response 200 (JRows (order_by_created_at_desc (web_skyling_templates d)))), d).
Proof. reflexivity. Qed.

Lemma Upsert_available n x now d :
  n ≠ "" → text_ok n → data_ok x → (web_skyling_templates_id_seq d < MAXVALUE)%Z →
  Upsert (Some n) (Some x) now [] d =
    (Ok (Response 200 (JTemplates (order_by_created_at_desc
           (web_skyling_templates (upsert_template n (Some x) now d).2)))),
     (upsert_template n (Some x) now d).2).
Proof.
  intros Hn Hnok Hx Hseq. unfold Upsert, run, handle, post_api_templates.
  rewrite truthy_Some by done.
  unfold try_catch, mbind, js_bind, query. simpl.
  by rewrite upsert_template_accepted.
Qed.

Lemma Delete_available n d :
  text_ok n →
  Delete n [] d =
    (Ok (Response 200 (JTemplates (order_by_created_at_desc
           (web_skyling_templates (delete_template n d).2)))),
     (delete_template n d).2).
Proof.
  intros Hn. unfold Delete, run, handle, delete_api_templates.
  unfold try_catch, mbind, js_bind, query. simpl.
  by rewrite delete_template_accepted.
Qed.

Lemma Rename_not_found oldName newName data d :
  text_ok oldName →
  oldName ∉ row_name <$> web_skyling_templates d →
  Rename oldName newName data [] d = (Ok NotFound, d).
Proof.
  intros Hok Hold%select_none. unfold Rename, run, handle, put_api_templates.
  unfold try_catch, mbind, js_bind, connect, BEGIN, query. simpl.
  rewrite select_template_accepted by done.
  rewrite bool_decide_eq_true_2 by done. by destruct d.
Qed.

Lemma Rename_collision oldName newName n data d :
  text_ok oldName → text_ok n →
  oldName ∈ row_name <$> web_skyling_templates d →
  truthy newName = Some n → n ≠ oldName →
  n ∈ row_name <$> web_skyling_templates d →
  Rename oldName newName data [] d = (Ok NameCollision, d).
Proof.
  intros Hok Hnok Hold Hnew Hne Hn. unfold Rename, run, handle, put_api_templates.
  unfold try_catch, mbind, js_bind, connect, BEGIN, query. simpl.
  rewrite select_template_accepted by done.
  rewrite bool_decide_eq_false_2 by (by rewrite select_none; intros []).
  rewrite Hnew. rewrite (bool_decide_eq_true_2 (n ≠ oldName)) by done. simpl.
  rewrite select_template_accepted by done.
  rewrite bool_decide_eq_true_2.
  - by destruct d.
  - destruct (decide (length (filter (λ r, row_name r = n) (web_skyling_templates d)) = 0))
      as [Hz%select_none|]; [done | lia].
Qed.

(** The new names of a rename that passed the collision check are unique. *)
Lemma rename_names_unique finalName x oldName (rows : list template_row) :
  NoDup (row_name <$> rows) →
  (finalName = oldName ∨ finalName ∉ row_name <$> rows) →
  NoDup (row_name <$> (rename_row finalName x oldName <$> rows)).
Proof.
  intros Hnd [->|Hfresh].
  - erewrite <- list_fmap_compose, list_fmap_ext; [exact Hnd|].
    intros ? r _. simpl. unfold rename_row. by case_decide.
  - induction rows as [|r rows IH]; [apply NoDup_nil_2|].
    rewrite fmap_cons in Hnd, Hfresh. rewrite !fmap_cons.
    apply NoDup_cons in Hnd as [Hr Hnd].
    apply not_elem_of_cons in Hfresh as [Hne Hfresh].
    apply NoDup_cons. split; [|by apply IH].
    intros Hin. apply list_elem_of_fmap in Hin as (r' & Heq & Hr').
    apply list_elem_of_fmap in Hr' as (r0 & -> & Hr0).
    assert (row_name r0 ∈ row_name <$> rows) as Hin0 by by apply list_elem_of_fmap_2.
    unfold rename_row in Heq.
    destruct (decide (row_name r = oldName)), (decide (row_name r0 = oldName));
      simpl in Heq.
      all: first [ apply Hr; congruence | apply Hfresh; congruence | congruence ].
Qed.

Lemma Rename_applies oldName newName x d :
  text_ok oldName → text_ok (default oldName (truthy newName)) → data_ok x →
  NoDup (row_name <$> web_skyling_templates d) →
  oldName ∈ row_name <$> web_skyling_templates d →
  (∀ n, truthy newName = Some n → n ≠ oldName →
        n ∉ row_name <$> web_skyling_templates d) →
  let rows := rename_row (default oldName (truthy newName)) x oldName
                <$> web_skyling_templates d in
  Rename oldName newName (Some x) [] d =
    (Ok (Response 200 (JTemplates (order_by_created_at_desc rows))),
     with_templates d rows).
Proof.
  intros Hok Hfok Hx Hnd Hold Hfree rows.
  assert (NoDup (row_name <$> rows)) as Hnd'.
  { apply rename_names_unique; [done|].
    destruct (truthy newName) as [n|] eqn:Hnew; simpl; [|by left].
    destruct (decide (n = oldName)); [by left | right; by apply Hfree]. }
  pose proof (update_template_accepted _ x oldName d Hfok Hx Hok Hold Hnd') as Hup.
  fold rows in Hup.
  unfold Rename, run, handle, put_api_templates.
  unfold try_catch, mbind, js_bind, connect, BEGIN, query. simpl.
  rewrite select_template_accepted by done.
  rewrite bool_decide_eq_false_2 by (by rewrite select_none; intros []).
  destruct (truthy newName) as [n|] eqn:Hnew; simpl in *.
  - case_bool_decide as Hne; simpl.
    + rewrite select_template_accepted by done.
      rewrite bool_decide_eq_false_2.
      2:{ specialize (Hfree n eq_refl Hne). apply select_none in Hfree. lia. }
      unfold COMMIT. simpl. by rewrite Hup.
    + unfold COMMIT. simpl. by rewrite Hup.
  - unfold COMMIT. simpl. by rewrite Hup.
Qed.

(** ** The order of the returned lists *)

Lemma insert_desc_Permutation r rows : insert_desc r rows ≡ₚ r :: rows.
Proof.
  induction rows as [|x rows IH]; simpl; [done|].
  case_bool_decide; [done|]. rewrite IH. apply Permutation_swap.
Qed.

Lemma order_by_Permutation rows : order_by_created_at_desc rows ≡ₚ rows.
Proof.
  induction rows as [|r rows IH]; simpl; [done|].
  by rewrite insert_desc_Permutation, IH.
Qed.

Lemma insert_desc_descending r rows : descending rows → descending (insert_desc r rows).
Proof.
  unfold descending. induction 1 as [|x rows Hs IH Hx]; simpl.
  - repeat constructor.
  - case_bool_decide as Hle.
    + constructor; [by constructor|]. constructor; [done|].
      eapply Forall_impl; [exact Hx|]. unfold newer_first. simpl. intros y ?. lia.
    + constructor; [done|]. rewrite insert_desc_Permutation.
      constructor; [unfold newer_first; lia | done].
Qed.

Lemma order_by_descending rows : descending (order_by_created_at_desc rows).
Proof.
  induction rows as [|r rows IH]; simpl; [constructor|].
  by apply insert_desc_descending.
Qed.

(** With pairwise distinct timestamps there is one descending arrangement
    only, so the result does not depend on how ties would be broken. *)
Lemma order_by_distinct rows sorted :
  NoDup (row_created_at <$> rows) →
  sorted ≡ₚ rows → descending sorted →
  order_by_created_at_desc rows = sorted.
Proof.
  intros Hnd Hperm Hsorted.
  apply (StronglySorted_unique_strong newer_first);
    [| apply order_by_descending | done | by rewrite order_by_Permutation].
  intros a b Ha Hb Hab Hba. unfold newer_first in *.
  rewrite order_by_Permutation in Ha. rewrite Hperm in Hb.
  assert (row_created_at a = row_created_at b) as Heq by lia.
  clear Hab Hba Hperm Hsorted.
  induction rows as [|r rows IH]; [by apply elem_of_nil in Ha|].
  rewrite fmap_cons in Hnd. apply NoDup_cons in Hnd as [Hr Hnd].
  apply elem_of_cons in Ha as [->|Ha], Hb as [->|Hb]; [done | | | by apply IH].
  - destruct Hr. rewrite Heq. by apply list_elem_of_fmap_2.
  - destruct Hr. rewrite <- Heq. by apply list_elem_of_fmap_2.
Qed.

(** Evaluation of decidable side conditions on concrete data. *)
Ltac by_evaluation :=
  lazymatch goal with
  | |- ?P => refine (@bool_decide_unpack P _ _); vm_compute; exact I
  end.

(** * The claims *)

(** ** Rename: failures *)

(** C1. For an [oldName] that the store takes as a text (one without the
    character of code 0), [Rename oldName newName data] answers [NotFound]
    when no template is named [oldName]; otherwise, when [newName] is given
    (non-empty), differs from [oldName] and names an existing template, it
    answers [NameCollision].  In both cases the database after the call is
    the database before it, so every template keeps its name, data and
    creation time. *)
Theorem Rename_fails_without_mutation oldName newName data d :
  text_ok oldName →
  (oldName ∉ row_name <$> web_skyling_templates d →
     Rename oldName newName data [] d = (Ok NotFound, d)) ∧
  (oldName ∈ row_name <$> web_skyling_templates d →
   ∀ n, newName = Some n → n ≠ "" → n ≠ oldName → text_ok n →
        n ∈ row_name <$> web_skyling_templates d →
     Rename oldName newName data [] d = (Ok NameCollision, d)).
Proof.
  intros Hok. split.
  - by apply Rename_not_found.
  - intros Hold n -> Hn Hne Hnok Hin.
    apply Rename_collision with n; [done | done | done | by apply truthy_Some | done..].
Qed.

Lemma Rename_fails_without_mutation_witness :
  Rename "C" (Some "B") None [] two_templates = (Ok NotFound, two_templates) ∧
  Rename "A" (Some "B") (Some (TemplateData "x" "y" "z")) [] two_templates
    = (Ok NameCollision, two_templates).
Proof.
  split.
  - apply (Rename_fails_without_mutation "C" (Some "B") None two_templates);
      by_evaluation.
  - apply (Rename_fails_without_mutation "A" (Some "B")
             (Some (TemplateData "x" "y" "z")) two_templates) with "B";
      first [reflexivity | by_evaluation].
Defined.

(** ** Rename: success *)

(** C2. In a database with unique names (every reachable one, by
    [reachable_unique_entries]), when a template [r] is named [oldName], the
    new name collides with nothing, the store takes the names and the data
    (no character of code 0, a new name that fits the index) and the store
    is available, [Rename oldName newName x] succeeds:
    the row of [r] now carries [newName] if that is non-empty and [oldName]
    if it is empty or omitted, its data is [x], its creation time (and id)
    is the one it had, every other row is as before, and the response is
    the whole updated relation, newest first. *)
Theorem Rename_updates_in_place oldName newName x d r :
  NoDup (row_name <$> web_skyling_templates d) →
  r ∈ web_skyling_templates d → row_name r = oldName →
  (∀ n, newName = Some n → n ≠ "" → n ≠ oldName →
        n ∉ row_name <$> web_skyling_templates d) →
  text_ok oldName → (∀ n, newName = Some n → key_ok n) → data_ok x →
  let finalName :=
    match newName with
    | Some n => if decide (n = "") then oldName else n
    | None => oldName
    end in
  ∃ rows d',
    Rename oldName newName (Some x) [] d = (Ok (Response 200 (JTemplates rows)), d') ∧
    TemplateRow (row_id r) finalName x (row_created_at r) ∈ web_skyling_templates d' ∧
    NoDup (row_name <$> web_skyling_templates d') ∧
    (∀ r', r' ∈ web_skyling_templates d → row_name r' ≠ oldName →
           r' ∈ web_skyling_templates d') ∧
    length (web_skyling_templates d') = length (web_skyling_templates d) ∧
    web_skyling_config d' = web_skyling_config d ∧
    rows ≡ₚ web_skyling_templates d' ∧ descending rows.
Proof.
  intros Hnd Hr Hname Hfree Hok Hkey Hx finalName.
  assert (finalName = default oldName (truthy newName)) as Hfinal.
  { unfold finalName. destruct newName as [n|]; simpl; [|done]. by case_decide. }
  assert (text_ok finalName) as Hfok.
  { unfold finalName. destruct newName as [n|]; [|done].
    case_decide; [done | by apply key_ok_text, Hkey]. }
  assert (oldName ∈ row_name <$> web_skyling_templates d) as Hold.
  { rewrite <- Hname. by apply list_elem_of_fmap_2. }
  assert (∀ n, truthy newName = Some n → n ≠ oldName →
               n ∉ row_name <$> web_skyling_templates d) as Hfree'.
  { intros n [-> Hn]%truthy_nonempty Hne. by apply Hfree. }
  rewrite Hfinal in Hfok.
  pose proof (Rename_applies oldName newName x d Hok Hfok Hx Hnd Hold Hfree') as Hrun.
  simpl in Hrun. rewrite <- Hfinal in Hrun.
  eexists _, _. split; [exact Hrun|]. simpl.
  split_and!.
  - apply list_elem_of_fmap. exists r. split; [|done].
    unfold rename_row. by rewrite decide_True.
  - apply rename_names_unique; [done|].
    rewrite Hfinal. destruct (truthy newName) as [n|] eqn:Hnew; simpl; [|by left].
    destruct (decide (n = oldName)); [by left | right; by apply Hfree'].
  - intros r' Hr' Hne. apply list_elem_of_fmap. exists r'. split; [|done].
    unfold rename_row. by rewrite decide_False.
  - by rewrite length_fmap.
  - done.
  - apply order_by_Permutation.
  - apply order_by_descending.
Qed.

Lemma Rename_updates_in_place_witness :
  ∃ rows d',
    Rename "A" (Some "C") (Some (TemplateData "x" "y" "z")) [] two_templates
      = (Ok (Response 200 (JTemplates rows)), d') ∧
    TemplateRow 1 "C" (TemplateData "x" "y" "z") 10 ∈ web_skyling_templates d'.
Proof.
  destruct (Rename_updates_in_place "A" (Some "C") (TemplateData "x" "y" "z")
              two_templates (TemplateRow 1 "A" (TemplateData "s" "o" "l") 10))
    as (rows & d' & Hrun & Hrow & _).
  - by_evaluation.
  - by_evaluation.
  - reflexivity.
  - intros n [= <-] _ _. by_evaluation.
  - by_evaluation.
  - intros n [= <-]. by_evaluation.
  - by_evaluation.
  - exists rows, d'. split; [exact Hrun | exact Hrow].
Defined.

(** ** Upsert *)

Lemma upsert_template_absent n x now d :
  text_ok n → data_ok x → (web_skyling_templates_id_seq d < MAXVALUE)%Z →
  n ∉ row_name <$> web_skyling_templates d →
  (upsert_template n (Some x) now d).2 =
    Database (web_skyling_config d)
      (web_skyling_templates d ++
         [TemplateRow (web_skyling_templates_id_seq d + 1) n x now])
      (web_skyling_templates_id_seq d + 1).
Proof.
  intros Hok Hx Hseq Hn%has_name_false.
  rewrite upsert_template_accepted by done. simpl. by rewrite Hn.
Qed.

Lemma upsert_template_present n x now d :
  text_ok n → data_ok x → (web_skyling_templates_id_seq d < MAXVALUE)%Z →
  n ∈ row_name <$> web_skyling_templates d →
  (upsert_template n (Some x) now d).2 =
    Database (web_skyling_config d)
      (set_data n x <$> web_skyling_templates d)
      (web_skyling_templates_id_seq d + 1).
Proof.
  intros Hok Hx Hseq Hn%has_name_true.
  rewrite upsert_template_accepted by done. simpl. by rewrite Hn.
Qed.

Lemma set_data_hit n x r :
  row_name r = n → set_data n x r = TemplateRow (row_id r) n x (row_created_at r).
Proof. intros Hr. unfold set_data. rewrite decide_True by done. by rewrite Hr. Qed.

Lemma select_set_data n x r (rows : list template_row) :
  NoDup (row_name <$> rows) → r ∈ rows → row_name r = n →
  filter (λ r, row_name r = n) (set_data n x <$> rows) =
    [TemplateRow (row_id r) n x (row_created_at r)].
Proof.
  intros Hnd Hr Hn. rewrite <- (set_data_hit n x r Hn).
  apply select_unique.
  - by rewrite names_set_data.
  - by apply list_elem_of_fmap_2.
  - by rewrite set_data_name.
Qed.

Lemma select_snoc n r (rows : list template_row) :
  n ∉ row_name <$> rows → row_name r = n →
  filter (λ r, row_name r = n) (rows ++ [r]) = [r].
Proof.
  intros Hn%select_none%length_zero_iff_nil Hr.
  rewrite filter_app, Hn, filter_cons, decide_True by done. done.
Qed.



(** ** Uniqueness as an invariant *)

(** C4. Each of the six operations, with any arguments, at any time and
    under any fault oracle, takes a database with at most one template per
    name and one config entry per key to another such database; and every
    reachable database is one. *)
Theorem operations_keep_entries_unique :
  (∀ r now fs d, unique_entries d → unique_entries (run (handle r now) fs d).2) ∧
  (∀ fs d, unique_entries d → unique_entries (List fs d).2) ∧
  (∀ name data now fs d, unique_entries d → unique_entries (Upsert name data now fs d).2) ∧
  (∀ oldName newName data fs d,
     unique_entries d → unique_entries (Rename oldName newName data fs d).2) ∧
  (∀ name fs d, unique_entries d → unique_entries (Delete name fs d).2) ∧
  (∀ fs d, unique_entries d → unique_entries (GetConfig fs d).2) ∧
  (∀ key value fs d, unique_entries d → unique_entries (SetConfig key value fs d).2) ∧
  (∀ d, reachable d → unique_entries d).
Proof.
  split_and!; intros; first [by apply handle_unique_entries | by apply reachable_unique_entries].
Qed.

Lemma operations_keep_entries_unique_witness :
  unique_entries (Rename "A" (Some "B") (Some (TemplateData "x" "y" "z")) [false; true]
                    two_templates).2 ∧
  unique_entries (Upsert (Some "A") (Some (TemplateData "x" "y" "z")) 30 []
                    (SetConfig (Some "systemPrompt") (Some "X") [] empty_database).2).2.
Proof.
  destruct operations_keep_entries_unique as (_ & _ & Hupsert & Hrename & _ & _ & _ & Hreach).
  split.
  - apply Hrename. split; by_evaluation.
  - apply Hupsert. apply Hreach.
    apply (reachable_request _ (PUT_config (Some "systemPrompt") (Some "X")) 0 []).
    apply reachable_fresh.
Defined.

(** ** List *)

(** C5. [List] answers with every stored template, no more and no fewer,
    ordered by creation time, newest first.  Three templates created one
    after the other at increasing times, under names and with data that the
    store takes, come back in the reverse order of their creation. *)
Theorem List_newest_first :
  (∀ d, ∃ rows,
     List [] d = (Ok (Response 200 (JRows rows)), d) ∧
     rows ≡ₚ web_skyling_templates d ∧ descending rows) ∧
  (∀ n1 n2 n3 x1 x2 x3 t1 t2 t3,
     n1 ≠ "" → n2 ≠ "" → n3 ≠ "" → n1 ≠ n2 → n1 ≠ n3 → n2 ≠ n3 →
     key_ok n1 → key_ok n2 → key_ok n3 → data_ok x1 → data_ok x2 → data_ok x3 →
     (t1 < t2)%Z → (t2 < t3)%Z →
     let d1 := (Upsert (Some n1) (Some x1) t1 [] empty_database).2 in
     let d2 := (Upsert (Some n2) (Some x2) t2 [] d1).2 in
     let d3 := (Upsert (Some n3) (Some x3) t3 [] d2).2 in
     List [] d3 =
       (Ok (Response 200 (JRows [TemplateRow 3 n3 x3 t3; TemplateRow 2 n2 x2 t2;
                                 TemplateRow 1 n1 x1 t1])), d3)).
Proof.
  split.
  - intros d. eexists. split; [apply List_available|].
    split; [apply order_by_Permutation | apply order_by_descending].
  - intros n1 n2 n3 x1 x2 x3 t1 t2 t3 H1 H2 H3 H12 H13 H23
      K1%key_ok_text K2%key_ok_text K3%key_ok_text X1 X2 X3 Ht12 Ht23 d1 d2 d3.
    assert (d1 = Database [] [TemplateRow 1 n1 x1 t1] 1) as Hd1.
    { unfold d1. rewrite Upsert_available by done. cbn [snd].
      by rewrite upsert_template_absent by (first [done | apply not_elem_of_nil]). }
    assert (d2 = Database [] [TemplateRow 1 n1 x1 t1; TemplateRow 2 n2 x2 t2] 2) as Hd2.
    { unfold d2. rewrite Hd1. rewrite Upsert_available by done. cbn [snd].
      rewrite upsert_template_absent; [done..|].
      simpl. rewrite not_elem_of_cons. split; [done | apply not_elem_of_nil]. }
    assert (web_skyling_templates d3 =
            [TemplateRow 1 n1 x1 t1; TemplateRow 2 n2 x2 t2; TemplateRow 3 n3 x3 t3])
      as Hrows.
    { unfold d3. rewrite Hd2. rewrite Upsert_available by done. cbn [snd].
      rewrite upsert_template_absent; [done..|].
      simpl. rewrite !not_elem_of_cons. split_and!; [done.. | apply not_elem_of_nil]. }
    rewrite List_available, Hrows. do 4 f_equal.
    apply order_by_distinct.
    + simpl. rewrite !NoDup_cons, !not_elem_of_cons.
      split_and!; try lia; try apply not_elem_of_nil. apply NoDup_nil_2.
    + exact (reverse_Permutation
               [TemplateRow 1 n1 x1 t1; TemplateRow 2 n2 x2 t2; TemplateRow 3 n3 x3 t3]).
    + unfold descending, newer_first.
      repeat (constructor; simpl; try lia).
Qed.

Lemma List_newest_first_witness :
  List []
    (Upsert (Some "T3") (Some (TemplateData "s3" "" "")) 300 []
       (Upsert (Some "T2") (Some (TemplateData "s2" "" "")) 200 []
          (Upsert (Some "T1") (Some (TemplateData "s1" "" "")) 100 []
             empty_database).2).2).2 =
    (Ok (Response 200 (JRows [TemplateRow 3 "T3" (TemplateData "s3" "" "") 300;
                              TemplateRow 2 "T2" (TemplateData "s2" "" "") 200;
                              TemplateRow 1 "T1" (TemplateData "s1" "" "") 100])),
     (Upsert (Some "T3") (Some (TemplateData "s3" "" "")) 300 []
        (Upsert (Some "T2") (Some (TemplateData "s2" "" "")) 200 []
           (Upsert (Some "T1") (Some (TemplateData "s1" "" "")) 100 []
              empty_database).2).2).2).
Proof.
  pose proof (proj2 List_newest_first "T1" "T2" "T3"
           (TemplateData "s1" "" "") (TemplateData "s2" "" "") (TemplateData "s3" "" "")
           100%Z 200%Z 300%Z) as Hlist.
  cbv zeta in Hlist. apply Hlist; first [by_evaluation | lia].
Defined.

(** ** Delete *)

Lemma filter_keeps_all {A} (P : A → Prop) `{∀ x, Decision (P x)} (l : list A) :
  Forall P l → filter P l = l.
Proof.
  induction 1 as [|x l Hx _ IH]; [done|].
  by rewrite filter_cons, decide_True, IH.
Qed.

Lemma delete_template_absent n d :
  n ∉ row_name <$> web_skyling_templates d → (delete_template n d).2 = d.
Proof.
  intros Hn. unfold delete_template, prepared.
  destruct (bind_parameters _); [done|]. unfold with_templates. simpl.
  rewrite filter_keeps_all; [by destruct d|].
  apply Forall_forall. intros r Hr Heq. apply Hn. rewrite <- Heq.
  by apply list_elem_of_fmap_2.
Qed.

Lemma delete_template_gone n d :
  text_ok n →
  n ∉ row_name <$> web_skyling_templates (delete_template n d).2.
Proof.
  intros Hn. rewrite delete_template_accepted by done. simpl.
  intros (r & -> & [Hne _]%list_elem_of_filter)%list_elem_of_fmap. done.
Qed.

(** C6. [Delete n], for a name that the store takes as a text (one without
    the character of code 0), always succeeds while the store is available.
    Afterwards no template is named [n], every template with another name
    is still there and nothing else changed; the response is the whole
    relation that is left.  If no template was named [n], the database is
    unchanged and the response lists what [List] listed before.  A second
    [Delete n] gives the same response and the same database as the
    first. *)
Theorem Delete_is_idempotent n d :
  text_ok n →
  ∃ rows d',
    Delete n [] d = (Ok (Response 200 (JTemplates rows)), d') ∧
    (n ∉ row_name <$> web_skyling_templates d') ∧
    (∀ r, row_name r ≠ n →
          (r ∈ web_skyling_templates d' ↔ r ∈ web_skyling_templates d)) ∧
    web_skyling_config d' = web_skyling_config d ∧
    rows ≡ₚ web_skyling_templates d' ∧ descending rows ∧
    (n ∉ row_name <$> web_skyling_templates d →
       d' = d ∧ List [] d = (Ok (Response 200 (JRows rows)), d)) ∧
    Delete n [] d' = (Ok (Response 200 (JTemplates rows)), d').
Proof.
  intros Hn. eexists _, _. split; [by apply Delete_available|].
  split_and!.
  - by apply delete_template_gone.
  - intros r Hr. rewrite delete_template_accepted by done. simpl.
    rewrite list_elem_of_filter. tauto.
  - by rewrite delete_template_accepted.
  - apply order_by_Permutation.
  - apply order_by_descending.
  - intros Hout. rewrite (delete_template_absent n d Hout).
    split; [done | apply List_available].
  - rewrite Delete_available by done.
    by rewrite (delete_template_absent n _ (delete_template_gone n d Hn)).
Qed.

Lemma Delete_is_idempotent_witness :
  (Delete "A" [] two_templates).1 =
    Ok (Response 200 (JTemplates [TemplateRow 2 "B" (TemplateData "" "" "") 20])) ∧
  Delete "C" [] two_templates =
    (Ok (Response 200 (JTemplates
       [TemplateRow 2 "B" (TemplateData "" "" "") 20;
        TemplateRow 1 "A" (TemplateData "s" "o" "l") 10])), two_templates).
Proof.
  split.
  - destruct (Delete_is_idempotent "A" two_templates)
      as (rows & d' & Hrun & _); [by_evaluation|].
    rewrite Hrun. vm_compute in Hrun. by injection Hrun as <- _.
  - destruct (Delete_is_idempotent "C" two_templates)
      as (rows & d' & Hrun & _ & _ & _ & _ & _ & Hsame & _); [by_evaluation|].
    destruct Hsame as [-> Hlist]; [by_evaluation|].
    rewrite Hrun. vm_compute in Hlist. by injection Hlist as <-.
Defined.

(** ** Configuration *)

Lemma upsert_config_stores k v d :
  text_ok k → value_ok v →
  ConfigRow k v ∈ web_skyling_config (upsert_config k v d).2.
Proof.
  intros Hkok Hv. rewrite upsert_config_accepted by done.
  destruct (has_key k _) eqn:Hhas; simpl.
  - apply has_key_true, list_elem_of_fmap in Hhas as (r & Hk & Hr).
    apply list_elem_of_fmap. exists r. split; [|done].
    unfold set_value. rewrite decide_True by done. by rewrite <- Hk.
  - apply elem_of_app. right. apply list_elem_of_here.
Qed.

Lemma upsert_config_other k v d r :
  row_key r ≠ k →
  r ∈ web_skyling_config (upsert_config k v d).2 ↔ r ∈ web_skyling_config d.
Proof.
  intros Hr. unfold upsert_config, prepared.
  destruct (bind_parameters _); [done|]. destruct (has_key k _); simpl.
  - rewrite list_elem_of_fmap. split.
    + intros (r0 & -> & Hr0). unfold set_value in *.
      case_decide; [by destruct Hr | done].
    + intros Hin. exists r. split; [|done]. unfold set_value. by rewrite decide_False.
  - rewrite elem_of_app, list_elem_of_singleton. split; [|by left].
    intros [?| ->]; [done | by destruct Hr].
Qed.

Lemma upsert_config_keys k v d k' :
  k' ≠ k →
  k' ∈ row_key <$> web_skyling_config (upsert_config k v d).2 ↔
  k' ∈ row_key <$> web_skyling_config d.
Proof.
  intros Hk. unfold upsert_config, prepared.
  destruct (bind_parameters _); [done|]. destruct (has_key k _); simpl.
  - by rewrite keys_set_value.
  - rewrite fmap_app, elem_of_app. simpl. rewrite list_elem_of_singleton. tauto.
Qed.

(** *** The object sent by [GET /api/defaults] *)

Lemma js_assign_other o k k' v : k ≠ k' → own (js_assign o k' v) !! k = own o !! k.
Proof.
  intros Hk. unfold js_assign.
  destruct (inherits o && _); [by destruct v|]. simpl. by rewrite lookup_insert_ne.
Qed.

Lemma assign_untouched rows o k :
  k ∉ row_key <$> rows →
  own (foldl (λ o r, js_assign o (row_key r) (row_value r)) o rows) !! k = own o !! k.
Proof.
  revert o. induction rows as [|r rows IH]; intros o Hk; [done|].
  rewrite fmap_cons, not_elem_of_cons in Hk. destruct Hk as [Hne Hk].
  simpl. rewrite IH by done. by apply js_assign_other.
Qed.

Lemma assign_stored rows o k v :
  NoDup (row_key <$> rows) → ConfigRow k v ∈ rows → k ≠ "__proto__" →
  own (foldl (λ o r, js_assign o (row_key r) (row_value r)) o rows) !! k = Some v.
Proof.
  revert o. induction rows as [|r rows IH]; intros o Hnd Hin Hk.
  - by apply elem_of_nil in Hin.
  - rewrite fmap_cons in Hnd. apply NoDup_cons in Hnd as [Hr Hnd]. simpl.
    apply elem_of_cons in Hin as [<-|Hin]; [|by apply IH].
    simpl in *. rewrite assign_untouched by done.
    unfold js_assign. rewrite (bool_decide_eq_false_2 (k = "__proto__")) by done.
    rewrite andb_false_r. simpl. apply lookup_insert_eq.
Qed.

Lemma assign_proto rows o :
  NoDup (row_key <$> rows) → inherits o = true → own o !! "__proto__" = None →
  own (foldl (λ o r, js_assign o (row_key r) (row_value r)) o rows) !! "__proto__" = None.
Proof.
  revert o. induction rows as [|r rows IH]; intros o Hnd Hinh Hown; [done|].
  rewrite fmap_cons in Hnd. apply NoDup_cons in Hnd as [Hr Hnd]. simpl.
  destruct (decide (row_key r = "__proto__")) as [Heq|Hne].
  - rewrite assign_untouched by (by rewrite <- Heq).
    unfold js_assign. rewrite Hinh, bool_decide_eq_true_2 by done. simpl.
    by destruct (row_value r).
  - apply IH; [done | |].
    + unfold js_assign. rewrite bool_decide_eq_false_2 by done.
      by rewrite andb_false_r.
    + by rewrite js_assign_other.
Qed.

(** What [GetConfig] shows of a relation with unique keys: the value of
    every row, except that of a row whose key is [__proto__]. *)
Lemma rows_to_object_lookup rows k :
  NoDup (row_key <$> rows) →
  (∀ v, ConfigRow k v ∈ rows → k ≠ "__proto__" →
        own (rows_to_object rows) !! k = Some v) ∧
  (k ∉ row_key <$> rows → own (rows_to_object rows) !! k = None) ∧
  own (rows_to_object rows) !! "__proto__" = None.
Proof.
  intros Hnd. unfold rows_to_object. split_and!.
  - intros v Hin Hk. by apply assign_stored.
  - intros Hk. by rewrite assign_untouched.
  - by apply assign_proto.
Qed.

(** For every key other than [__proto__] (that the store takes, as it must
    take the value), [SetConfig] followed by [GetConfig] shows the key with
    the value set, be it a text or null. *)
Lemma SetConfig_then_GetConfig k v d :
  k ≠ "" → k ≠ "__proto__" → key_ok k → value_ok v →
  NoDup (row_key <$> web_skyling_config d) →
  ∃ d' config,
    SetConfig (Some k) v [] d = (Ok (Response 200 (JConfigSet k v)), d') ∧
    GetConfig [] d' = (Ok (Response 200 (JConfig config)), d') ∧
    config !! k = Some v.
Proof.
  intros Hk Hproto Hkey%key_ok_text Hv Hnd. eexists _, _.
  split; [by apply SetConfig_available|].
  split; [apply GetConfig_available|].
  apply rows_to_object_lookup; [|by apply upsert_config_stores | done].
  by apply upsert_config_keys_unique.
Qed.

(** [SetConfig k] leaves what [GetConfig] shows of every other key as it
    was. *)
Lemma SetConfig_frame k v d k' :
  k ≠ "" → k' ≠ k → key_ok k → value_ok v →
  NoDup (row_key <$> web_skyling_config d) →
  ∃ d' before after,
    GetConfig [] d = (Ok (Response 200 (JConfig before)), d) ∧
    SetConfig (Some k) v [] d = (Ok (Response 200 (JConfigSet k v)), d') ∧
    GetConfig [] d' = (Ok (Response 200 (JConfig after)), d') ∧
    after !! k' = before !! k'.
Proof.
  intros Hk Hne Hkey%key_ok_text Hv Hnd. eexists _, _, _.
  split; [apply GetConfig_available|].
  split; [by apply SetConfig_available|].
  split; [apply GetConfig_available|].
  pose proof (upsert_config_keys_unique k v d Hnd) as Hnd'.
  destruct (rows_to_object_lookup _ k' Hnd) as (Hin & Hout & Hproto).
  destruct (rows_to_object_lookup _ k' Hnd') as (Hin' & Hout' & Hproto').
  destruct (decide (k' = "__proto__")) as [->|Hk']; [by rewrite Hproto, Hproto'|].
  destruct (decide (k' ∈ row_key <$> web_skyling_config d)) as [Hmem|Hmem].
  - apply list_elem_of_fmap in Hmem as ([k0 v0] & Hk0 & Hr). simpl in Hk0. subst k0.
    rewrite (Hin v0 Hr Hk'). rewrite (Hin' v0); [done | | done].
    by apply upsert_config_other.
  - rewrite (Hout Hmem). rewrite Hout'; [done|]. by rewrite upsert_config_keys.
Qed.

(** C7. The key [__proto__] is stored by [SetConfig] but is missing from
    the mapping that [GetConfig] returns: the assignment
    [config[row.key] = row.value] on an object literal does not create a
    property of that name.  (For every other key [SetConfig_then_GetConfig]
    and [SetConfig_frame] give what the claim says.) *)
Theorem GetConfig_misses_proto_key :
  ∃ d',
    SetConfig (Some "__proto__") (Some "X") [] empty_database =
      (Ok (Response 200 (JConfigSet "__proto__" (Some "X"))), d') ∧
    web_skyling_config d' = [ConfigRow "__proto__" (Some "X")] ∧
    GetConfig [] d' = (Ok (Response 200 (JConfig ∅)), d').
Proof. eexists. split_and!; reflexivity. Qed.

(** C10. With an ordinary key, [SetConfig] without a value stores NULL and
    [GetConfig] shows the key with the value null
    ([SetConfig_then_GetConfig] at [v = None]).  With the key [__proto__]
    the row is stored with NULL all the same, but [GetConfig] does not show
    the key at all. *)
Theorem GetConfig_misses_null_proto_key :
  ∃ d',
    SetConfig (Some "__proto__") None [] empty_database =
      (Ok (Response 200 (JConfigSet "__proto__" None)), d') ∧
    web_skyling_config d' = [ConfigRow "__proto__" None] ∧
    GetConfig [] d' = (Ok (Response 200 (JConfig ∅)), d') ∧
    (∅ : gmap string (option string)) !! "__proto__" = None.
Proof. eexists. split_and!; reflexivity. Qed.

(** The same call with the key the client uses. *)
Example SetConfig_null_systemPrompt :
  ∃ d' config,
    SetConfig (Some "systemPrompt") None [] empty_database =
      (Ok (Response 200 (JConfigSet "systemPrompt" None)), d') ∧
    GetConfig [] d' = (Ok (Response 200 (JConfig config)), d') ∧
    config !! "systemPrompt" = Some None.
Proof.
  apply SetConfig_then_GetConfig; [done | done | by_evaluation | done | apply NoDup_nil_2].
Qed.

(** ** Failures of the store *)

Lemma round_trip_takes_one w :
  ∃ used, faults w = used ++ (next_fault w).2 ∧
          (true ∈ used → (next_fault w).1 = true).
Proof.
  unfold next_fault. destruct (faults w) as [|b rest]; simpl.
  - exists []. split; [done|]. by intros ?%elem_of_nil.
  - exists [b]. split; [done|]. by intros ->%list_elem_of_singleton.
Qed.

Lemma tof_mret {A} (a : A) : throws_on_fault (mret a).
Proof. intros w. exists []. split; [done|]. by intros ?%elem_of_nil. Qed.

Lemma tof_throw {A} e : throws_on_fault (@throw A e).
Proof. intros w. exists []. split; [done|]. by intros ?%elem_of_nil. Qed.

Lemma tof_bind {A B} (m : js A) (k : A → js B) :
  throws_on_fault m → (∀ a, throws_on_fault (k a)) → throws_on_fault (m ≫= k).
Proof.
  intros Hm Hk w. destruct (Hm w) as (u1 & E1 & T1).
  unfold mbind, js_bind. destruct (m w) as [[a|e] w'] eqn:Hmw; simpl in *.
  - destruct (Hk a w') as (u2 & E2 & T2). exists (u1 ++ u2).
    split; [by rewrite E1, E2, (assoc_L (++))|].
    intros [Hin|Hin]%elem_of_app; [|by apply T2].
    by destruct (T1 Hin).
  - exists u1. split; [done|]. intros _. by exists e.
Qed.

Lemma tof_try_catch_rethrow {A} (m : js A) (h : exn → js A) :
  throws_on_fault m →
  (∀ e, throws_on_fault (h e)) →
  (∀ e w, ∃ e', (h e w).1 = Throw e') →
  throws_on_fault (try_catch m h).
Proof.
  intros Hm Hh Hthrows w. destruct (Hm w) as (u1 & E1 & T1).
  unfold try_catch. destruct (m w) as [[a|e] w'] eqn:Hmw; simpl in *.
  - by exists u1.
  - destruct (Hh e w') as (u2 & E2 & _). exists (u1 ++ u2).
    split; [by rewrite E1, E2, (assoc_L (++))|].
    intros _. apply Hthrows.
Qed.

Lemma tof_query {A} (stmt : database → result A * database) :
  throws_on_fault (query stmt).
Proof.
  intros w. destruct (round_trip_takes_one w) as (used & E & T).
  exists used. unfold query. destruct (next_fault w) as [[] rest]; simpl in *.
  - split; [done|]. intros _. by eexists.
  - destruct (stmt (db w)) as [r d']. simpl. split; [done|]. by intros ?%T.
Qed.

Lemma tof_connect : throws_on_fault connect.
Proof.
  intros w. destruct (round_trip_takes_one w) as (used & E & T).
  exists used. unfold connect. destruct (next_fault w) as [[] rest]; simpl in *.
  - split; [done|]. intros _. by eexists.
  - split; [done|]. by intros ?%T.
Qed.

Lemma tof_BEGIN : throws_on_fault BEGIN.
Proof.
  intros w. destruct (round_trip_takes_one w) as (used & E & T).
  exists used. unfold BEGIN. destruct (next_fault w) as [[] rest]; simpl in *.
  - split; [done|]. intros _. by eexists.
  - split; [done|]. by intros ?%T.
Qed.

Lemma tof_COMMIT : throws_on_fault COMMIT.
Proof.
  intros w. destruct (round_trip_takes_one w) as (used & E & T).
  exists used. unfold COMMIT. destruct (next_fault w) as [[] rest]; simpl in *.
  - split; [done|]. intros _. by eexists.
  - split; [done|]. by intros ?%T.
Qed.

Lemma tof_ROLLBACK : throws_on_fault ROLLBACK.
Proof.
  intros w. destruct (round_trip_takes_one w) as (used & E & T).
  exists used. unfold ROLLBACK. destruct (next_fault w) as [[] rest]; simpl in *.
  - split; [done|]. intros _. by eexists.
  - split; [done|]. by intros ?%T.
Qed.

Lemma rethrow_throws {A B} (m : js A) e w :
  ∃ e', ((m ≫= λ _, @throw B e) w).1 = Throw e'.
Proof.
  unfold mbind, js_bind, throw. destruct (m w) as [[a|e0] w']; by eexists.
Qed.

(** [try { body } catch (e) { res.status(500).json(...) }] *)
Lemma catch_answers Q (body : js response) (resp : response) :
  throws_on_fault body → Q resp →
  answers_on_fault Q (try_catch body (λ _, mret resp)).
Proof.
  intros Hbody HQ w. destruct (Hbody w) as (used & E & T).
  exists used. unfold try_catch.
  destruct (body w) as [[a|e] w'] eqn:Hb; simpl in *.
  - split; [done|]. intros Hin. by destruct (T Hin).
  - split; [done|]. intros _. by exists resp.
Qed.

Lemma mret_answers Q (resp : response) : answers_on_fault Q (mret resp).
Proof. intros w. exists []. split; [done|]. by intros ?%elem_of_nil. Qed.

Lemma database_error_unavailable msg : StoreUnavailable (Response 500 (JError msg)).
Proof. split; [done | by exists msg]. Qed.

Ltac track :=
  repeat first
    [ apply tof_mret | apply tof_throw | apply tof_connect | apply tof_BEGIN
    | apply tof_COMMIT | apply tof_ROLLBACK | apply tof_query
    | apply tof_try_catch_rethrow; [| intros ? | intros ? ?; apply rethrow_throws]
    | apply tof_bind; [| intros ?]
    | case_match
    | progress cbv zeta ].

Lemma handle_answers_on_fault r now : answers_on_fault StoreUnavailable (handle r now).
Proof.
  destruct r; simpl;
    unfold get_api_defaults, put_api_config, get_api_templates,
      post_api_templates, put_api_templates, delete_api_templates;
    repeat case_match;
    first [ apply mret_answers
          | apply catch_answers; [track | apply database_error_unavailable] ].
Qed.

(** Whenever a round trip made for a request fails, the response is the
    500 of [StoreUnavailable]. *)
Lemma faults_surface r now fs d used :
  fs = used ++ faults (handle r now (World d None fs)).2 →
  true ∈ used →
  ∃ resp, (run (handle r now) fs d).1 = Ok resp ∧ StoreUnavailable resp.
Proof.
  intros Hfs Hin.
  destruct (handle_answers_on_fault r now (World d None fs)) as (used' & E & T).
  simpl in E. rewrite E in Hfs at 1. apply app_inv_tail in Hfs. subst used'.
  destruct (T Hin) as (resp & Hresp & HQ). exists resp. split; [|done].
  unfold run. destruct (handle r now _) as [res w']. simpl in *. done.
Qed.

(** ** Validation *)

Lemma Upsert_validation name data now fs d :
  ((Upsert name data now fs d).1 = Ok ValidationError_name ↔ truthy name = None) ∧
  (truthy name = None → (Upsert name data now fs d).2 = d).
Proof.
  unfold Upsert, run, handle, post_api_templates.
  destruct (truthy name) as [n|] eqn:Hname.
  - split; [|done]. split; [|done].
    unfold try_catch, mbind, js_bind, query, mret, js_ret.
    repeat (case_match; simplify_eq/=); discriminate.
  - by split.
Qed.

Lemma SetConfig_validation key value fs d :
  ((SetConfig key value fs d).1 = Ok ValidationError_key ↔ truthy key = None) ∧
  (truthy key = None → (SetConfig key value fs d).2 = d).
Proof.
  unfold SetConfig, run, handle, put_api_config.
  destruct (truthy key) as [k|] eqn:Hkey.
  - split; [|done]. split; [|done].
    unfold try_catch, mbind, js_bind, query, mret, js_ret.
    repeat (case_match; simplify_eq/=); discriminate.
  - by split.
Qed.

(** C8. [Upsert] answers [ValidationError] exactly when the name is missing
    or empty, and then leaves the database alone; [SetConfig] does the same
    for its key, while an empty value is stored as it is (under a key that
    the store takes: no character of code 0, short enough for the index);
    and whenever a round trip to the store fails during a request, the
    response is [StoreUnavailable]. *)
Theorem validation_and_store_failures :
  (∀ name data now fs d,
     ((Upsert name data now fs d).1 = Ok ValidationError_name ↔
        name = None ∨ name = Some "") ∧
     (name = None ∨ name = Some "" → (Upsert name data now fs d).2 = d)) ∧
  (∀ key value fs d,
     ((SetConfig key value fs d).1 = Ok ValidationError_key ↔
        key = None ∨ key = Some "") ∧
     (key = None ∨ key = Some "" → (SetConfig key value fs d).2 = d)) ∧
  (∀ k d, k ≠ "" → key_ok k →
     ∃ d', SetConfig (Some k) (Some "") [] d =
             (Ok (Response 200 (JConfigSet k (Some ""))), d') ∧
           ConfigRow k (Some "") ∈ web_skyling_config d') ∧
  (∀ r now fs d used,
     fs = used ++ faults (handle r now (World d None fs)).2 →
     true ∈ used →
     ∃ resp, (run (handle r now) fs d).1 = Ok resp ∧ StoreUnavailable resp).
Proof.
  split_and!.
  - intros. rewrite <- truthy_None_iff. apply Upsert_validation.
  - intros. rewrite <- truthy_None_iff. apply SetConfig_validation.
  - intros k d Hk Hkey%key_ok_text. eexists. split; [by apply SetConfig_available|].
    by apply upsert_config_stores.
  - apply faults_surface.
Qed.

Lemma validation_and_store_failures_witness :
  Upsert (Some "") (Some (TemplateData "s" "o" "l")) 5 [true] two_templates
    = (Ok ValidationError_name, two_templates) ∧
  (∃ d', SetConfig (Some "knowledge") (Some "") [] two_templates =
           (Ok (Response 200 (JConfigSet "knowledge" (Some ""))), d') ∧
         ConfigRow "knowledge" (Some "") ∈ web_skyling_config d') ∧
  (∃ resp, (Delete "A" [false; true] two_templates).1 = Ok resp ∧ StoreUnavailable resp).
Proof.
  destruct validation_and_store_failures as (Hupsert & _ & Hempty & Hfault).
  split_and!.
  - destruct (Hupsert (Some "") (Some (TemplateData "s" "o" "l")) 5%Z [true] two_templates)
      as [Hres Hdb].
    apply injective_projections; simpl.
    + apply Hres. by right.
    + apply Hdb. by right.
  - apply Hempty; by_evaluation.
  - apply (Hfault (DELETE_templates "A") 0%Z [false; true] two_templates [false; true]).
    + reflexivity.
    + by_evaluation.
Defined.

(** ** Row identity *)

(** C9. Rows carry an id, and the lists sent to the client contain the
    whole row, id included.  For a row [r] of a database whose names are
    unique and whose ids were issued by the sequence (every reachable one,
    by [reachable_consistent]), with names and data that the store takes
    and a sequence that is not exhausted: [Upsert] on the name
    of [r] and a successful [Rename] of [r] leave the id of the row as it
    was, while [Delete] followed by [Upsert] of the same name yields a row
    whose id is larger than every id the database held, hence new: it is
    the next value of the sequence.  (An [Upsert] draws from the sequence
    even when it only replaces data; a [Rename] does not.)  After each of
    them the ids in use are again issued by the sequence. *)
Theorem ids_follow_the_row d r :
  NoDup (row_name <$> web_skyling_templates d) →
  ids_issued d →
  r ∈ web_skyling_templates d →
  key_ok (row_name r) →
  (∃ rows, List [] d = (Ok (Response 200 (JRows rows)), d) ∧ r ∈ rows) ∧
  (∀ x now, row_name r ≠ "" → data_ok x →
     (web_skyling_templates_id_seq d < MAXVALUE)%Z →
     ∃ rows d',
       Upsert (Some (row_name r)) (Some x) now [] d =
         (Ok (Response 200 (JTemplates rows)), d') ∧
       filter (λ r', row_name r' = row_name r) (web_skyling_templates d') =
         [TemplateRow (row_id r) (row_name r) x (row_created_at r)] ∧
       TemplateRow (row_id r) (row_name r) x (row_created_at r) ∈ rows ∧
       ids_issued d' ∧
       web_skyling_templates_id_seq d' = (web_skyling_templates_id_seq d + 1)%Z) ∧
  (∀ newName x,
     (∀ n, newName = Some n → n ≠ "" → n ≠ row_name r →
           n ∉ row_name <$> web_skyling_templates d) →
     (∀ n, newName = Some n → key_ok n) → data_ok x →
     ∃ rows d' finalName,
       Rename (row_name r) newName (Some x) [] d =
         (Ok (Response 200 (JTemplates rows)), d') ∧
       filter (λ r', row_name r' = finalName) (web_skyling_templates d') =
         [TemplateRow (row_id r) finalName x (row_created_at r)] ∧
       TemplateRow (row_id r) finalName x (row_created_at r) ∈ rows ∧
       ids_issued d' ∧
       web_skyling_templates_id_seq d' = web_skyling_templates_id_seq d) ∧
  (∀ x now, row_name r ≠ "" → data_ok x →
     (web_skyling_templates_id_seq d < MAXVALUE)%Z →
     ∃ rows1 d1 rows2 d2 r',
       Delete (row_name r) [] d = (Ok (Response 200 (JTemplates rows1)), d1) ∧
       Upsert (Some (row_name r)) (Some x) now [] d1 =
         (Ok (Response 200 (JTemplates rows2)), d2) ∧
       filter (λ r0, row_name r0 = row_name r) (web_skyling_templates d2) = [r'] ∧
       r' ∈ rows2 ∧
       row_id r' ≠ row_id r ∧
       (∀ r0, r0 ∈ web_skyling_templates d → (row_id r0 < row_id r')%Z) ∧
       ids_issued d2 ∧
       row_id r' = web_skyling_templates_id_seq d2).
Proof.
  intros Hnd Hd Hr Hkey. pose proof (key_ok_text _ Hkey) as Hok.
  pose proof Hd as [Hids Hle].
  assert (row_name r ∈ row_name <$> web_skyling_templates d) as Hname
    by by apply list_elem_of_fmap_2.
  split_and!.
  - eexists. split; [apply List_available|]. by rewrite order_by_Permutation.
  - intros x now Hne Hx Hseq. eexists _, _. split; [by apply Upsert_available|].
    destruct (upsert_template_ids (row_name r) (Some x) now d Hd) as [Hissued _].
    revert Hissued.
    rewrite (upsert_template_present _ x now d Hok Hx Hseq Hname). simpl.
    intros Hissued.
    assert (filter (λ r', row_name r' = row_name r)
              (set_data (row_name r) x <$> web_skyling_templates d) =
            [TemplateRow (row_id r) (row_name r) x (row_created_at r)]) as Hsel
      by by apply select_set_data.
    split_and!; [done | | done | done]. rewrite order_by_Permutation.
    eapply list_elem_of_filter. rewrite Hsel. apply list_elem_of_here.
  - intros newName x Hfree Hnew Hx.
    assert (∀ n, truthy newName = Some n → n ≠ row_name r →
                 n ∉ row_name <$> web_skyling_templates d) as Hfree'.
    { intros n [-> Hn]%truthy_nonempty Hne. by apply Hfree. }
    assert (text_ok (default (row_name r) (truthy newName))) as Hfok.
    { destruct (truthy newName) as [n|] eqn:Hn; [|done].
      apply truthy_nonempty in Hn as [-> _]. by apply key_ok_text, Hnew. }
    pose proof (Rename_applies (row_name r) newName x d Hok Hfok Hx Hnd Hname Hfree')
      as Hrun.
    simpl in Hrun. set (finalName := default (row_name r) (truthy newName)) in *.
    pose proof (handle_ids_issued (PUT_templates (row_name r) newName (Some x)) 0 [] d Hd)
      as Hissued.
    unfold Rename in Hrun. rewrite Hrun in Hissued.
    eexists _, _, finalName. split; [exact Hrun|]. simpl.
    assert (TemplateRow (row_id r) finalName x (row_created_at r) ∈
            rename_row finalName x (row_name r) <$> web_skyling_templates d) as Hin.
    { apply list_elem_of_fmap. exists r. split; [|done].
      unfold rename_row. by rewrite decide_True. }
    split_and!; [|by rewrite order_by_Permutation | done | done].
    apply select_unique; [|done..].
    apply rename_names_unique; [done|]. unfold finalName.
    destruct (truthy newName) as [n|] eqn:Hn; simpl; [|by left].
    destruct (decide (n = row_name r)); [by left | right; by apply Hfree'].
  - intros x now Hne Hx Hseq.
    set (r' := TemplateRow (web_skyling_templates_id_seq d + 1) (row_name r) x now).
    pose proof (delete_template_gone (row_name r) d Hok) as Hgone.
    assert (web_skyling_templates_id_seq (delete_template (row_name r) d).2 < MAXVALUE)%Z
      as Hseq1 by by rewrite delete_template_accepted.
    eexists _, _, _, _, r'. split; [by apply Delete_available|].
    split; [by apply Upsert_available|].
    destruct (delete_template_ids (row_name r) d Hd) as [Hd1 _].
    destruct (upsert_template_ids (row_name r) (Some x) now _ Hd1) as [Hd2 _].
    revert Hd2.
    rewrite (upsert_template_absent _ x now _ Hok Hx Hseq1 Hgone).
    rewrite delete_template_accepted by done. simpl. fold r'. intros Hd2.
    assert (filter (λ r0, row_name r0 = row_name r)
              (filter (λ r0, row_name r0 ≠ row_name r) (web_skyling_templates d) ++ [r'])
            = [r']) as Hsel.
    { apply select_snoc; [|done].
      intros (r0 & Heq & [Hne0 _]%list_elem_of_filter)%list_elem_of_fmap. done. }
    rewrite Forall_forall in Hle.
    split_and!.
    + done.
    + rewrite order_by_Permutation. apply elem_of_app. right. apply list_elem_of_here.
    + specialize (Hle r Hr). simpl in *. lia.
    + intros r0 Hr0. specialize (Hle r0 Hr0). simpl in *. lia.
    + done.
    + done.
Qed.

Lemma ids_follow_the_row_witness :
  ∃ rows2 d2 r',
    Upsert (Some "A") (Some (TemplateData "x" "y" "z")) 30 []
      (Delete "A" [] two_templates).2 = (Ok (Response 200 (JTemplates rows2)), d2) ∧
    filter (λ r0, row_name r0 = "A") (web_skyling_templates d2) = [r'] ∧
    row_id r' ≠ 1%Z.
Proof.
  destruct (ids_follow_the_row two_templates
              (TemplateRow 1 "A" (TemplateData "s" "o" "l") 10))
    as (_ & _ & _ & Hnew).
  - by_evaluation.
  - split; by_evaluation.
  - by_evaluation.
  - by_evaluation.
  - destruct (Hnew (TemplateData "x" "y" "z") 30%Z)
      as (rows1 & d1 & rows2 & d2 & r' & Hdel & Hup & Hsel & _ & Hid & _).
    + by_evaluation.
    + by_evaluation.
    + by_evaluation.
    + exists rows2, d2, r'. cbn [row_name row_id] in *.
      rewrite Hdel. cbn [snd]. split_and!; done.
Defined.

(** ** The scenario of the specification, run on the model *)

Example landing_scenario :
  let s1 := Upsert (Some "Landing A") (Some (TemplateData "S1" "" "")) 1000 []
              empty_database in
  let s2 := Rename "Landing A" (Some "Landing B") (Some (TemplateData "S2" "" "")) []
              s1.2 in
  let s3 := Delete "Landing B" [] s2.2 in
  s1.1 = Ok (Response 200 (JTemplates
           [TemplateRow 1 "Landing A" (TemplateData "S1" "" "") 1000])) ∧
  s2.1 = Ok (Response 200 (JTemplates
           [TemplateRow 1 "Landing B" (TemplateData "S2" "" "") 1000])) ∧
  s3.1 = Ok (Response 200 (JTemplates [])) ∧
  List [] s3.2 = (Ok (Response 200 (JRows [])), s3.2).
Proof. split_and!; reflexivity. Qed.


(** * Further properties of the code *)

(** ** Which relation a request can touch *)

(** The combinators of [preservation], for a property chosen per request;
    [side] proves what the property needs of the statements that write and
    of the undoing of a transaction. *)
Ltac preserve_by side :=
  repeat first
    [ apply preserves_mret | apply preserves_throw
    | apply preserves_connect | apply preserves_BEGIN | apply preserves_COMMIT
    | apply preserves_ROLLBACK; side
    | apply preserves_query;
        first [ apply @read_only_ok | apply prepared_ok, @read_only_ok | side ]
    | apply preserves_try_catch; [|intros ?]
    | apply preserves_bind; [|intros ?]
    | apply preserves_if
    | case_match ].

Lemma upsert_template_keeps_config c n x now :
  stmt_ok (λ d, web_skyling_config d = c) (upsert_template n x now).
Proof.
  apply prepared_ok. intros d Hd. unfold nextval, with_templates.
  case_bool_decide; [|simpl; split; [done | lia]]. simpl.
  destruct x as [x|]; [destruct (has_name n _)|]; simpl; (split; [done | lia]).
Qed.

Lemma update_template_keeps_config c f x o :
  stmt_ok (λ d, web_skyling_config d = c) (update_template f x o).
Proof.
  apply prepared_ok. intros d Hd. unfold with_templates.
  destruct (has_name o _); [|simpl; split; [done | lia]].
  destruct x as [x|]; [|simpl; split; [done | lia]].
  case_bool_decide; simpl; (split; [done | lia]).
Qed.

Lemma delete_template_keeps_config c n :
  stmt_ok (λ d, web_skyling_config d = c) (delete_template n).
Proof. apply prepared_ok. intros d Hd. simpl. split; [done | lia]. Qed.

Lemma upsert_config_keeps_templates rows i k v :
  stmt_ok (λ d, web_skyling_templates d = rows ∧ web_skyling_templates_id_seq d = i)
          (upsert_config k v).
Proof.
  apply prepared_ok. intros d Hd. cbn beta.
  destruct (has_key k _); simpl; (split; [done | lia]).
Qed.

(** X1. Under every fault oracle and for all arguments: the two [GET]
    requests leave the database exactly as it is; the requests on
    [/api/templates] leave the configuration relation as it is; and
    [PUT /api/config] leaves the template relation and its id sequence as
    they are. *)
Theorem requests_stay_in_their_relation r now fs d :
  match r with
  | GET_defaults | GET_templates => (run (handle r now) fs d).2 = d
  | PUT_config _ _ =>
      web_skyling_templates (run (handle r now) fs d).2 = web_skyling_templates d ∧
      web_skyling_templates_id_seq (run (handle r now) fs d).2 =
        web_skyling_templates_id_seq d
  | POST_templates _ _ | PUT_templates _ _ _ | DELETE_templates _ =>
      web_skyling_config (run (handle r now) fs d).2 = web_skyling_config d
  end.
Proof.
  destruct r.
  - apply (run_preserves (λ d', d' = d)); [by intros s d0 -> -> _; destruct d | | done].
    simpl. unfold get_api_defaults. preserve_by fail.
  - apply (run_preserves (λ d', web_skyling_templates d' = web_skyling_templates d ∧
                                web_skyling_templates_id_seq d' =
                                  web_skyling_templates_id_seq d));
      [by intros s d0 [? ?] [? ?] _ | | done].
    simpl. unfold put_api_config. preserve_by ltac:(apply upsert_config_keeps_templates).
  - apply (run_preserves (λ d', d' = d)); [by intros s d0 -> -> _; destruct d | | done].
    simpl. unfold get_api_templates. preserve_by fail.
  - apply (run_preserves (λ d', web_skyling_config d' = web_skyling_config d));
      [by intros s d0 ? ? _ | | done].
    simpl. unfold post_api_templates.
    preserve_by ltac:(apply upsert_template_keeps_config).
  - apply (run_preserves (λ d', web_skyling_config d' = web_skyling_config d));
      [by intros s d0 ? ? _ | | done].
    simpl. unfold put_api_templates.
    preserve_by ltac:(first [ apply update_template_keeps_config | by intros ? ? ? ? _ ]).
  - apply (run_preserves (λ d', web_skyling_config d' = web_skyling_config d));
      [by intros s d0 ? ? _ | | done].
    simpl. unfold delete_api_templates.
    preserve_by ltac:(apply delete_template_keeps_config).
Qed.

(** ** More on the template operations *)





(** What a statement that throws leaves of a request in one [try]. *)
Lemma Upsert_thrown n x now d e d' :
  n ≠ "" → upsert_template n x now d = (Throw e, d') →
  Upsert (Some n) x now [] d = (Ok (Response 500 (JError "Database error")), d').
Proof.
  intros Hn Hst. unfold Upsert, run, handle, post_api_templates.
  rewrite truthy_Some by done.
  unfold try_catch, mbind, js_bind, query. simpl. by rewrite Hst.
Qed.

Lemma upsert_template_without_data n now d :
  ∃ e d', upsert_template n None now d = (Throw e, d') ∧
          web_skyling_templates d' = web_skyling_templates d ∧
          web_skyling_config d' = web_skyling_config d.
Proof.
  unfold upsert_template, prepared. destruct (bind_parameters _); [by eexists _, _|].
  unfold nextval. case_bool_decide; by eexists _, _.
Qed.

Lemma update_template_without_data f o d :
  o ∈ row_name <$> web_skyling_templates d →
  ∃ e, update_template f None o d = (Throw e, d).
Proof.
  intros Ho%has_name_true. unfold update_template, prepared.
  destruct (bind_parameters _); [by eexists|]. rewrite Ho. by eexists.
Qed.

Lemma select_template_run n d :
  (∃ e, select_template n d = (Throw e, d)) ∨
  select_template n d = (Ok (filter (λ r, row_name r = n) (web_skyling_templates d)), d).
Proof.
  unfold select_template, prepared. destruct (bind_parameters _); [left; by eexists | by right].
Qed.

(** X3. A template cannot be stored without data ([data JSONB NOT NULL]):
    [Upsert] with a name but no data answers 500 and leaves both relations
    as they were, and so does [Rename] of an existing template (to a free
    name) without data. *)
Theorem missing_data_is_rejected d :
  (∀ n now, n ≠ "" →
     ∃ d', Upsert (Some n) None now [] d =
             (Ok (Response 500 (JError "Database error")), d') ∧
           web_skyling_templates d' = web_skyling_templates d ∧
           web_skyling_config d' = web_skyling_config d) ∧
  (∀ oldName newName,
     oldName ∈ row_name <$> web_skyling_templates d →
     (∀ n, newName = Some n → n ≠ "" → n ≠ oldName →
           n ∉ row_name <$> web_skyling_templates d) →
     Rename oldName newName None [] d =
       (Ok (Response 500 (JError "Database error")), d)).
Proof.
  split.
  - intros n now Hn.
    destruct (upsert_template_without_data n now d) as (e & d' & Hst & Ht & Hc).
    exists d'. split; [by apply Upsert_thrown with e | done].
  - intros oldName newName Hold Hfree.
    unfold Rename, run, handle, put_api_templates.
    unfold try_catch, mbind, js_bind, connect, BEGIN, query. simpl.
    destruct (select_template_run oldName d) as [[e ->] | ->]; simpl.
    { unfold ROLLBACK, throw. simpl. by destruct d. }
    rewrite bool_decide_eq_false_2 by (by rewrite select_none; intros []).
    destruct (update_template_without_data (default oldName (truthy newName)) oldName d Hold)
      as [e Hup].
    destruct (truthy newName) as [n|] eqn:Hnew; simpl in *.
    + apply truthy_nonempty in Hnew as [-> Hn].
      case_bool_decide as Hne; simpl.
      * destruct (select_template_run n d) as [[e' ->] | ->]; simpl.
        { unfold ROLLBACK, throw. simpl. by destruct d. }
        rewrite bool_decide_eq_false_2.
        2:{ specialize (Hfree n eq_refl Hn Hne). apply select_none in Hfree. lia. }
        unfold ROLLBACK, throw. simpl. rewrite Hup. simpl. by destruct d.
      * unfold ROLLBACK, throw. simpl. rewrite Hup. simpl. by destruct d.
    + unfold ROLLBACK, throw. simpl. rewrite Hup. simpl. by destruct d.
Qed.

Lemma missing_data_is_rejected_witness :
  Rename "A" (Some "C") None [] two_templates =
    (Ok (Response 500 (JError "Database error")), two_templates) ∧
  ∃ d', Upsert (Some "A") None 30 [] two_templates =
          (Ok (Response 500 (JError "Database error")), d') ∧
        web_skyling_templates d' = web_skyling_templates two_templates.
Proof.
  destruct (missing_data_is_rejected two_templates) as [Hupsert Hrename].
  split.
  - apply Hrename; [by_evaluation|]. intros n [= <-] _ _. by_evaluation.
  - destruct (Hupsert "A" 30%Z) as (d' & E & Ht & _); [by_evaluation|].
    by exists d'.
Defined.



(** ** More on the configuration *)

Lemma set_value_twice k v1 v2 r : set_value k v2 (set_value k v1 r) = set_value k v2 r.
Proof. unfold set_value. repeat (case_decide; simpl in * ); done. Qed.

Lemma upsert_config_present k v d :
  text_ok k → value_ok v →
  k ∈ row_key <$> web_skyling_config d →
  (upsert_config k v d).2 =
    Database (set_value k v <$> web_skyling_config d)
             (web_skyling_templates d) (web_skyling_templates_id_seq d).
Proof.
  intros Hok Hv Hk%has_key_true. rewrite upsert_config_accepted by done.
  simpl. by rewrite Hk.
Qed.

Lemma upsert_config_absent k v d :
  text_ok k → value_ok v →
  k ∉ row_key <$> web_skyling_config d →
  (upsert_config k v d).2 =
    Database (web_skyling_config d ++ [ConfigRow k v])
             (web_skyling_templates d) (web_skyling_templates_id_seq d).
Proof.
  intros Hok Hv Hk%has_key_false. rewrite upsert_config_accepted by done.
  simpl. by rewrite Hk.
Qed.

Lemma set_value_miss k v (rows : list config_row) :
  k ∉ row_key <$> rows → set_value k v <$> rows = rows.
Proof.
  intros Hk. induction rows as [|r rows IH]; [done|].
  rewrite fmap_cons in Hk. apply not_elem_of_cons in Hk as [Hr Hk].
  rewrite fmap_cons, IH by done. unfold set_value. by rewrite decide_False.
Qed.

(** Whatever the statement does, [SetConfig] leaves what the statement
    leaves. *)
Lemma SetConfig_leaves k v d :
  k ≠ "" → (SetConfig (Some k) v [] d).2 = (upsert_config k v d).2.
Proof.
  intros Hk. unfold SetConfig, run, handle, put_api_config.
  rewrite truthy_Some by done.
  unfold try_catch, mbind, js_bind, query. simpl.
  by destruct (upsert_config k v d) as [[[]|e] d'].
Qed.

Lemma upsert_config_refused k v d :
  ¬ (text_ok k ∧ value_ok v) → (upsert_config k v d).2 = d.
Proof.
  intros Hno. unfold upsert_config, prepared.
  destruct (bind_parameters _) eqn:Hps; [done|]. destruct Hno.
  simpl in Hps. destruct (text_ok k); simpl in Hps; [|discriminate Hps].
  destruct v as [s|]; [|split; exact I]. unfold value_ok. simpl in *.
  destruct (text_ok s); [split; exact I | discriminate Hps].
Qed.

(** X5. The last [SetConfig] on a key wins: setting a key twice, the second
    time to a value that the store takes, leaves the database that the
    second call alone would leave. *)
Theorem SetConfig_last_write_wins k v1 v2 d :
  k ≠ "" → value_ok v2 →
  (SetConfig (Some k) v2 [] (SetConfig (Some k) v1 [] d).2).2 =
  (SetConfig (Some k) v2 [] d).2.
Proof.
  intros Hk Hv2. rewrite !SetConfig_leaves by done.
  destruct (decide (text_ok k ∧ value_ok v1)) as [[Hok Hv1]|Hno].
  2:{ by rewrite (upsert_config_refused k v1 d Hno). }
  destruct (decide (k ∈ row_key <$> web_skyling_config d)) as [Hin|Hout].
  - rewrite (upsert_config_present k v1 d), (upsert_config_present k v2 d) by done.
    rewrite upsert_config_present; [| done | done | simpl; by rewrite keys_set_value].
    simpl. f_equal. rewrite <- list_fmap_compose. apply list_fmap_ext.
    intros ? r _. apply set_value_twice.
  - rewrite (upsert_config_absent k v1 d), (upsert_config_absent k v2 d) by done.
    rewrite upsert_config_present; [| done | done |].
    2:{ simpl. rewrite fmap_app. apply elem_of_app. right. apply list_elem_of_here. }
    simpl. f_equal. rewrite fmap_app, set_value_miss by done.
    simpl. unfold set_value. simpl. by rewrite decide_True.
Qed.

Lemma SetConfig_last_write_wins_witness :
  (SetConfig (Some "systemPrompt") (Some "Y") []
     (SetConfig (Some "systemPrompt") (Some "X") [] empty_database).2).2 =
  (SetConfig (Some "systemPrompt") (Some "Y") [] empty_database).2.
Proof. apply SetConfig_last_write_wins; by_evaluation. Defined.

(** ** Rename is all or nothing *)

Lemma rename_row_twice f x o r :
  rename_row f x o (rename_row f x o r) = rename_row f x o r.
Proof.
  unfold rename_row. destruct (decide (row_name r = o)) as [Hr|Hr]; simpl.
  - by case_decide.
  - by rewrite decide_False.
Qed.

Lemma update_template_all_or_nothing d f data o :
  stmt_ok (λ d', d' = d ∨
             ∃ x, data = Some x ∧
                  d' = with_templates d (rename_row f x o <$> web_skyling_templates d))
          (update_template f data o).
Proof.
  apply prepared_ok. intros d' Hd'. cbn beta zeta.
  destruct (has_name o (web_skyling_templates d')) eqn:Hhas;
    [|simpl; split; [done | lia]].
  destruct data as [x|]; [|simpl; split; [done | lia]].
  case_bool_decide as Hnd; [|simpl; split; [done | lia]].
  simpl. split; [|lia]. right. exists x. split; [done|].
  destruct Hd' as [->|(x' & [= <-] & ->)]; [done|].
  unfold with_templates. simpl. f_equal.
  rewrite <- list_fmap_compose. apply list_fmap_ext. intros ? r _.
  apply rename_row_twice.
Qed.

(** X6. Whatever round trips fail, [Rename] leaves the database either
    exactly as it was or with exactly the update applied (the rows named
    [oldName] carry the final name and the new data, nothing else differs);
    there is no state in between. *)
Theorem Rename_all_or_nothing oldName newName data fs d :
  (Rename oldName newName data fs d).2 = d ∨
  ∃ x, data = Some x ∧
       (Rename oldName newName data fs d).2 =
         with_templates d
           (rename_row (default oldName (truthy newName)) x oldName
              <$> web_skyling_templates d).
Proof.
  set (f := default oldName (truthy newName)).
  set (P := λ d', d' = d ∨
              ∃ x, data = Some x ∧
                   d' = with_templates d (rename_row f x oldName <$> web_skyling_templates d)).
  assert (∀ s d0, P s → P d0 →
            (web_skyling_templates_id_seq s ≤ web_skyling_templates_id_seq d0)%Z →
            P (restore (Some s) d0)) as Hrestore.
  { intros s d0 Hs Hd0 _. unfold P in *.
    destruct Hs as [->|(x & Hx & ->)], Hd0 as [->|(x0 & Hx0 & ->)];
      first [ left; by destruct d | right; exists x; split; [done|]; by destruct d ]. }
  apply (run_preserves P Hrestore); [|by left].
  unfold handle, put_api_templates. fold f. clearbody f.
  preserve_by ltac:(first [ apply update_template_all_or_nothing | exact Hrestore ]).
Qed.

Lemma update_template_ok_inv f data o d0 a d :
  bool_decide (length (filter (λ r, row_name r = o) (web_skyling_templates d0)) = 0) = false →
  update_template f data o d0 = (Ok a, d) →
  ∃ x, data = Some x ∧
       d = with_templates d0 (rename_row f x o <$> web_skyling_templates d0).
Proof.
  intros Hsel%bool_decide_eq_false. rewrite select_none in Hsel.
  unfold update_template, prepared. destruct (bind_parameters _); [done|].
  rewrite (proj2 (has_name_true _ _)) by (by apply dec_stable).
  destruct data as [x|]; [|done]. case_bool_decide; [|done].
  intros [= _ <-]. by exists x.
Qed.

(** X7. [Rename] always answers, and the status of the answer tells what
    happened to the database, whatever round trips failed: after a 404 or a
    400 nothing has changed, and after a 200 the update has been applied.
    (After a 500 either may be the case: the failure may have come after
    the commit.) *)
Theorem Rename_answer_tells oldName newName data fs d :
  ∃ resp,
    (Rename oldName newName data fs d).1 = Ok resp ∧
    (status resp = 200%Z ∨ status resp = 400%Z ∨ status resp = 404%Z ∨
     status resp = 500%Z) ∧
    (status resp = 400%Z ∨ status resp = 404%Z →
       (Rename oldName newName data fs d).2 = d) ∧
    (status resp = 200%Z →
       ∃ x, data = Some x ∧
         (Rename oldName newName data fs d).2 =
           with_templates d
             (rename_row (default oldName (truthy newName)) x oldName
                <$> web_skyling_templates d)).
Proof.
  unfold Rename, run, handle, put_api_templates.
  set (f := default oldName (truthy newName)). clearbody f.
  unfold try_catch, mbind, js_bind, mret, js_ret, connect, BEGIN, COMMIT, ROLLBACK,
    query, throw, select_template, select_templates, next_fault, prepared.
  destruct d as [c rows i]. simpl.
  repeat (case_match; simplify_eq/=).
  all: eexists; split; [reflexivity|]; simpl.
  all: split; [tauto|].
  all: split; [intros [?|?]; first [done | lia] | intros ?; first [done | lia | idtac]].
  all: eapply update_template_ok_inv; [|eassumption]; done.
Qed.

(** ** Start-up *)

(** A step that reads: what follows may rely on the value read. *)
Lemma preserves_query_bind (P : database → Prop) {A B}
    (stmt : database → result A * database) (k : A → js B) :
  stmt_ok P stmt →
  (∀ d a, P d → (stmt d).1 = Ok a → preserves P (k a)) →
  preserves P (query stmt ≫= k).
Proof.
  intros Hs Hk [d t fs] [Hd Ht]. unfold mbind, js_bind, query. simpl in *.
  destruct (next_fault _) as [[] rest]; simpl; [by split|].
  destruct (Hs d Hd) as [HP Hle].
  destruct (stmt d) as [[a|e] d'] eqn:Hst; simpl in *.
  - apply (Hk d a Hd); [by rewrite Hst|]. split; [done|]. simpl.
    destruct t as [s|]; [|done]. destruct Ht. split; [done | lia].
  - split; [done|]. simpl. destruct t as [s|]; [|done]. destruct Ht. split; [done | lia].
Qed.

Lemma insert_template_do_nothing_keeps_config c n x now :
  stmt_ok (λ d, web_skyling_config d = c) (insert_template_do_nothing n x now).
Proof.
  apply prepared_ok. intros d Hd. unfold nextval, with_templates.
  case_bool_decide; [|simpl; split; [done | lia]]. simpl.
  destruct n as [n|], x as [x|]; simpl; try (split; [done | lia]).
  destruct (has_name n _); simpl; (split; [done | lia]).
Qed.

Lemma insert_config_keeps_templates rows k v :
  stmt_ok (λ d, web_skyling_templates d = rows) (insert_config k v).
Proof.
  apply prepared_ok. intros d Hd. cbn beta.
  destruct (has_key k _); simpl; (split; [done | lia]).
Qed.

(** X8. Start-up seeds and migrates only into empty relations, whatever
    the seed files hold and whichever round trips fail: a configuration
    relation that has a row is left as it is, and so is a template relation
    that has a row. *)
Theorem initDB_keeps_populated rags pdf jsonTemplates now fs d :
  (web_skyling_config d ≠ [] →
     web_skyling_config (run (initDB rags pdf jsonTemplates now) fs d).2 =
       web_skyling_config d) ∧
  (web_skyling_templates d ≠ [] →
     web_skyling_templates (run (initDB rags pdf jsonTemplates now) fs d).2 =
       web_skyling_templates d).
Proof.
  split; intros Hne.
  - apply (run_preserves (λ d', web_skyling_config d' = web_skyling_config d));
      [by intros ? ? ? ? _ | | done].
    unfold initDB. apply preserves_try_catch; [|intros ?; apply preserves_mret].
    apply preserves_bind; [apply preserves_query, @read_only_ok | intros _].
    apply preserves_bind; [apply preserves_query, @read_only_ok | intros _].
    apply preserves_query_bind; [apply @read_only_ok|].
    intros d0 a Hd0 [= <-]. rewrite bool_decide_eq_false_2.
    2:{ rewrite Hd0. by destruct (web_skyling_config d). }
    apply preserves_bind; [apply preserves_mret | intros _].
    apply preserves_bind; [apply preserves_query, @read_only_ok | intros ?].
    preserve_by fail.
    apply preserves_migrate_templates. intros. apply insert_template_do_nothing_keeps_config.
  - apply (run_preserves (λ d', web_skyling_templates d' = web_skyling_templates d));
      [by intros ? ? ? ? _ | | done].
    unfold initDB. apply preserves_try_catch; [|intros ?; apply preserves_mret].
    apply preserves_bind; [apply preserves_query, @read_only_ok | intros _].
    apply preserves_bind; [apply preserves_query, @read_only_ok | intros _].
    apply preserves_bind; [apply preserves_query, @read_only_ok | intros ?].
    apply preserves_bind.
    { case_match; [|apply preserves_mret].
      apply preserves_seed_from_files. intros. apply insert_config_keeps_templates. }
    intros _. apply preserves_query_bind; [apply @read_only_ok|].
    intros d0 a0 Hd0 [= <-]. rewrite bool_decide_eq_false_2.
    2:{ rewrite Hd0. by destruct (web_skyling_templates d). }
    apply preserves_mret.
Qed.

Lemma initDB_keeps_populated_witness :
  web_skyling_templates
    (run (initDB {[ "estructura.txt" := RegularFile "S" ]} (λ _, None)
            (Some [(Some "Z", Some (TemplateData "" "" ""))]) (λ _, 0%Z))
         [] two_templates).2 = web_skyling_templates two_templates.
Proof.
  apply (initDB_keeps_populated {[ "estructura.txt" := RegularFile "S" ]} (λ _, None)
           (Some [(Some "Z", Some (TemplateData "" "" ""))]) (λ _, 0%Z) [] two_templates).
  by_evaluation.
Defined.

Lemma seed_config_available entries c rows i t :
  NoDup (entries.*1) →
  (∀ k, k ∈ entries.*1 → k ∉ row_key <$> c) →
  Forall (λ e, text_ok e.1) entries →
  Forall (λ e, text_ok e.2) entries →
  seed_config entries (World (Database c rows i) t []) =
    (Ok (),
     World (Database
              (c ++ ((λ e, ConfigRow e.1 (Some e.2)) <$> filter (λ e, e.2 ≠ "") entries))
              rows i) t []).
Proof.
  revert c. induction entries as [|[k v] entries IH]; intros c Hnd Hfresh Hkeys Hvalues.
  - simpl. by rewrite app_nil_r.
  - rewrite fmap_cons in Hnd. apply NoDup_cons in Hnd as [Hk Hnd]. simpl in Hk.
    apply Forall_cons in Hkeys as [Hkok Hkeys].
    apply Forall_cons in Hvalues as [Hvok Hvalues].
    simpl. rewrite filter_cons. simpl. destruct (decide (v = "")) as [->|Hv].
    + rewrite decide_False by tauto.
      unfold mbind, js_bind, mret, js_ret. apply IH; [done | | done | done].
      intros k' Hk'. apply Hfresh. rewrite fmap_cons. by right.
    + rewrite decide_True by done.
      unfold mbind, js_bind, query. simpl.
      rewrite insert_config_accepted; [| done | done |].
      2:{ apply Hfresh. rewrite fmap_cons. by left. }
      rewrite IH; [by rewrite <- (assoc_L (++)) | done | | done | done].
      intros k' Hk'. simpl. rewrite fmap_app. simpl. rewrite not_elem_of_app. split.
      * apply Hfresh. rewrite fmap_cons. by right.
      * intros ->%list_elem_of_singleton. done.
Qed.

Lemma migrate_templates_frame jsonTemplates now i w :
  web_skyling_config (db (migrate_templates jsonTemplates now i w).2) =
    web_skyling_config (db w) ∧
  txn (migrate_templates jsonTemplates now i w).2 = txn w.
Proof.
  revert i w. induction jsonTemplates as [|[n x] ts IH]; intros i w; [done|].
  simpl. unfold mbind, js_bind, query.
  destruct (next_fault w) as [[] rest]; simpl; [done|].
  pose proof (insert_template_do_nothing_keeps_config _ n x (now i) (db w) eq_refl)
    as [Hc _].
  destruct (insert_template_do_nothing n x (now i) (db w)) as [[[]|e] d']; simpl in *.
  - destruct (IH (S i) (World d' (txn w) rest)) as [-> ->]. done.
  - done.
Qed.

(** The seed that [initDB] loads has the five keys of [seedData]. *)
Lemma load_seedData_keys rags pdf seed :
  load_seedData rags pdf = Some seed →
  seed.*1 = ["structure"; "output"; "limitations"; "systemPrompt"; "knowledge"].
Proof.
  unfold load_seedData. destruct (knowledge_text rags pdf); [|done].
  by intros [= <-].
Qed.

Lemma seed_from_files_available rags pdf seed rows i t :
  load_seedData rags pdf = Some seed →
  Forall (λ e, text_ok e.2) seed →
  seed_from_files rags pdf (World (Database [] rows i) t []) =
    (Ok (),
     World (Database ((λ e, ConfigRow e.1 (Some e.2)) <$> filter (λ e, e.2 ≠ "") seed)
                     rows i) t []).
Proof.
  intros Hload Hvalues. unfold seed_from_files. rewrite Hload.
  pose proof (load_seedData_keys rags pdf seed Hload) as Hkeys.
  apply (seed_config_available seed [] rows i t); [| | | done].
  - rewrite Hkeys. by_evaluation.
  - intros. apply not_elem_of_nil.
  - apply Forall_forall. intros [k v] Hin. simpl.
    assert (k ∈ seed.*1) as Hk by (by apply (list_elem_of_fmap_2 fst _ (k, v))).
    rewrite Hkeys in Hk.
    repeat (apply elem_of_cons in Hk as [->|Hk]; [exact I|]).
    by apply elem_of_nil in Hk.
Qed.

Lemma seed_ok_loads rags pdf :
  seed_ok rags pdf →
  ∃ seed, load_seedData rags pdf = Some seed ∧ Forall (λ e, text_ok e.2) seed.
Proof.
  unfold seed_ok. destruct (load_seedData rags pdf) as [seed|]; [|done].
  intros Hall%Is_true_true. exists seed. split; [done|].
  rewrite forallb_forall in Hall. apply Forall_forall.
  intros e He. apply Is_true_true, Hall. by apply list_elem_of_In.
Qed.

(** The seeding step of [initDB] goes through when there is nothing to seed
    or the seed files are in order. *)
Lemma seeding_step rags pdf c rows s :
  c ≠ [] ∨ seed_ok rags pdf →
  ∃ c',
    (if bool_decide (length c = 0) then seed_from_files rags pdf else mret ())
      (World (Database c rows s) None []) =
    (Ok (), World (Database c' rows s) None []).
Proof.
  intros Hseed. destruct c as [|r c]; simpl.
  - destruct Hseed as [?|(seed & Hload & Hvalues)%seed_ok_loads]; [done|].
    eexists. by apply (seed_from_files_available rags pdf seed).
  - by eexists.
Qed.

(** What seeding leaves in an empty configuration relation. *)
Lemma seeding_fills_empty_config rags pdf seed jsonTemplates now d :
  web_skyling_config d = [] →
  load_seedData rags pdf = Some seed →
  Forall (λ e, text_ok e.2) seed →
  seed.*1 = ["structure"; "output"; "limitations"; "systemPrompt"; "knowledge"] ∧
  web_skyling_config (run (initDB rags pdf jsonTemplates now) [] d).2 =
    (λ e, ConfigRow e.1 (Some e.2)) <$> filter (λ e, e.2 ≠ "") seed.
Proof.
  intros Hc Hload Hvalues. split; [by apply (load_seedData_keys rags pdf)|].
  destruct d as [c rows i]. simpl in Hc. subst c.
  unfold run, initDB, try_catch.
  unfold mbind at 1 2 3 4. unfold js_bind, query. simpl.
  rewrite (seed_from_files_available rags pdf seed rows i None Hload Hvalues).
  unfold mbind, js_bind, mret, js_ret. simpl.
  destruct (bool_decide (length rows = 0)); [|done].
  destruct jsonTemplates as [ts|]; [|done].
  pose proof (migrate_templates_frame ts now 0
    (World (Database ((λ e, ConfigRow e.1 (Some e.2)) <$> filter (λ e, e.2 ≠ "") seed)
                     rows i) None [])) as [Hcfg Htxn].
  simpl in *.
  destruct (migrate_templates ts now 0 _) as [[[]|e] [d' t' fs']]; simpl in *;
    subst t'; done.
Qed.

(** X9. On a database whose configuration relation is empty and with the
    store available, when the seed files can be read (the knowledge text
    file is readable or absent) and hold no character of code 0, start-up
    stores one row for each of the five seed entries whose content is not
    empty, in the order of [seedData], with that content; an entry whose
    file is missing or empty gets no row.  This holds whatever
    [templates.json] contains. *)
Theorem initDB_seeds_empty_config rags pdf seed jsonTemplates now d :
  web_skyling_config d = [] →
  load_seedData rags pdf = Some seed →
  Forall (λ e, text_ok e.2) seed →
  seed.*1 = ["structure"; "output"; "limitations"; "systemPrompt"; "knowledge"] ∧
  web_skyling_config (run (initDB rags pdf jsonTemplates now) [] d).2 =
    (λ e, ConfigRow e.1 (Some e.2)) <$> filter (λ e, e.2 ≠ "") seed.
Proof. apply seeding_fills_empty_config. Qed.

Lemma initDB_seeds_empty_config_witness :
  web_skyling_config
    (run (initDB {[ "estructura.txt" := RegularFile "S"; "output.txt" := RegularFile "";
                    "limitaciones.txt" := RegularFile "L";
                    "systemprompt.txt" := RegularFile "P" ]} (λ _, None)
            None (λ _, 0%Z)) [] empty_database).2 =
  [ConfigRow "structure" (Some "S"); ConfigRow "limitations" (Some "L");
   ConfigRow "systemPrompt" (Some "P")].
Proof.
  destruct (initDB_seeds_empty_config
              {[ "estructura.txt" := RegularFile "S"; "output.txt" := RegularFile "";
                 "limitaciones.txt" := RegularFile "L";
                 "systemprompt.txt" := RegularFile "P" ]} (λ _, None)
              (seedData "S" "" "L" "P" "") None (λ _, 0%Z) empty_database)
    as [_ Hrows].
  - reflexivity.
  - reflexivity.
  - by_evaluation.
  - rewrite Hrows. reflexivity.
Defined.

Lemma migrate_templates_cons n x ts now i w :
  migrate_templates ((n, x) :: ts) now i w =
    match query (insert_template_do_nothing n x (now i)) w with
    | (Ok _, w') => migrate_templates ts now (S i) w'
    | (Throw e, w') => (Throw e, w')
    end.
Proof. reflexivity. Qed.

Lemma query_available {A} (stmt : database → result A * database) d t :
  query stmt (World d t []) = let '(r, d') := stmt d in (r, World d' t []).
Proof. reflexivity. Qed.

(** An entry without a name or without data is not stored. *)
Lemma insert_template_do_nothing_incomplete n x now c rows s :
  n = None ∨ x = None →
  ∃ e s', insert_template_do_nothing n x now (Database c rows s) =
            (Throw e, Database c rows s').
Proof.
  intros Hbad. unfold insert_template_do_nothing, prepared.
  destruct (bind_parameters _); [by eexists _, _|].
  unfold nextval. case_bool_decide; [|by eexists _, _]. simpl.
  destruct Hbad as [-> | ->]; [|destruct n]; by eexists _, _.
Qed.

Lemma migrate_templates_available good tail now i c rows s t :
  NoDup (good.*1) →
  (∀ n, n ∈ good.*1 → n ∉ row_name <$> rows) →
  Forall (λ e, key_ok e.1 ∧ data_ok e.2) good →
  (s + Z.of_nat (length good) ≤ MAXVALUE)%Z →
  (tail = [] ∨ ∃ bad rest, tail = bad :: rest ∧ (bad.1 = None ∨ bad.2 = None)) →
  ∃ r s',
    migrate_templates (((λ e, (Some e.1, Some e.2)) <$> good) ++ tail) now i
      (World (Database c rows s) t []) =
    (r, World (Database c
                 (rows ++ imap (λ j e, TemplateRow (s + 1 + Z.of_nat j) e.1 e.2 (now (i + j)))
                            good) s') t []).
Proof.
  intros Hnd Hfresh Hok Hseq Htail. revert rows s i Hfresh Hseq.
  induction good as [|[n x] good IH]; intros rows s i Hfresh Hseq.
  - rewrite fmap_nil, app_nil_l. cbn [imap]. rewrite app_nil_r.
    destruct Htail as [->|(bad & rest & -> & Hbad)].
    + by eexists _, _.
    + destruct bad as [bn bx]. simpl in Hbad.
      rewrite migrate_templates_cons, query_available.
      destruct (insert_template_do_nothing_incomplete bn bx (now i) c rows s Hbad)
        as (e & s' & ->).
      by eexists _, _.
  - rewrite fmap_cons in Hnd. apply NoDup_cons in Hnd as [Hn Hnd]. simpl in Hn.
    apply Forall_cons in Hok as [[Hkey%key_ok_text Hx] Hok]. simpl in Hkey, Hx.
    rewrite length_cons in Hseq.
    rewrite fmap_cons, <- app_comm_cons. cbn [fst snd].
    rewrite migrate_templates_cons, query_available.
    rewrite insert_template_do_nothing_accepted by (first [done | simpl; lia]).
    cbn [web_skyling_templates web_skyling_config web_skyling_templates_id_seq].
    rewrite (proj2 (has_name_false n rows)).
    2:{ apply Hfresh. rewrite fmap_cons. by left. }
    destruct (IH Hnd Hok (rows ++ [TemplateRow (s + 1) n x (now i)]) (s + 1)%Z (S i))
      as (r & s' & E).
    { intros n' Hn'. rewrite fmap_app. rewrite not_elem_of_app. split.
      - apply Hfresh. rewrite fmap_cons. by right.
      - intros ->%list_elem_of_singleton. done. }
    { lia. }
    exists r, s'. rewrite E. do 3 f_equal. rewrite <- (assoc_L (++)). f_equal.
    cbn [imap Datatypes.app fst snd]. f_equal.
    + f_equal; [lia | f_equal; lia].
    + apply imap_ext. intros j e _. simpl. f_equal; [lia | f_equal; lia].
Qed.

(** X10. On a database without templates and with the store available,
    once the seeding step is through (there is nothing to seed, or the seed
    files are in order), start-up migrates [templates.json]: well-formed
    entries with pairwise different names, which the store takes and for
    which the sequence has ids left, are stored in the order of the file,
    with consecutive ids and the time of their insertion.  The first entry
    that lacks a name or data ends the migration: the entries before it are
    kept, it and all entries after it are not stored. *)
Theorem initDB_migrates_in_order rags pdf good tail now d :
  web_skyling_templates d = [] →
  web_skyling_config d ≠ [] ∨ seed_ok rags pdf →
  NoDup (good.*1) →
  Forall (λ e, key_ok e.1 ∧ data_ok e.2) good →
  (web_skyling_templates_id_seq d + Z.of_nat (length good) ≤ MAXVALUE)%Z →
  (tail = [] ∨ ∃ bad rest, tail = bad :: rest ∧ (bad.1 = None ∨ bad.2 = None)) →
  web_skyling_templates
    (run (initDB rags pdf (Some (((λ e, (Some e.1, Some e.2)) <$> good) ++ tail)) now)
         [] d).2 =
  imap (λ j e, TemplateRow (web_skyling_templates_id_seq d + 1 + Z.of_nat j) e.1 e.2 (now j))
       good.
Proof.
  intros Hrows Hseed Hnd Hok Hseq Htail. destruct d as [c rows s].
  simpl in Hrows, Hseed, Hseq. subst rows.
  unfold run, initDB, try_catch.
  unfold mbind at 1 2 3 4. unfold js_bind, query. simpl.
  destruct (seeding_step rags pdf c [] s Hseed) as [c' ->].
  unfold mbind, js_bind, mret, js_ret. simpl.
  destruct (migrate_templates_available good tail now 0 c' [] s None Hnd)
    as (r & s' & E); [intros; apply not_elem_of_nil | done | done | done |].
  rewrite E. simpl. by destruct r.
Qed.

Lemma initDB_migrates_in_order_witness :
  web_skyling_templates
    (run (initDB {[ "estructura.txt" := RegularFile "S" ]} (λ _, None)
            (Some [(Some "A", Some (TemplateData "a" "" ""));
                   (Some "B", Some (TemplateData "b" "" ""));
                   (None, Some (TemplateData "c" "" ""));
                   (Some "D", Some (TemplateData "d" "" ""))])
            (λ j, 100 + Z.of_nat j)%Z) [] empty_database).2 =
  [TemplateRow 1 "A" (TemplateData "a" "" "") 100;
   TemplateRow 2 "B" (TemplateData "b" "" "") 101].
Proof.
  apply (initDB_migrates_in_order {[ "estructura.txt" := RegularFile "S" ]} (λ _, None)
           [("A", TemplateData "a" "" ""); ("B", TemplateData "b" "" "")]
           [(None, Some (TemplateData "c" "" ""));
            (Some "D", Some (TemplateData "d" "" ""))]
           (λ j, 100 + Z.of_nat j)%Z empty_database).
  - reflexivity.
  - right. by_evaluation.
  - by_evaluation.
  - by_evaluation.
  - by_evaluation.
  - right. eexists _, _. split; [reflexivity|]. by left.
Defined.

(** ** The session gate *)

Lemma catch_all_answers (body : js response) resp fs d :
  ∃ resp', (run (try_catch body (λ _, mret resp)) fs d).1 = Ok resp'.
Proof.
  unfold run, try_catch. destruct (body _) as [[a|e] w']; by eexists.
Qed.

(** Every handler answers, whatever fails. *)
Lemma handle_always_answers r now fs d : ∃ resp, (run (handle r now) fs d).1 = Ok resp.
Proof.
  destruct r; simpl.
  - apply catch_all_answers.
  - unfold put_api_config. destruct (truthy key); [apply catch_all_answers | by eexists].
  - apply catch_all_answers.
  - unfold post_api_templates.
    destruct (truthy name); [apply catch_all_answers | by eexists].
  - apply catch_all_answers.
  - apply catch_all_answers.
Qed.

(** Without a session a request at a path that is not public changes
    neither the session nor the database. *)
Lemma app_shut_out env path rt now fs d :
  path ∉ publicRoutes → (app env path rt now fs (None, d)).2 = (None, d).
Proof.
  intros Hpath. unfold app, intercept. cbn [fst snd].
  rewrite (bool_decide_eq_false_2 (path ∈ publicRoutes)) by done.
  rewrite (bool_decide_eq_false_2 (is_Some None)) by (by intros [? ?]).
  case_bool_decide; [done|]. by destruct (String.prefix "/api/" path).
Qed.



(** X12. [POST /api/login] opens a session exactly when both credentials
    are configured (set and not empty) and the request carries exactly
    them; the session then holds the user name.  In every other case the
    session stays as it was: with a 500 when a credential is not
    configured, even if the request matches what is there, and with the
    401 of invalid credentials when both are configured and the request
    does not match them.  The database is never touched. *)
Theorem login_opens_session_iff env username password now fs user d :
  ∃ rep user',
    app env "/api/login" (Login username password) now fs (user, d) = (rep, (user', d)) ∧
    (rep = Success ↔
       ∃ u p, USER_USERNAME env = Some u ∧ USER_PASSWORD env = Some p ∧
              u ≠ "" ∧ p ≠ "" ∧ username = Some u ∧ password = Some p) ∧
    (rep = Success → user' = username) ∧
    (rep ≠ Success → user' = user) ∧
    (truthy (USER_USERNAME env) = None ∨ truthy (USER_PASSWORD env) = None →
       rep = Json (Response 500 (JError "Server Auth Config Error"))) ∧
    (∀ u p, USER_USERNAME env = Some u → USER_PASSWORD env = Some p →
            u ≠ "" → p ≠ "" → ¬ (username = Some u ∧ password = Some p) →
       rep = Json (Response 401 (JError "Invalid credentials"))).
Proof.
  unfold app, intercept. rewrite bool_decide_eq_true_2 by by_evaluation.
  unfold post_api_login. cbn [fst snd].
  destruct (truthy (USER_USERNAME env)) as [u|] eqn:Hu;
    [destruct (truthy (USER_PASSWORD env)) as [p|] eqn:Hp|].
  - apply truthy_nonempty in Hu as [Hu Hune], Hp as [Hp Hpne].
    destruct (bool_decide (username = Some u)) eqn:Hbu;
      [destruct (bool_decide (password = Some p)) eqn:Hbp|]; simpl.
    + apply bool_decide_eq_true in Hbu, Hbp.
      eexists _, _. split; [done|]. split_and!; try done.
      * split; [intros _; by exists u, p | done].
      * intros [?|?]; done.
      * intros u' p' Hu' Hp' _ _ []. split; congruence.
    + apply bool_decide_eq_false in Hbp.
      eexists _, _. split; [done|]. split_and!; try done.
      * split; [done | intros (u' & p' & ? & ? & ? & ? & ? & ?); congruence].
      * intros [?|?]; done.
    + apply bool_decide_eq_false in Hbu.
      eexists _, _. split; [done|]. split_and!; try done.
      * split; [done | intros (u' & p' & ? & ? & ? & ? & ? & ?); congruence].
      * intros [?|?]; done.
  - eexists _, _. split; [done|]. split_and!; try done.
    + split; [done | intros (u' & p' & ? & Hp' & ? & ? & ? & ?)].
      rewrite Hp', truthy_Some in Hp by done. done.
    + intros u' p' _ Hp' _ Hpne _. rewrite Hp', truthy_Some in Hp by done. done.
  - eexists _, _. split; [done|]. split_and!; try done.
    + split; [done | intros (u' & p' & Hu' & ? & ? & ? & ? & ?)].
      rewrite Hu', truthy_Some in Hu by done. done.
    + intros u' p' Hu' _ Hune _ _. rewrite Hu', truthy_Some in Hu by done. done.
Qed.

Lemma login_opens_session_iff_witness :
  (app (AuthEnv (Some "admin") (Some "secret")) "/api/login"
       (Login (Some "admin") (Some "wrong")) 0 [] (None, two_templates)).1 =
    Json (Response 401 (JError "Invalid credentials")).
Proof.
  destruct (login_opens_session_iff (AuthEnv (Some "admin") (Some "secret"))
              (Some "admin") (Some "wrong") 0 [] None two_templates)
    as (rep & user' & E & _ & _ & _ & _ & Hinvalid).
  rewrite E. apply (Hinvalid "admin" "secret").
  - reflexivity.
  - reflexivity.
  - by_evaluation.
  - by_evaluation.
  - by_evaluation.
Defined.

(** X13. The life of a session.  With credentials configured, logging in
    from no session gives a session; with it, a request for any store
    operation at any path gets the answer of the handler and the database
    the handler leaves; after a logout that succeeds the session is gone,
    and the same request at a path that is not public is shut out again
    without touching the database. *)
Theorem session_lifecycle env u p path r now fs d :
  USER_USERNAME env = Some u → USER_PASSWORD env = Some p → u ≠ "" → p ≠ "" →
  app env "/api/login" (Login (Some u) (Some p)) now [] (None, d) =
    (Success, (Some u, d)) ∧
  (∃ resp,
     (run (handle r now) fs d).1 = Ok resp ∧
     app env path (Store r) now fs (Some u, d) =
       (Json resp, (Some u, (run (handle r now) fs d).2))) ∧
  app env "/api/logout" (Logout false) now [] (Some u, d) = (Success, (None, d)) ∧
  (path ∉ publicRoutes → (app env path (Store r) now fs (None, d)).2 = (None, d)).
Proof.
  intros Hu Hp Hune Hpne. split_and!.
  - unfold app, intercept. rewrite bool_decide_eq_true_2 by by_evaluation.
    unfold post_api_login. cbn [fst snd]. rewrite Hu, Hp, !truthy_Some by done.
    by rewrite !bool_decide_eq_true_2.
  - destruct (handle_always_answers r now fs d) as [resp Hresp].
    exists resp. split; [done|].
    unfold app, intercept. cbn [fst snd].
    rewrite (bool_decide_eq_true_2 (is_Some (Some u))) by by eexists.
    destruct (run (handle r now) fs d) as [res d']. simpl in *. subst res.
    by destruct (bool_decide (path ∈ publicRoutes)).
  - unfold app, intercept. cbn [fst snd].
    rewrite (bool_decide_eq_true_2 (is_Some (Some u))) by by eexists.
    by destruct (bool_decide _).
  - apply app_shut_out.
Qed.

Lemma session_lifecycle_witness :
  app (AuthEnv (Some "admin") (Some "secret")) "/api/login"
      (Login (Some "admin") (Some "secret")) 0 [] (None, two_templates) =
    (Success, (Some "admin", two_templates)).
Proof.
  apply (session_lifecycle (AuthEnv (Some "admin") (Some "secret")) "admin" "secret"
           "/api/templates" GET_templates 0 [] two_templates);
    first [reflexivity | by_evaluation].
Defined.

(** ** Generation *)

Lemma pump_error events written status message :
  pump events written = GenError status message → status = 500%Z.
Proof.
  revert written. induction events as [|[content|m] events IH]; intros written; simpl.
  - done.
  - destruct (truthy content); apply IH.
  - destruct written; [by intros [= <- _] | done].
Qed.

(** X14. [POST /api/generate] answers 400 for a missing key exactly when
    neither the request nor the environment holds a non-empty key, and then
    no client for the model API is made.  A non-empty key in the request is
    the one used, trimmed, whatever the environment holds; the key of the
    environment is used only when the request has none. *)
Theorem generate_needs_a_key apiKey envKey api :
  (generated_reply (post_api_generate apiKey envKey api) =
     GenError 400 "Missing API Key" ↔
   (apiKey = None ∨ apiKey = Some "") ∧ (envKey = None ∨ envKey = Some "")) ∧
  ((apiKey = None ∨ apiKey = Some "") ∧ (envKey = None ∨ envKey = Some "") →
   client_key (post_api_generate apiKey envKey api) = None) ∧
  (∀ k, apiKey = Some k → k ≠ "" →
     client_key (post_api_generate apiKey envKey api) = Some (trim k)) ∧
  (∀ k, apiKey = None ∨ apiKey = Some "" → envKey = Some k → k ≠ "" →
     client_key (post_api_generate apiKey envKey api) = Some (trim k)).
Proof.
  rewrite <- !truthy_None_iff. unfold post_api_generate, keyToUse.
  split_and!.
  - destruct (truthy apiKey) as [k|] eqn:Ha; [|destruct (truthy envKey) as [k|] eqn:He];
      simpl.
    + split; [|by intros [? _]].
      destruct (api (trim k)) as [m|events]; [done|].
      intros Hp. pose proof Hp as ?%pump_error. done.
    + split; [|by intros [_ ?]].
      destruct (api (trim k)) as [m|events]; [done|].
      intros Hp. pose proof Hp as ?%pump_error. done.
    + done.
  - intros [-> ->]. done.
  - intros k -> Hk. by rewrite truthy_Some.
  - intros k Ha -> Hk. apply truthy_None_iff in Ha. by rewrite Ha, truthy_Some.
Qed.

Lemma pump_deltas contents written :
  pump (Delta <$> contents) written = GenText (written ++ omap truthy contents).
Proof.
  revert written. induction contents as [|c contents IH]; intros written.
  - simpl. by rewrite app_nil_r.
  - rewrite fmap_cons. cbn [pump omap list_omap].
    destruct (truthy c) as [text|]; rewrite IH; [|done].
    by rewrite <- (assoc_L (++)).
Qed.

Lemma pump_break contents message rest written :
  pump ((Delta <$> contents) ++ Broken message :: rest) written =
    match written ++ omap truthy contents with
    | [] => GenError 500 message
    | texts => GenText texts
    end.
Proof.
  revert written. induction contents as [|c contents IH]; intros written.
  - simpl. rewrite app_nil_r. by destruct written.
  - rewrite fmap_cons, <- app_comm_cons. cbn [pump omap list_omap].
    destruct (truthy c) as [text|]; rewrite IH; [|done].
    by rewrite <- (assoc_L (++)).
Qed.

Lemma append_empty_r s : s +:+ "" = s.
Proof.
  induction s as [|a s IH]; [done|].
  change (String a (s +:+ "") = String a s). by rewrite IH.
Qed.

Lemma concat_cons s l : String.concat "" (s :: l) = s +:+ String.concat "" l.
Proof. destruct l as [|s' l]; simpl; [by rewrite append_empty_r | done]. Qed.

Lemma concat_texts contents :
  String.concat "" (omap truthy contents) = String.concat "" (default "" <$> contents).
Proof.
  induction contents as [|c contents IH]; [done|].
  rewrite fmap_cons. cbn [omap list_omap]. rewrite (concat_cons (default "" c)).
  destruct c as [s|]; simpl; [|done].
  case_decide as Hs; [by subst | by rewrite concat_cons, IH].
Qed.

(** X15. Streaming.  When the stream of the model API ends normally, the
    reply is the text of all chunks in order, chunks without text counting
    for nothing.  When the stream breaks before any text was written, the
    reply is a 500 with the message of the failure.  When it breaks after
    some text was written, the reply is that text, ended normally: it is
    the reply that a complete stream of the same chunks would have got, and
    what follows the break is never read. *)
Theorem generate_stream_replies contents message rest :
  pump (Delta <$> contents) [] = GenText (omap truthy contents) ∧
  body_text (omap truthy contents) = String.concat "" (default "" <$> contents) ∧
  pump ((Delta <$> contents) ++ Broken message :: rest) [] =
    (if decide (body_text (omap truthy contents) = "")
     then GenError 500 message
     else pump (Delta <$> contents) []).
Proof.
  split_and!.
  - apply (pump_deltas contents []).
  - apply concat_texts.
  - rewrite (pump_break contents message rest []), (pump_deltas contents []).
    simpl. unfold body_text.
    destruct (omap truthy contents) as [|text texts] eqn:Htexts; [done|].
    rewrite decide_False; [done|].
    assert (text ∈ omap truthy contents) as Hin by (rewrite Htexts; left).
    apply list_elem_of_omap in Hin as (c & _ & [_ Hne]%truthy_nonempty).
    rewrite concat_cons. destruct text; [done | discriminate].
Qed.

Lemma length_list_ascii_of_string s :
  length (String.list_ascii_of_string s) = String.length s.
Proof. induction s as [|a s IH]; simpl; [done | by rewrite IH]. Qed.

Lemma substring_take_drop s start stop :
  let chars := String.list_ascii_of_string s in
  let n := length chars in
  let a := Z.to_nat (Z.max 0 (Z.min start (Z.of_nat n))) in
  let b := Z.to_nat (Z.max 0 (Z.min (default (Z.of_nat n) stop) (Z.of_nat n))) in
  a ≤ b →
  substring s start stop = String.string_of_list_ascii (take (b - a) (drop a chars)).
Proof.
  intros chars n a b Hab. unfold substring. fold chars. fold n. fold a. fold b.
  by rewrite Nat.min_l, Nat.max_r by done.
Qed.

Lemma string_of_chars_app (l1 l2 : list Ascii.ascii) :
  String.string_of_list_ascii (l1 ++ l2) =
    String.string_of_list_ascii l1 +:+ String.string_of_list_ascii l2.
Proof.
  induction l1 as [|a l1 IH]; [done|].
  change (String a (String.string_of_list_ascii (l1 ++ l2)) =
          String a (String.string_of_list_ascii l1 +:+ String.string_of_list_ascii l2)).
  by rewrite IH.
Qed.

Lemma visible_chars key :
  let chars := String.list_ascii_of_string key in
  visible key =
    String.string_of_list_ascii
      (take 10 chars ++ String.list_ascii_of_string "..." ++
       drop (length chars - 4) chars).
Proof.
  intros chars. set (n := length chars).
  rewrite !string_of_chars_app, String.string_of_list_ascii_of_string.
  unfold visible. rewrite <- length_list_ascii_of_string. fold chars. fold n.
  assert (substring key 0 (Some 10%Z) = String.string_of_list_ascii (take 10 chars)) as ->.
  { rewrite substring_take_drop; fold chars; fold n; simpl; [|lia].
    f_equal. replace (Z.to_nat (0 `max` (0 `min` Z.of_nat n))) with 0 by lia.
    rewrite drop_0, Nat.sub_0_r.
    destruct (decide (n ≤ 10)).
    - rewrite !take_ge; [done | fold n; lia..].
    - f_equal. lia. }
  assert (substring key (Z.of_nat n - 4) None =
          String.string_of_list_ascii (drop (n - 4) chars)) as ->; [|done].
  rewrite substring_take_drop; fold chars; fold n; simpl; [|lia].
  f_equal.
  replace (Z.to_nat (0 `max` ((Z.of_nat n - 4) `min` Z.of_nat n))) with (n - 4) by lia.
  replace (Z.to_nat (0 `max` (Z.of_nat n `min` Z.of_nat n))) with n by lia.
  apply take_ge. rewrite length_drop. fold n. lia.
Qed.

Lemma short_key_chars (chars : list Ascii.ascii) :
  length chars ≤ 14 →
  chars = take 10 chars ++ drop (10 - (length chars - 4)) (drop (length chars - 4) chars).
Proof.
  intros Hn. rewrite drop_drop.
  replace (length chars - 4 + (10 - (length chars - 4))) with 10 by lia.
  by rewrite take_drop.
Qed.

(** X16. The key is logged as its first ten characters, three dots and its
    last four.  For a key of at most fourteen characters these two parts
    meet or overlap, so every character of the key is in the log line: the
    key is the first part followed by the end of the second, from the
    place that the length of the key gives.  The line and the length
    together determine such a key; the line alone does not, a key of 13
    and one of 14 characters can be logged as the same line. *)
Theorem key_in_the_log :
  (∀ apiKey envKey api key,
     keyToUse apiKey envKey = Some key →
     let chars := String.list_ascii_of_string (trim key) in
     let n := length chars in
     let head := take 10 chars in
     let tail := drop (n - 4) chars in
     logged_key (post_api_generate apiKey envKey api) =
       Some (String.string_of_list_ascii head +:+ "..." +:+
             String.string_of_list_ascii tail) ∧
     (n ≤ 14 → chars = head ++ drop (10 - (n - 4)) tail)) ∧
  (∀ key1 key2,
     String.length key1 = String.length key2 → String.length key1 ≤ 14 →
     visible key1 = visible key2 → key1 = key2) ∧
  visible "abcdefghijklm" = visible "abcdefghijjklm".
Proof.
  split_and!.
  - intros apiKey envKey api key Hkey chars n head tail. split.
    + unfold post_api_generate. rewrite Hkey. simpl. f_equal.
      rewrite visible_chars. fold chars. fold n.
      by rewrite !string_of_chars_app, String.string_of_list_ascii_of_string.
    + apply short_key_chars.
  - intros key1 key2 Hlen Hshort Hvis.
    rewrite !visible_chars in Hvis.
    rewrite <- (length_list_ascii_of_string key1),
            <- (length_list_ascii_of_string key2) in Hlen.
    rewrite <- (length_list_ascii_of_string key1) in Hshort.
    set (c1 := String.list_ascii_of_string key1) in *.
    set (c2 := String.list_ascii_of_string key2) in *.
    apply (f_equal String.list_ascii_of_string) in Hvis.
    rewrite !String.list_ascii_of_string_of_list_ascii in Hvis.
    apply app_inj_1 in Hvis as [Hhead Htail]; [|rewrite !length_take; lia].
    apply app_inv_head in Htail.
    assert (c1 = c2) as Hc.
    { rewrite (short_key_chars c1), (short_key_chars c2) by lia.
      rewrite <- Hlen in Htail |- *. by rewrite Hhead, Htail. }
    rewrite <- (String.string_of_list_ascii_of_string key1),
            <- (String.string_of_list_ascii_of_string key2).
    fold c1 c2. by rewrite Hc.
  - reflexivity.
Qed.

Lemma key_in_the_log_witness :
  logged_key (post_api_generate (Some " sk-or-12 ") None (λ _, Streams [])) =
    Some "sk-or-12...r-12" ∧
  ("abcdefghijklm" : string) = "abcdefghijklm".
Proof.
  destruct key_in_the_log as (Hlog & Hinj & _). split.
  - destruct (Hlog (Some " sk-or-12 ") None (λ _, Streams []) " sk-or-12 ")
      as [Hline _]; [reflexivity|].
    rewrite Hline. reflexivity.
  - apply Hinj; [reflexivity | by_evaluation | reflexivity].
Defined.

(** ** From the seed files to the client *)

Lemma NoDup_fst_functional {A B} (l : list (A * B)) k v1 v2 :
  NoDup (l.*1) → (k, v1) ∈ l → (k, v2) ∈ l → v1 = v2.
Proof.
  induction l as [|[k0 v0] l IH]; intros Hnd H1 H2; [by apply elem_of_nil in H1|].
  rewrite fmap_cons in Hnd. apply NoDup_cons in Hnd as [Hk Hnd]. simpl in Hk.
  apply elem_of_cons in H1 as [H1|H1], H2 as [H2|H2].
  - congruence.
  - injection H1 as -> ->. destruct Hk. by apply (list_elem_of_fmap_2 fst _ (k0, v2)).
  - injection H2 as -> ->. destruct Hk. by apply (list_elem_of_fmap_2 fst _ (k0, v1)).
  - by apply IH.
Qed.

Lemma seeded_rows_lookup (seed : list (string * string)) k v :
  NoDup (seed.*1) → (k, v) ∈ seed → k ≠ "__proto__" →
  own (rows_to_object ((λ e, ConfigRow e.1 (Some e.2)) <$> filter (λ e, e.2 ≠ "") seed)) !! k =
    if decide (v = "") then None else Some (Some v).
Proof.
  intros Hnd Hin Hk.
  set (rows := (λ e : string * string, ConfigRow e.1 (Some e.2)) <$> _).
  assert (row_key <$> rows = (filter (λ e : string * string, e.2 ≠ "") seed).*1) as Hkeys.
  { unfold rows. rewrite <- list_fmap_compose. by apply list_fmap_ext. }
  assert (NoDup (row_key <$> rows)) as Hnd'.
  { rewrite Hkeys. eapply sublist_NoDup; [exact Hnd|]. apply fmap_sublist, sublist_filter. }
  destruct (rows_to_object_lookup rows k Hnd') as (Hstored & Habsent & _).
  case_decide as Hv.
  - subst v. apply Habsent. rewrite Hkeys.
    intros ([k' v'] & Hk' & [Hne Hin']%list_elem_of_filter)%list_elem_of_fmap.
    simpl in *. subst k'. apply Hne. by apply (NoDup_fst_functional seed k).
  - apply Hstored; [|done]. unfold rows.
    apply (list_elem_of_fmap_2 (λ e : string * string, ConfigRow e.1 (Some e.2)) _ (k, v)).
    by apply list_elem_of_filter.
Qed.

(** X17. From the seed files to [GetConfig].  When the seed files can be
    read (the knowledge text file is readable or absent) and hold no
    character of code 0, and the configuration relation is empty, then
    after start-up with the store available [GetConfig] shows each of the
    four keys backed by a text file exactly when that file can be read and
    is not empty, with the content of the file; a file that is missing,
    unreadable or empty leaves the key absent.  The key [knowledge] carries
    the knowledge text under the same rule. *)
Theorem start_up_shows_seed_files rags pdf seed jsonTemplates now d key file :
  load_seedData rags pdf = Some seed →
  Forall (λ e, text_ok e.2) seed →
  web_skyling_config d = [] →
  (key, file) ∈ [("structure", "estructura.txt"); ("output", "output.txt");
                 ("limitations", "limitaciones.txt"); ("systemPrompt", "systemprompt.txt")] →
  ∃ config,
    GetConfig [] (run (initDB rags pdf jsonTemplates now) [] d).2 =
      (Ok (Response 200 (JConfig config)),
       (run (initDB rags pdf jsonTemplates now) [] d).2) ∧
    config !! key =
      match rags !! file with
      | Some (RegularFile content) =>
          if decide (content = "") then None else Some (Some content)
      | _ => None
      end ∧
    config !! "knowledge" =
      match knowledge_text rags pdf with
      | Some text => if decide (text = "") then None else Some (Some text)
      | None => None
      end.
Proof.
  intros Hload Hvalues Hempty Hkey.
  destruct (seeding_fills_empty_config rags pdf seed jsonTemplates now d
              Hempty Hload Hvalues) as [Hkeys Hrows].
  assert (NoDup (seed.*1)) as Hnd by (rewrite Hkeys; by_evaluation).
  unfold load_seedData in Hload.
  destruct (knowledge_text rags pdf) as [text|] eqn:Htext; [|done].
  simpl in Hload. injection Hload as Hseed.
  eexists. split; [apply GetConfig_available|].
  rewrite Hrows. split.
  - assert ((key, readFile rags file) ∈ seed ∧ key ≠ "__proto__") as [Hin Hproto].
    { rewrite <- Hseed. unfold seedData.
      repeat (apply elem_of_cons in Hkey as [Heq|Hkey];
              [injection Heq as -> ->; split; [|done];
               repeat first [apply list_elem_of_here | apply list_elem_of_further] |]).
      by apply elem_of_nil in Hkey. }
    rewrite (seeded_rows_lookup seed key _ Hnd Hin Hproto). unfold readFile.
    destruct (rags !! file) as [[content|]|]; done.
  - rewrite (seeded_rows_lookup seed "knowledge" text Hnd); [done | | done].
    rewrite <- Hseed. unfold seedData.
    do 4 apply list_elem_of_further. apply list_elem_of_here.
Qed.

Lemma start_up_shows_seed_files_witness :
  ∃ config,
    GetConfig []
      (run (initDB {[ "estructura.txt" := RegularFile "S"; "output.txt" := NotReadable;
                      "systemprompt.txt" := RegularFile "P";
                      "conocimiento_unico_sections.pdf" := RegularFile "%PDF" ]}
              (λ _, Some "K") None (λ _, 0%Z)) [] empty_database).2 =
      (Ok (Response 200 (JConfig config)),
       (run (initDB {[ "estructura.txt" := RegularFile "S"; "output.txt" := NotReadable;
                       "systemprompt.txt" := RegularFile "P";
                       "conocimiento_unico_sections.pdf" := RegularFile "%PDF" ]}
               (λ _, Some "K") None (λ _, 0%Z)) [] empty_database).2) ∧
    config !! "systemPrompt" = Some (Some "P").
Proof.
  destruct (start_up_shows_seed_files
              {[ "estructura.txt" := RegularFile "S"; "output.txt" := NotReadable;
                 "systemprompt.txt" := RegularFile "P";
                 "conocimiento_unico_sections.pdf" := RegularFile "%PDF" ]}
              (λ _, Some "K") (seedData "S" "" "" "P" "K") None (λ _, 0%Z)
              empty_database "systemPrompt" "systemprompt.txt")
    as (config & Hget & Hkey & _).
  - reflexivity.
  - by_evaluation.
  - reflexivity.
  - by_evaluation.
  - exists config. split; [exact Hget|]. by rewrite Hkey.
Defined.

(** X18. What the client shows.  For each of its five fields,
    [fetchDefaults] shows the stored text of the field's key, and the empty
    text when the key is absent or its value is null; and when the store
    fails, the 500 that comes back blanks all five fields, since the status
    of the response is not looked at. *)
Theorem fetchDefaults_shows d :
  NoDup (row_key <$> web_skyling_config d) →
  (∃ resp,
     GetConfig [] d = (Ok resp, d) ∧
     ∀ k proj,
       (k, proj) ∈ [("structure", structureInput); ("output", outputInput);
                    ("limitations", limitationsInput); ("systemPrompt", systemPrompt);
                    ("knowledge", knowledgeBase)] →
       (∀ v, ConfigRow k (Some v) ∈ web_skyling_config d → proj (fetchDefaults resp) = v) ∧
       (ConfigRow k None ∈ web_skyling_config d → proj (fetchDefaults resp) = "") ∧
       (k ∉ row_key <$> web_skyling_config d → proj (fetchDefaults resp) = "")) ∧
  (∀ fs, ∃ resp,
     GetConfig (true :: fs) d = (Ok resp, d) ∧
     status resp = 500%Z ∧
     fetchDefaults resp = Defaults "" "" "" "" "").
Proof.
  intros Hnd. split.
  - eexists. split; [apply GetConfig_available|].
    intros k proj Hk.
    assert (proj (fetchDefaults (Response 200
              (JConfig (own (rows_to_object (web_skyling_config d)))))) =
            default "" (truthy (own (rows_to_object (web_skyling_config d)) !! k ≫= id))
            ∧ k ≠ "__proto__") as [-> Hproto].
    { repeat (apply elem_of_cons in Hk as [Heq|Hk];
              [injection Heq as -> ->; by split |]).
      by apply elem_of_nil in Hk. }
    destruct (rows_to_object_lookup _ k Hnd) as (Hstored & Habsent & _).
    split_and!.
    + intros v Hv. rewrite (Hstored _ Hv Hproto). simpl.
      case_decide; by subst.
    + intros Hv. by rewrite (Hstored _ Hv Hproto).
    + intros Hout. by rewrite (Habsent Hout).
  - intros fs. eexists. split_and!; reflexivity.
Qed.

Lemma fetchDefaults_shows_witness :
  ∃ resp,
    GetConfig [] (SetConfig (Some "systemPrompt") (Some "X") [] empty_database).2 =
      (Ok resp, (SetConfig (Some "systemPrompt") (Some "X") [] empty_database).2) ∧
    systemPrompt (fetchDefaults resp) = "X".
Proof.
  destruct (fetchDefaults_shows
              (SetConfig (Some "systemPrompt") (Some "X") [] empty_database).2)
    as [(resp & Hget & Hshow) _]; [by_evaluation|].
  exists resp. split; [exact Hget|].
  destruct (Hshow "systemPrompt" systemPrompt) as [Hv _].
  - do 3 apply list_elem_of_further. apply list_elem_of_here.
  - apply Hv. by_evaluation.
Defined.

(** ** Editing keeps the place in the list *)

Lemma insert_desc_fmap (f : template_row → template_row) r rows :
  (∀ r, row_created_at (f r) = row_created_at r) →
  insert_desc (f r) (f <$> rows) = f <$> insert_desc r rows.
Proof.
  intros Hf. induction rows as [|x rows IH]; [done|].
  rewrite fmap_cons. cbn [insert_desc]. rewrite !Hf.
  case_bool_decide; [done|]. by rewrite IH, fmap_cons.
Qed.

Lemma order_by_fmap (f : template_row → template_row) rows :
  (∀ r, row_created_at (f r) = row_created_at r) →
  order_by_created_at_desc (f <$> rows) = f <$> order_by_created_at_desc rows.
Proof.
  intros Hf. induction rows as [|r rows IH]; [done|].
  rewrite fmap_cons. cbn [order_by_created_at_desc foldr].
  fold (order_by_created_at_desc (f <$> rows)). fold (order_by_created_at_desc rows).
  by rewrite IH, insert_desc_fmap.
Qed.

(** X19. Saving over an existing template and renaming one do not move it
    in the list: in a database with unique names and pairwise different
    creation times (with equal times SQL leaves the order open), for names
    and data that the store takes, the list in the response is the list
    before the call with the one row replaced where it stood.  (Saving
    draws an id from the sequence, which must have one left; renaming does
    not.) *)
Theorem editing_keeps_the_place oldName x d :
  NoDup (row_name <$> web_skyling_templates d) →
  NoDup (row_created_at <$> web_skyling_templates d) →
  oldName ≠ "" →
  oldName ∈ row_name <$> web_skyling_templates d →
  text_ok oldName → data_ok x →
  ∃ before,
    List [] d = (Ok (Response 200 (JRows before)), d) ∧
    (∀ now, (web_skyling_templates_id_seq d < MAXVALUE)%Z →
            (Upsert (Some oldName) (Some x) now [] d).1 =
              Ok (Response 200 (JTemplates (set_data oldName x <$> before)))) ∧
    (∀ newName,
       (∀ n, newName = Some n → n ≠ "" → n ≠ oldName →
             n ∉ row_name <$> web_skyling_templates d) →
       (∀ n, newName = Some n → key_ok n) →
       (Rename oldName newName (Some x) [] d).1 =
         Ok (Response 200 (JTemplates
               (rename_row (default oldName (truthy newName)) x oldName <$> before)))).
Proof.
  intros Hnd _ Hne Hold Hok Hx. eexists. split; [apply List_available|]. split.
  - intros now Hseq. rewrite Upsert_available by done. cbn [fst].
    rewrite upsert_template_present by done. cbn [web_skyling_templates].
    rewrite order_by_fmap; [done|]. intros r. apply set_data_created_at.
  - intros newName Hfree Hkey.
    rewrite Rename_applies; [| done | | done | done | done |].
    + cbn [fst]. rewrite order_by_fmap; [done|]. intros r. apply rename_row_created_at.
    + destruct (truthy newName) as [n|] eqn:Hn; [|done].
      apply truthy_nonempty in Hn as [-> _]. by apply key_ok_text, Hkey.
    + intros n [-> Hn]%truthy_nonempty Hneq. by apply Hfree.
Qed.

Lemma editing_keeps_the_place_witness :
  (Rename "A" (Some "Z") (Some (TemplateData "x" "y" "z")) [] two_templates).1 =
    Ok (Response 200 (JTemplates
          [TemplateRow 2 "B" (TemplateData "" "" "") 20;
           TemplateRow 1 "Z" (TemplateData "x" "y" "z") 10])).
Proof.
  destruct (editing_keeps_the_place "A" (TemplateData "x" "y" "z") two_templates)
    as (before & Hlist & _ & Hrename); [by_evaluation.. |].
  rewrite (Hrename (Some "Z")).
  - vm_compute in Hlist. by injection Hlist as <-.
  - intros n [= <-] _ _. by_evaluation.
  - intros n [= <-]. by_evaluation.
Defined.

(** ** Migration: the first entry of a name wins *)

Lemma migrate_templates_first_wins good now i c rows s t :
  Forall (λ e, key_ok e.1 ∧ data_ok e.2) good →
  (s + Z.of_nat (length good) ≤ MAXVALUE)%Z →
  let final := web_skyling_templates
    (db (migrate_templates ((λ e, (Some e.1, Some e.2)) <$> good) now i
           (World (Database c rows s) t [])).2) in
  (∀ r, r ∈ rows → r ∈ final) ∧
  (∀ j n x,
     good !! j = Some (n, x) →
     n ∉ row_name <$> rows →
     (∀ j' e, j' < j → good !! j' = Some e → e.1 ≠ n) →
     TemplateRow (s + 1 + Z.of_nat j) n x (now (i + j)) ∈ final).
Proof.
  intros Hok. revert rows s i.
  induction good as [|[n0 x0] good IH]; intros rows s i Hseq final.
  - split; [done|]. intros j n x Hj. by rewrite lookup_nil in Hj.
  - apply Forall_cons in Hok as [[Hkey%key_ok_text Hx] Hok]. simpl in Hkey, Hx.
    rewrite length_cons in Hseq. specialize (IH Hok).
    unfold final. rewrite fmap_cons. cbn [fst snd].
    rewrite migrate_templates_cons, query_available.
    rewrite insert_template_do_nothing_accepted by (first [done | simpl; lia]).
    cbn [web_skyling_templates web_skyling_config web_skyling_templates_id_seq].
    destruct (has_name n0 rows) eqn:Hhas.
    + destruct (IH rows (s + 1)%Z (S i)) as [Hkeep Hnew]; [lia|]. split; [done|].
      intros [|j] n x Hj Hn Hfirst.
      * injection Hj as -> ->. apply has_name_true in Hhas. done.
      * cbn [lookup list_lookup] in Hj.
        replace (s + 1 + Z.of_nat (S j))%Z with (s + 1 + 1 + Z.of_nat j)%Z by lia.
        replace (i + S j) with (S i + j) by lia.
        apply (Hnew j n x Hj Hn).
        intros j' e Hj' He. apply (Hfirst (S j') e); [lia | done].
    + apply has_name_false in Hhas.
      destruct (IH (rows ++ [TemplateRow (s + 1) n0 x0 (now i)]) (s + 1)%Z (S i))
        as [Hkeep Hnew]; [lia|].
      split.
      * intros r Hr. apply Hkeep, elem_of_app. by left.
      * intros [|j] n x Hj Hn Hfirst.
        -- injection Hj as -> ->. apply Hkeep, elem_of_app. right.
           replace (s + 1 + Z.of_nat 0)%Z with (s + 1)%Z by lia.
           replace (i + 0) with i by lia. apply list_elem_of_here.
        -- cbn [lookup list_lookup] in Hj.
           replace (s + 1 + Z.of_nat (S j))%Z with (s + 1 + 1 + Z.of_nat j)%Z by lia.
           replace (i + S j) with (S i + j) by lia.
           apply (Hnew j n x Hj).
           ++ rewrite fmap_app, not_elem_of_app. split; [done|].
              intros ->%list_elem_of_singleton.
              apply (Hfirst 0 (n0, x0)); [lia | done | done].
           ++ intros j' e Hj' He. apply (Hfirst (S j') e); [lia | done].
Qed.

(** X20. [ON CONFLICT (name) DO NOTHING]: when [templates.json] names a
    template more than once, the first entry of the name is the one that is
    stored.  On a database without templates and with the store available,
    once the seeding step is through, for entries that the store takes and
    for which the sequence has ids left (each entry draws one, stored or
    not): after start-up there is exactly one row of a name that the file
    holds, and it has the data of the first entry with that name, the time
    of that entry's insertion and the id that entry drew from the
    sequence. *)
Theorem initDB_first_entry_wins rags pdf good now d j n x :
  web_skyling_templates d = [] →
  NoDup (row_key <$> web_skyling_config d) →
  web_skyling_config d ≠ [] ∨ seed_ok rags pdf →
  Forall (λ e, key_ok e.1 ∧ data_ok e.2) good →
  (web_skyling_templates_id_seq d + Z.of_nat (length good) ≤ MAXVALUE)%Z →
  good !! j = Some (n, x) →
  (∀ j' e, j' < j → good !! j' = Some e → e.1 ≠ n) →
  filter (λ r, row_name r = n)
    (web_skyling_templates
       (run (initDB rags pdf (Some ((λ e, (Some e.1, Some e.2)) <$> good)) now) [] d).2) =
  [TemplateRow (web_skyling_templates_id_seq d + 1 + Z.of_nat j) n x (now j)].
Proof.
  intros Hrows Hkeys Hseed Hok Hseq Hj Hfirst.
  set (ts := Some ((λ e : string * template_data, (Some e.1, Some e.2)) <$> good)) in *.
  assert (NoDup (row_name <$> web_skyling_templates (run (initDB rags pdf ts now) [] d).2))
    as Hnd.
  { apply (run_preserves unique_entries unique_entries_restore);
      [|split; [done | rewrite Hrows; apply NoDup_nil_2]].
    apply preserves_initDB;
      auto using unique_entries_restore, insert_config_unique,
        insert_template_do_nothing_unique. }
  apply select_unique; [done | | done].
  clear Hnd. destruct d as [c rows s]. simpl in Hrows, Hseed, Hseq. subst rows.
  unfold ts, run, initDB, try_catch.
  unfold mbind at 1 2 3 4. unfold js_bind, query. simpl.
  destruct (seeding_step rags pdf c [] s Hseed) as [c' ->].
  unfold mbind, js_bind, mret, js_ret. simpl.
  destruct (migrate_templates_first_wins good now 0 c' [] s None Hok Hseq) as [_ Hnew].
  specialize (Hnew j n x Hj (not_elem_of_nil _) Hfirst). simpl in Hnew.
  destruct (migrate_templates _ now 0 _) as [[[]|e] [d' t' fs']] eqn:E; simpl in *.
  - pose proof (migrate_templates_frame ((λ e, (Some e.1, Some e.2)) <$> good) now 0
      (World (Database c' [] s) None [])) as [_ Htxn].
    rewrite E in Htxn. simpl in Htxn. by subst t'.
  - pose proof (migrate_templates_frame ((λ e, (Some e.1, Some e.2)) <$> good) now 0
      (World (Database c' [] s) None [])) as [_ Htxn].
    rewrite E in Htxn. simpl in Htxn. by subst t'.
Qed.

Lemma initDB_first_entry_wins_witness :
  filter (λ r, row_name r = "A")
    (web_skyling_templates
       (run (initDB {[ "estructura.txt" := RegularFile "S" ]} (λ _, None)
               (Some [(Some "A", Some (TemplateData "first" "" ""));
                      (Some "B", Some (TemplateData "b" "" ""));
                      (Some "A", Some (TemplateData "second" "" ""))])
               (λ j, Z.of_nat j)) [] empty_database).2) =
  [TemplateRow 1 "A" (TemplateData "first" "" "") 0].
Proof.
  apply (initDB_first_entry_wins {[ "estructura.txt" := RegularFile "S" ]} (λ _, None)
           [("A", TemplateData "first" "" ""); ("B", TemplateData "b" "" "");
            ("A", TemplateData "second" "" "")]
           (λ j, Z.of_nat j) empty_database 0 "A" (TemplateData "first" "" "")).
  - reflexivity.
  - by_evaluation.
  - right. by_evaluation.
  - by_evaluation.
  - by_evaluation.
  - reflexivity.
  - intros j' e Hj'. lia.
Defined.

(** ** A failed re-read does not undo the write *)

(** X21. [Upsert] and [Delete] write first and read the list afterwards,
    outside any transaction: when the write goes through and the read that
    follows fails, the answer is the 500 of a failure, yet the database is
    the one that the successful call leaves. *)
Theorem failed_reread_keeps_the_write fs d :
  (∀ n x now, n ≠ "" →
     Upsert (Some n) (Some x) now (false :: true :: fs) d =
       (Ok (Response 500 (JError "Database error")),
        (Upsert (Some n) (Some x) now [] d).2)) ∧
  (∀ n, Delete n (false :: true :: fs) d =
          (Ok (Response 500 (JError "Database error")), (Delete n [] d).2)).
Proof.
  split.
  - intros n x now Hn.
    unfold Upsert, run, handle, post_api_templates. rewrite truthy_Some by done.
    unfold try_catch, mbind, js_bind, query. simpl.
    by destruct (upsert_template n (Some x) now d) as [[[]|e] d'].
  - intros n. unfold Delete, run, handle, delete_api_templates.
    unfold try_catch, mbind, js_bind, query. simpl.
    by destruct (delete_template n d) as [[[]|e] d'].
Qed.

Lemma failed_reread_keeps_the_write_witness :
  Upsert (Some "C") (Some (TemplateData "c" "" "")) 30 [false; true] two_templates =
    (Ok (Response 500 (JError "Database error")),
     (Upsert (Some "C") (Some (TemplateData "c" "" "")) 30 [] two_templates).2).
Proof.
  apply (proj1 (failed_reread_keeps_the_write [] two_templates)). by_evaluation.
Defined.

(** ** What the store refuses *)











(** ** The store holds what it takes *)

Lemma storable_restore s d :
  storable s → storable d →
  (web_skyling_templates_id_seq s ≤ web_skyling_templates_id_seq d)%Z →
  storable (restore (Some s) d).
Proof. intros (Hc & Ht & _) (_ & _ & Hseq) _. unfold storable. simpl. tauto. Qed.

Lemma bind_accepts_text s ps :
  bind_parameters (TEXT (Some s) :: ps) = None → text_ok s ∧ bind_parameters ps = None.
Proof. simpl. destruct (text_ok s); [done | discriminate]. Qed.

Lemma bind_accepts_value v ps :
  bind_parameters (TEXT v :: ps) = None → value_ok v ∧ bind_parameters ps = None.
Proof. destruct v as [s|]; [apply bind_accepts_text | done]. Qed.

Lemma bind_accepts_data x ps :
  bind_parameters (JSONB (Some x) :: ps) = None → data_ok x ∧ bind_parameters ps = None.
Proof. simpl. destruct (data_ok x); [done | discriminate]. Qed.

Lemma storable_intro c t i :
  Forall (λ r, text_ok (row_key r) ∧ value_ok (row_value r)) c →
  Forall (λ r, text_ok (row_name r) ∧ data_ok (row_data r)) t →
  (0 ≤ i ≤ MAXVALUE)%Z →
  storable (Database c t i).
Proof. done. Qed.

Lemma insert_config_storable k v : stmt_ok storable (insert_config k v).
Proof.
  intros d Hd. pose proof Hd as (Hc & Ht & Hseq). unfold insert_config, prepared.
  destruct (bind_parameters _) eqn:Hps; [simpl; split; [done | lia]|].
  apply bind_accepts_text in Hps as [Hk [Hv _]%bind_accepts_value].
  destruct (has_key k _); simpl; (split; [|lia]); [done|].
  apply storable_intro; [|done..]. apply Forall_app. split; [done|].
  by apply Forall_singleton.
Qed.

Lemma upsert_config_storable k v : stmt_ok storable (upsert_config k v).
Proof.
  intros d Hd. pose proof Hd as (Hc & Ht & Hseq). unfold upsert_config, prepared.
  destruct (bind_parameters _) eqn:Hps; [simpl; split; [done | lia]|].
  apply bind_accepts_text in Hps as [Hk [Hv _]%bind_accepts_value].
  destruct (has_key k _); simpl; (split; [|lia]); (apply storable_intro; [|done..]).
  - apply Forall_fmap. eapply Forall_impl; [exact Hc|].
    intros r [Hrk Hrv]. unfold set_value. simpl. by case_decide.
  - apply Forall_app. split; [done|]. by apply Forall_singleton.
Qed.

Lemma storable_bump d :
  storable d → (web_skyling_templates_id_seq d < MAXVALUE)%Z →
  storable (Database (web_skyling_config d) (web_skyling_templates d)
                     (web_skyling_templates_id_seq d + 1)).
Proof. intros (Hc & Ht & Hseq) Hlt. apply storable_intro; [done.. | lia]. Qed.

Lemma upsert_template_storable n x now : stmt_ok storable (upsert_template n x now).
Proof.
  intros d Hd. pose proof Hd as (Hc & Ht & Hseq). unfold upsert_template, prepared.
  destruct (bind_parameters _) eqn:Hps; [simpl; split; [done | lia]|].
  apply bind_accepts_text in Hps as [Hn Hps].
  unfold nextval. case_bool_decide as Hlt; [|simpl; split; [done | lia]].
  pose proof (storable_bump d Hd Hlt) as (_ & _ & Hseq1). simpl in Hseq1.
  destruct x as [x|]; [|simpl; split; [by apply storable_bump | lia]].
  apply bind_accepts_data in Hps as [Hx _]. unfold with_templates.
  destruct (has_name n _); simpl; (split; [|lia]);
    (apply storable_intro; [done | | done]).
  - apply Forall_fmap. eapply Forall_impl; [exact Ht|].
    intros r [Hrn Hrx]. unfold set_data. simpl. by case_decide.
  - apply Forall_app. split; [done|]. by apply Forall_singleton.
Qed.

Lemma insert_template_do_nothing_storable n x now :
  stmt_ok storable (insert_template_do_nothing n x now).
Proof.
  intros d Hd. pose proof Hd as (Hc & Ht & Hseq).
  unfold insert_template_do_nothing, prepared.
  destruct (bind_parameters _) eqn:Hps; [simpl; split; [done | lia]|].
  unfold nextval. case_bool_decide as Hlt; [|simpl; split; [done | lia]].
  pose proof (storable_bump d Hd Hlt) as Hbump.
  pose proof Hbump as (_ & _ & Hseq1). simpl in Hseq1.
  destruct n as [n|], x as [x|]; try (simpl; split; [done | lia]).
  apply bind_accepts_text in Hps as [Hn [Hx _]%bind_accepts_data].
  unfold with_templates.
  destruct (has_name n _); simpl; (split; [|lia]); [done|].
  apply storable_intro; [done | | done].
  apply Forall_app. split; [done|]. by apply Forall_singleton.
Qed.

Lemma update_template_storable f x o : stmt_ok storable (update_template f x o).
Proof.
  intros d Hd. pose proof Hd as (Hc & Ht & Hseq). unfold update_template, prepared.
  destruct (bind_parameters _) eqn:Hps; [simpl; split; [done | lia]|].
  apply bind_accepts_text in Hps as [Hf Hps].
  destruct (has_name o _); [|simpl; split; [done | lia]].
  destruct x as [x|]; [|simpl; split; [done | lia]].
  apply bind_accepts_data in Hps as [Hx _].
  cbv zeta. unfold with_templates.
  case_bool_decide; simpl; (split; [|lia]); [|done].
  apply storable_intro; [done | | done].
  apply Forall_fmap. eapply Forall_impl; [exact Ht|].
  intros r [Hrn Hrx]. unfold rename_row. simpl. by case_decide.
Qed.

Lemma delete_template_storable n : stmt_ok storable (delete_template n).
Proof.
  apply prepared_ok. intros d (Hc & Ht & Hseq). unfold with_templates. simpl.
  split; [|lia]. apply storable_intro; [done | | done].
  apply Forall_forall. intros r [_ Hr]%list_elem_of_filter.
  rewrite Forall_forall in Ht. by apply Ht.
Qed.

Lemma empty_storable : storable empty_database.
Proof. apply storable_intro; [apply Forall_nil_2.. | done]. Qed.

(** X23. The database never holds what the store does not take: in every
    reachable state, whatever was requested and whichever round trips
    failed, no key, value, name or data field holds the character of code
    0 and the sequence of ids is between 0 and its largest value; and
    every request and every start-up keeps it so. *)
Theorem reachable_storable :
  (∀ d, reachable d → storable d) ∧
  (∀ r now fs d, storable d → storable (run (handle r now) fs d).2) ∧
  (∀ rags pdf jsonTemplates now fs d,
     storable d → storable (run (initDB rags pdf jsonTemplates now) fs d).2).
Proof.
  split_and!.
  - intros d. apply reachable_preserves;
      auto using storable_restore, insert_config_storable, upsert_config_storable,
        upsert_template_storable, insert_template_do_nothing_storable,
        update_template_storable, delete_template_storable, empty_storable.
  - intros r now fs d Hd. apply run_preserves; [apply storable_restore | | done].
    apply preserves_handle;
      auto using storable_restore, insert_config_storable, upsert_config_storable,
        upsert_template_storable, insert_template_do_nothing_storable,
        update_template_storable, delete_template_storable.
  - intros rags pdf ts now fs d Hd. apply run_preserves; [apply storable_restore | | done].
    apply preserves_initDB;
      auto using storable_restore, insert_config_storable, upsert_config_storable,
        upsert_template_storable, insert_template_do_nothing_storable,
        update_template_storable, delete_template_storable.
Qed.

Lemma reachable_storable_witness :
  storable (Upsert (Some a_NUL_b) (Some (TemplateData "x" "" "")) 30 []
              (Upsert (Some "A") (Some (TemplateData "s" "" "")) 7 [] empty_database).2).2.
Proof.
  destruct reachable_storable as (Hreach & _).
  apply Hreach.
  apply (reachable_request _ (POST_templates (Some a_NUL_b) (Some (TemplateData "x" "" "")))
           30 []).
  apply (reachable_request _ (POST_templates (Some "A") (Some (TemplateData "s" "" "")))
           7 []).
  apply reachable_fresh.
Defined.

(** ** Start-up that cannot seed *)

Lemma preserves_throw_bind (P : database → Prop) {A B} e (k : A → js B) :
  preserves P (throw e ≫= k).
Proof. by intros w Hw. Qed.

(** A seed text that the store refuses ends the seeding with an exception;
    the template relation and the sequence are as they were. *)
Lemma seed_config_refused entries c rows i t :
  Exists (λ e, ¬ text_ok e.2) entries →
  ∃ e c', seed_config entries (World (Database c rows i) t []) =
            (Throw e, World (Database c' rows i) t []).
Proof.
  revert c. induction entries as [|[k v] entries IH]; intros c Hbad.
  - by apply Exists_nil in Hbad.
  - simpl. destruct (decide (v = "")) as [->|Hv].
    + apply Exists_cons in Hbad as [Hno|Hbad]; [by destruct Hno|].
      unfold mbind, js_bind, mret, js_ret. by apply IH.
    + unfold mbind, js_bind, query. simpl.
      unfold insert_config at 1, prepared.
      destruct (bind_parameters _) eqn:Hps; [by eexists _, _|].
      apply bind_accepts_text in Hps as [_ [Hvok _]%bind_accepts_value].
      apply Exists_cons in Hbad as [Hno|Hbad]; [by destruct Hno|].
      simpl. destruct (has_key k c); [by eexists _, _|]. by apply IH.
Qed.

(** X24. Start-up that cannot seed ends there.  On an empty configuration
    relation: when the knowledge text file exists but cannot be read, the
    read is not guarded and [initDB] ends without a change to the database,
    whichever round trips fail; and when a seed text holds the character of
    code 0, its [INSERT] is refused and [initDB] ends with it (the store
    being available).  In both cases nothing of [templates.json] is
    migrated, though the template relation may be empty. *)
Theorem initDB_ends_where_seeding_fails rags pdf jsonTemplates now d :
  web_skyling_config d = [] →
  (knowledge_text rags pdf = None →
     ∀ fs, (run (initDB rags pdf jsonTemplates now) fs d).2 = d) ∧
  (∀ seed, load_seedData rags pdf = Some seed →
     Exists (λ e, ¬ text_ok e.2) seed →
     web_skyling_templates (run (initDB rags pdf jsonTemplates now) [] d).2 =
       web_skyling_templates d ∧
     web_skyling_templates_id_seq (run (initDB rags pdf jsonTemplates now) [] d).2 =
       web_skyling_templates_id_seq d).
Proof.
  intros Hempty. split.
  - intros Hknow fs.
    apply (run_preserves (λ d', d' = d)); [by intros s d0 -> -> _; destruct d | | done].
    unfold initDB. apply preserves_try_catch; [|intros ?; apply preserves_mret].
    apply preserves_bind; [apply preserves_query, @read_only_ok | intros _].
    apply preserves_bind; [apply preserves_query, @read_only_ok | intros _].
    apply preserves_query_bind; [apply @read_only_ok|].
    intros d0 a -> [= <-]. rewrite Hempty. simpl.
    unfold seed_from_files, load_seedData. rewrite Hknow. simpl.
    apply preserves_throw_bind.
  - intros seed Hload Hbad. destruct d as [c rows i]. simpl in Hempty. subst c.
    destruct (seed_config_refused seed [] rows i None Hbad) as (e & c' & Hseed).
    assert ((run (initDB rags pdf jsonTemplates now) [] (Database [] rows i)).2 =
            Database c' rows i) as ->; [|done].
    unfold run, initDB, try_catch.
    unfold mbind at 1 2 3 4. unfold js_bind, query. simpl.
    unfold seed_from_files. by rewrite Hload, Hseed.
Qed.

Lemma initDB_ends_where_seeding_fails_witness :
  (run (initDB {[ "estructura.txt" := RegularFile "S";
                   "conocimiento_unico_sections.txt" := NotReadable ]} (λ _, None)
          (Some [(Some "A", Some (TemplateData "a" "" ""))]) (λ _, 0%Z))
       [] empty_database).2 = empty_database ∧
  web_skyling_templates
    (run (initDB {[ "estructura.txt" := RegularFile "S";
                    "output.txt" := RegularFile a_NUL_b ]} (λ _, None)
            (Some [(Some "A", Some (TemplateData "a" "" ""))]) (λ _, 0%Z))
         [] empty_database).2 = [].
Proof.
  split.
  - apply (initDB_ends_where_seeding_fails
             {[ "estructura.txt" := RegularFile "S";
                "conocimiento_unico_sections.txt" := NotReadable ]} (λ _, None)
             (Some [(Some "A", Some (TemplateData "a" "" ""))]) (λ _, 0%Z) empty_database);
      reflexivity.
  - apply (initDB_ends_where_seeding_fails
             {[ "estructura.txt" := RegularFile "S";
                "output.txt" := RegularFile a_NUL_b ]} (λ _, None)
             (Some [(Some "A", Some (TemplateData "a" "" ""))]) (λ _, 0%Z) empty_database
             eq_refl)
      with (seedData "S" a_NUL_b "" "" ""); [reflexivity | by_evaluation].
Defined.
